(** * ROA Chrono Party AI: blackboard, controllers and manager

    A shallow embedding of the decision core of the party AI plugin
    (Blackboard, Controller, Manager and the ChronoCompat adapter calls they
    make), followed by the properties of that core.

    Modelling conventions.
    - JavaScript numbers that hold tile counts, frame counters, tool ids and
      actor ids are integers [Z]. [a.hpRate() * 100] enters the model as the
      rational value [Q] of the double the host computed. A [Math.random()]
      draw is a double ([Double.t]); the one floating-point operation whose
      rounding decides a result, the product
      [Math.random() * CFG.thinkInterval] of the constructor, is carried out
      on doubles ([Double.mulInt]), and the comparison of a draw with [0.5]
      is made on its exact value.
    - Role and stance are the strings the plugin compares.
    - Map events are host objects that the plugin holds by reference (the cached
      enemy array, a controller's target): a reference is an event id and the
      host gives the object's state at the current frame ([eventObj]).
    - A controller method is a function of the controller record that returns
      the new record together with the list of adapter calls that reached the
      host (movement and tool intents), in call order. An intent names the
      character as the method found it; where a method reads the character's
      position again after a movement call, the position comes from the host
      ([moveTowardCharacter], [moveAwayFromCharacter]).
    - The blackboard a controller points to is the manager's; it is passed to
      the controller's methods instead of being stored in the record. *)

From Stdlib Require Import ZArith QArith Qround String Ascii List Bool Lia.
From stdpp Require Import base gmap sets list strings.

Close Scope Q_scope.
Local Open Scope Z_scope.

(** ** Data model *)

(** The [_roaEnemyType] tag cached on an enemy event: [enemyTypeFromEnemyDb]
    only ever yields one of the two. *)
Inductive EnemyType := EnemyRANGED | EnemyMELEE.

Definition isEnemyRANGED (t : option EnemyType) : bool :=
  match t with
  | Some EnemyRANGED => true
  | _ => false
  end.

Definition isEnemyMELEE (t : option EnemyType) : bool :=
  match t with
  | Some EnemyMELEE => true
  | _ => false
  end.

(** A map character (player, follower or event): tile position and, for an
    enemy event, the cached type tag. *)
Record Character := mkCharacter {
  cx : Z;
  cy : Z;
  roaEnemyType : option EnemyType;
}.

(** The value of [actorAiConfig(actor)]. *)
Module AgentConfig.
Record t := mk {
  enabled : bool;
  role : string;
  stance : string;
  aggro : Z;
  leash : Z;
  preferredRange : Z;
  keepDistance : Z;
  protectRadius : Z;
  toolAttack : Z;
  toolDefend : Z;
  toolHeal : Z;
  toolBuff : Z;
}.
End AgentConfig.

(** A [Game_Actor] as the plugin reads it: death flag, [hpRate() * 100] and
    the configuration parsed from its note. *)
Record Actor := mkActor {
  isDead : bool;
  hpPct : Q;
  aiConfig : AgentConfig.t;
}.

(** Plugin parameters ([CFG]). *)
Module Config.
Record t := mk {
  enabled : bool;
  thinkInterval : Z;
  enemyScanInterval : Z;
  defaultAggro : Z;
  healerHealThreshold : Z;
  healerCriticalThreshold : Z;
  healerBuffWindowFrames : Z;
}.
End Config.

(** ** Doubles *)

(** A finite double that is not negative, by its integral significand and
    binary exponent: the number [mantissa * 2 ^ exponent]. *)
Module Double.
Record t := mk {
  mantissa : Z;
  exponent : Z;
}.

(** The double is one [Math.random()] can return: at least 0, below 1, with
    at most 53 significant bits and no bit below the least subnormal. *)
Definition inUnitInterval (x : t) : bool :=
  (0 <=? mantissa x) && (mantissa x <? 2 ^ 53) && (-1074 <=? exponent x)
  && ((mantissa x =? 0)
      || ((exponent x <? 0) && (mantissa x <? 2 ^ (- exponent x)))).

(** [x * n] for an integer [n] from 0 to [2 ^ 53], which a double holds
    exactly: the exact product [mantissa * n * 2 ^ exponent] rounded to 53
    significant bits, to nearest, ties to even. For [x] in the unit interval
    the product lies below [2 ^ 53] and all its bits at or above the least
    subnormal, so it neither overflows nor loses bits to the exponent range.
    A rounded significand of [2 ^ 53] stands for [2 ^ 52] with the next
    exponent. *)
Definition mulInt (x : t) (n : Z) : t :=
  let p := mantissa x * n in
  if p <? 2 ^ 53 then mk p (exponent x)
  else
    let k := Z.log2 p - 52 in
    let q := p / 2 ^ k in
    let r := p mod 2 ^ k in
    let half := 2 ^ (k - 1) in
    let up := (half <? r) || ((r =? half) && Z.odd q) in
    mk (if up then q + 1 else q) (exponent x + k).

(** [Math.floor]. *)
Definition floor (x : t) : Z :=
  if 0 <=? exponent x then mantissa x * 2 ^ exponent x
  else mantissa x / 2 ^ (- exponent x).

(** The number the double stands for. *)
Definition toQ (x : t) : Q :=
  (inject_Z (mantissa x) * inject_Z 2 ^ exponent x)%Q.

End Double.

(** What the host exposes during one frame. *)
Record World := mkWorld {
  (** [$gamePlayer] *)
  gamePlayer : option Character;
  (** [Manager.partyActorIds()], leader first *)
  partyActorIds : list Z;
  (** [$gameActors.actor(id)] *)
  gameActors : gmap Z Actor;
  (** [ChronoCompat.characterForActorId(id)] *)
  characterForActorId : Z -> option Character;
  (** [ChronoCompat.enemyCharacters()]: references to the enemy events *)
  enemyCharacters : list Z;
  (** current state of the event object behind a reference *)
  eventObj : Z -> Character;
  (** the character after the host has carried out [moveTowardCharacter] *)
  moveTowardCharacter : Character -> Character -> Character;
  (** the double [Math.random()] returns to the call made on behalf of an
      actor in this frame (the constructor of its controller, or a sidestep
      of that controller: a new controller is in FOLLOW and does not
      sidestep) *)
  mathRandom : Z -> Double.t;
  (** the character after the host has carried out [moveAwayFromCharacter] *)
  moveAwayFromCharacter : Character -> Character -> Character;
}.

(** [$gameParty.leader() ? $gameParty.leader().actorId() : 0] *)
Definition leaderId (w : World) : Z :=
  match partyActorIds w with
  | [] => 0
  | a :: _ => a
  end.

(** Adapter calls that reach the host. *)
Inductive Intent :=
| MoveToward (ch tgt : Character)
| MoveAway (ch tgt : Character)
| MoveStraight (ch : Character) (dir : Z)
| UseTool (ch : Character) (toolId commandType : Z).

Definition isMovement (i : Intent) : bool :=
  match i with
  | UseTool _ _ _ => false
  | _ => true
  end.

Definition isAbility (i : Intent) : bool :=
  match i with
  | UseTool _ _ _ => true
  | _ => false
  end.

(** ** Strings *)

(** [String.prototype.toUpperCase] on the ASCII range. *)
Definition upperAscii (a : ascii) : ascii :=
  let n := nat_of_ascii a in
  if ((97 <=? n) && (n <=? 122))%nat then ascii_of_nat (n - 32) else a.

Fixpoint toUpperCase (s : string) : string :=
  match s with
  | EmptyString => EmptyString
  | String a s' => String (upperAscii a) (toUpperCase s')
  end.

Module Roles.
Definition RANGED : string := "RANGED".
Definition MELEE : string := "MELEE".
Definition TANK : string := "TANK".
Definition HEALER : string := "HEALER".

(** [Roles[r]] is truthy. *)
Definition known (r : string) : bool :=
  String.eqb r RANGED || String.eqb r MELEE || String.eqb r TANK
  || String.eqb r HEALER.
End Roles.

Module Stances.
Definition AGGRESSIVE : string := "AGGRESSIVE".
Definition DEFENSIVE : string := "DEFENSIVE".
Definition HOLD : string := "HOLD".
End Stances.

(** [String(role || "MELEE").toUpperCase()], the expression the controller,
    the tank and the healer queue all start from. *)
Definition roleKey (role : string) : string :=
  toUpperCase (if String.eqb role "" then "MELEE" else role).

(** ** ChronoCompat *)

Module ChronoCompat.

Definition distTiles (a b : option Character) : Z :=
  match a, b with
  | Some a, Some b => Z.abs (cx a - cx b) + Z.abs (cy a - cy b)
  | _, _ => 9999
  end.

Definition moveToward (ch tgt : option Character) : list Intent :=
  match ch, tgt with
  | Some c, Some t => [MoveToward c t]
  | _, _ => []
  end.

Definition moveAway (ch tgt : option Character) : list Intent :=
  match ch, tgt with
  | Some c, Some t => [MoveAway c t]
  | _, _ => []
  end.

(** [sidestep(char, targetChar)]. An intent names the character as the think
    found it ([ch]); the position the method reads is the one the object has
    at the call ([now]), which differs when the host has moved the character
    earlier in the same think. [rnd] is the [Math.random()] draw. *)
Definition sidestep (rnd : Q) (ch now tgt : option Character) : list Intent :=
  match ch, now, tgt with
  | Some c, Some n, Some t =>
      let dx := cx t - cx n in
      let dy := cy t - cy n in
      let first := negb (Qle_bool (1 # 2) rnd) in
      if Z.abs dy <? Z.abs dx
      then [MoveStraight c (if first then 8 else 2)]
      else [MoveStraight c (if first then 4 else 6)]
  | _, _, _ => []
  end.

(** The guard of [tryUseTool]: nothing happens without a character or with a
    falsy tool id; otherwise the character's [act] is called (every map
    character of the Chrono engine has one). *)
Definition tryUseTool (ch : option Character) (toolId commandType : Z)
  : list Intent :=
  match ch with
  | Some c => if toolId =? 0 then [] else [UseTool c toolId commandType]
  | None => []
  end.

End ChronoCompat.

(** ** Blackboard *)

Module Blackboard.

Record t := mk {
  frame : Z;
  enemyScanCd : Z;
  enemies : list Z;
  combatActive : bool;
  combatStartFrame : Z;
}.

(** [new Blackboard()] *)
Definition new : t := mk 0 0 [] false 0.

Section WithConfig.
Variable CFG : Config.t.

(** Is the enemy behind [e] within the global aggro radius of the player? *)
Definition inAggro (w : World) (e : Z) : bool :=
  ChronoCompat.distTiles (gamePlayer w) (Some (eventObj w e))
    <=? Config.defaultAggro CFG.

Definition update (w : World) (bb : t) : t :=
  let frame' := frame bb + 1 in
  let rescan := enemyScanCd bb <=? 0 in
  let cd' :=
    if rescan then Config.enemyScanInterval CFG else enemyScanCd bb - 1 in
  let enemies' := if rescan then enemyCharacters w else enemies bb in
  let active := existsb (inAggro w) enemies' in
  if active && negb (combatActive bb)
  then mk frame' cd' enemies' true frame'
  else if negb active
  then mk frame' cd' enemies' false (combatStartFrame bb)
  else mk frame' cd' enemies' (combatActive bb) (combatStartFrame bb).

(** Successive frames, one world per frame. *)
Fixpoint run (ws : list World) (bb : t) : t :=
  match ws with
  | [] => bb
  | w :: ws' => run ws' (update w bb)
  end.

(** Combat is active after every frame of [ws]. *)
Fixpoint staysActive (ws : list World) (bb : t) : Prop :=
  match ws with
  | [] => True
  | w :: ws' =>
      combatActive (update w bb) = true /\ staysActive ws' (update w bb)
  end.

End WithConfig.

End Blackboard.

(** ** Controller *)

Module Controller.

Inductive FsmState := FOLLOW | ACQUIRE | ACT | RECOVER | HOLD.

Record t := mk {
  actorId : Z;
  cfg : AgentConfig.t;
  thinkCd : Z;
  state : FsmState;
  (** reference to the targeted enemy event *)
  target : option Z;
  buffedThisCombat : gset Z;
  buffQueue : list Z;
  combatStartFrameSeen : Z;
}.

Definition set_cfg (v : AgentConfig.t) (c : t) : t :=
  mk (actorId c) v (thinkCd c) (state c) (target c)
     (buffedThisCombat c) (buffQueue c) (combatStartFrameSeen c).

Definition set_thinkCd (v : Z) (c : t) : t :=
  mk (actorId c) (cfg c) v (state c) (target c)
     (buffedThisCombat c) (buffQueue c) (combatStartFrameSeen c).

Definition set_state (v : FsmState) (c : t) : t :=
  mk (actorId c) (cfg c) (thinkCd c) v (target c)
     (buffedThisCombat c) (buffQueue c) (combatStartFrameSeen c).

Definition set_target (v : option Z) (c : t) : t :=
  mk (actorId c) (cfg c) (thinkCd c) (state c) v
     (buffedThisCombat c) (buffQueue c) (combatStartFrameSeen c).

Definition set_buffedThisCombat (v : gset Z) (c : t) : t :=
  mk (actorId c) (cfg c) (thinkCd c) (state c) (target c)
     v (buffQueue c) (combatStartFrameSeen c).

(** The three healer fields, which the code always assigns together. *)
Definition set_healerScript (buffed : gset Z) (queue : list Z) (seen : Z)
    (c : t) : t :=
  mk (actorId c) (cfg c) (thinkCd c) (state c) (target c) buffed queue seen.

(** A method body: new controller and the intents issued, in order. *)
Definition Action : Type := t -> t * list Intent.

Definition modify (f : t -> t) : Action := fun c => (f c, []).
Definition andThen (a b : Action) : Action := fun c =>
  let '(c1, out1) := a c in
  let '(c2, out2) := b c1 in
  (c2, out1 ++ out2).

Notation "a >> b" := (andThen a b) (at level 61, left associativity).

Definition Qltb (a b : Q) : bool := negb (Qle_bool b a).

Section WithWorld.
Variable CFG : Config.t.
Variable w : World.
Variable bb : Blackboard.t.

(** The constructor; [rnd] is the [Math.random()] draw. *)
Definition new (actorId : Z) (cfg : AgentConfig.t) (rnd : Double.t) : t :=
  mk actorId cfg (Double.floor (Double.mulInt rnd (Config.thinkInterval CFG)))
     FOLLOW None ∅ [] 0.

Definition actor (c : t) : option Actor := gameActors w !! actorId c.
Definition char (c : t) : option Character :=
  characterForActorId w (actorId c).

Definition enemyChar (e : Z) : option Character := Some (eventObj w e).

Definition role (c : t) : string :=
  let r := roleKey (AgentConfig.role (cfg c)) in
  if Roles.known r then r else Roles.MELEE.

Definition stanceIsHold (c : t) : bool :=
  String.eqb (AgentConfig.stance (cfg c)) Stances.HOLD.

(** *** Target picking *)

(** The loop of [nearestInPool] with its two running variables. *)
Fixpoint nearestLoop (ch : option Character) (pool : list Z)
    (best : option Z) (bestD : Z) : option Z :=
  match pool with
  | [] => best
  | e :: pool' =>
      let d := ChronoCompat.distTiles ch (enemyChar e) in
      if d <? bestD then nearestLoop ch pool' (Some e) d
      else nearestLoop ch pool' best bestD
  end.

Definition nearestInPool (ch : option Character) (pool : list Z) : option Z :=
  nearestLoop ch pool None 9999.

Definition pickTarget (c : t) (role : string) : option Z :=
  let ch := char c in
  let enemies := Blackboard.enemies bb in
  match enemies with
  | [] => None
  | _ :: _ =>
      if String.eqb role Roles.RANGED then
        let ranged :=
          List.filter (fun e => isEnemyRANGED (roaEnemyType (eventObj w e)))
                      enemies in
        let pool := match ranged with [] => enemies | _ :: _ => ranged end in
        nearestInPool ch pool
      else nearestInPool ch enemies
  end.

(** *** States *)

Definition thinkFollow : Action := fun c =>
  if stanceIsHold c then (set_state HOLD c, [])
  else if Blackboard.combatActive bb then (set_state ACQUIRE c, [])
  else
    let ch := char c in
    let d := ChronoCompat.distTiles ch (gamePlayer w) in
    (c, if 2 <? d then ChronoCompat.moveToward ch (gamePlayer w) else []).

Definition thinkHold : Action := fun c =>
  let ch := char c in
  match List.find (fun e => ChronoCompat.distTiles ch (enemyChar e) <=? 3)
                  (Blackboard.enemies bb) with
  | Some close => (set_state ACT (set_target (Some close) c), [])
  | None => (c, [])
  end.

Definition thinkRecover : Action := fun c =>
  let ch := char c in
  let moved :=
    match ch, gamePlayer w with
    | Some a, Some p => Some (moveTowardCharacter w a p)
    | _, _ => ch
    end in
  let c' :=
    if ChronoCompat.distTiles moved (gamePlayer w) <=? 3
    then set_state (if stanceIsHold c then HOLD else FOLLOW) c
    else c in
  (c', ChronoCompat.moveToward ch (gamePlayer w)).

Definition thinkAcquire : Action := fun c =>
  let role := role c in
  if String.eqb role Roles.HEALER then (set_state ACT c, [])
  else
    match pickTarget c role with
    | None => (set_state (if stanceIsHold c then HOLD else FOLLOW) c, [])
    | Some t => (set_state ACT (set_target (Some t) c), [])
    end.

(** *** Role actions *)

(** [if (this.cfg.toolAttack > 0) tryUseTool(ch, this.cfg.toolAttack, 0)] *)
Definition fireAttack (c : t) (ch : option Character) : list Intent :=
  if 0 <? AgentConfig.toolAttack (cfg c)
  then ChronoCompat.tryUseTool ch (AgentConfig.toolAttack (cfg c)) 0
  else [].

(** [this._target || this.pickTarget(role)] *)
Definition targetOr (c : t) (role : string) : option Z :=
  match target c with
  | Some t => Some t
  | None => pickTarget c role
  end.

(** The character once the host has carried out the [moveAway] call. *)
Definition afterMoveAway (ch tgt : option Character) : option Character :=
  match ch, tgt with
  | Some c, Some t => Some (moveAwayFromCharacter w c t)
  | _, _ => ch
  end.

Definition actRanged : Action := fun c =>
  let ch := char c in
  match targetOr c Roles.RANGED with
  | None => (set_state FOLLOW c, [])
  | Some t =>
      let d := ChronoCompat.distTiles ch (enemyChar t) in
      let keep := AgentConfig.keepDistance (cfg c) in
      let moves :=
        if isEnemyMELEE (roaEnemyType (eventObj w t)) && (d <=? keep)
        then ChronoCompat.moveAway ch (enemyChar t)
             ++ ChronoCompat.sidestep (Double.toQ (mathRandom w (actorId c)))
                  ch (afterMoveAway ch (enemyChar t)) (enemyChar t)
        else if AgentConfig.preferredRange (cfg c) <? d
        then ChronoCompat.moveToward ch (enemyChar t)
        else [] in
      (set_state ACQUIRE c, moves ++ fireAttack c ch)
  end.

Definition actMelee : Action := fun c =>
  let ch := char c in
  match targetOr c Roles.MELEE with
  | None => (set_state FOLLOW c, [])
  | Some t =>
      (set_state ACQUIRE c,
       ChronoCompat.moveToward ch (enemyChar t) ++ fireAttack c ch)
  end.

(** The filter of [actTank]: actors configured RANGED or HEALER. *)
Definition isProtected (id : Z) : bool :=
  match gameActors w !! id with
  | None => false
  | Some a =>
      let r := roleKey (AgentConfig.role (aiConfig a)) in
      String.eqb r Roles.RANGED || String.eqb r Roles.HEALER
  end.

Fixpoint nearestProtectedLoop (ch : option Character) (ids : list Z)
    (protectedChar : option Character) (bestD : Z) : option Character :=
  match ids with
  | [] => protectedChar
  | aid :: ids' =>
      match characterForActorId w aid with
      | None => nearestProtectedLoop ch ids' protectedChar bestD
      | Some pc =>
          let d := ChronoCompat.distTiles ch (Some pc) in
          if d <? bestD then nearestProtectedLoop ch ids' (Some pc) d
          else nearestProtectedLoop ch ids' protectedChar bestD
      end
  end.

Definition actTank : Action := fun c =>
  let ch := char c in
  let protectRadius := AgentConfig.protectRadius (cfg c) in
  let protectedActorIds := List.filter isProtected (partyActorIds w) in
  let protectedChar := nearestProtectedLoop ch protectedActorIds None 9999 in
  let peel :=
    match protectedChar with
    | Some pc =>
        List.find
          (fun e => ChronoCompat.distTiles (Some pc) (enemyChar e)
                      <=? protectRadius)
          (Blackboard.enemies bb)
    | None => None
    end in
  let t :=
    match peel with
    | Some e => Some e
    | None => pickTarget c Roles.TANK
    end in
  match t with
  | None => (set_state FOLLOW c, [])
  | Some t =>
      (set_state ACQUIRE c,
       ChronoCompat.moveToward ch (enemyChar t) ++ fireAttack c ch)
  end.

(** *** Healer script *)

(** The loop of [buildHealerBuffQueue] that sorts the party into the three
    arrays [melee], [ranged] and [healer] (each [push] appends). *)
Fixpoint groupLoop (ids melee ranged healer : list Z)
    : list Z * list Z * list Z :=
  match ids with
  | [] => (melee, ranged, healer)
  | id :: ids' =>
      match gameActors w !! id with
      | None => groupLoop ids' melee ranged healer
      | Some a =>
          let r := roleKey (AgentConfig.role (aiConfig a)) in
          if String.eqb r Roles.HEALER
          then groupLoop ids' melee ranged (healer ++ [id])
          else if String.eqb r Roles.TANK || String.eqb r Roles.MELEE
          then groupLoop ids' (melee ++ [id]) ranged healer
          else groupLoop ids' melee (ranged ++ [id]) healer
      end
  end.

Definition notLeader (id : Z) : bool := negb (id =? leaderId w).

Definition buildHealerBuffQueue : list Z :=
  let '(melee, ranged, healer) := groupLoop (partyActorIds w) [] [] [] in
  (if leaderId w =? 0 then [] else [leaderId w])
  ++ List.filter notLeader melee
  ++ List.filter notLeader ranged
  ++ List.filter notLeader healer.

(** The loop of [lowestHpAlly]; [best] is the running [{actorId, hpPct}]. *)
Fixpoint lowestLoop (ids : list Z) (best : option (Z * Q)) : option (Z * Q) :=
  match ids with
  | [] => best
  | id :: ids' =>
      match gameActors w !! id with
      | None => lowestLoop ids' best
      | Some a =>
          if isDead a then lowestLoop ids' best
          else
            let pct := hpPct a in
            match best with
            | None => lowestLoop ids' (Some (id, pct))
            | Some (_, bestPct) =>
                if Qltb pct bestPct then lowestLoop ids' (Some (id, pct))
                else lowestLoop ids' best
            end
      end
  end.

Definition lowestHpAlly : option (Z * Q) := lowestLoop (partyActorIds w) None.

Definition doHealerHeal (targetActorId : Z) : Action := fun c =>
  if (AgentConfig.toolHeal (cfg c) =? 0) && (AgentConfig.toolAttack (cfg c) =? 0)
  then (c, [])
  else
    match char c, actor c, gameActors w !! targetActorId with
    | Some userChar, Some _, Some _ =>
        let targetChar := characterForActorId w targetActorId in
        let d :=
          match targetChar with
          | Some _ => ChronoCompat.distTiles (Some userChar) targetChar
          | None => 999
          end in
        let range := AgentConfig.preferredRange (cfg c) in
        if bool_decide (is_Some targetChar) && (range <? d)
        then (c, ChronoCompat.moveToward (Some userChar) targetChar)
        else
          (c, if 0 <? AgentConfig.toolHeal (cfg c)
              then ChronoCompat.tryUseTool (Some userChar)
                     (AgentConfig.toolHeal (cfg c)) 1
              else [])
    | _, _, _ => (c, [])
    end.

Definition doHealerBuff (targetActorId : Z) : Action := fun c =>
  if AgentConfig.toolBuff (cfg c) =? 0 then (c, [])
  else
    match char c, actor c, gameActors w !! targetActorId with
    | Some userChar, Some _, Some _ =>
        let targetChar := characterForActorId w targetActorId in
        let d :=
          match targetChar with
          | Some _ => ChronoCompat.distTiles (Some userChar) targetChar
          | None => 999
          end in
        let range := AgentConfig.preferredRange (cfg c) in
        if bool_decide (is_Some targetChar) && (range <? d)
        then (c, ChronoCompat.moveToward (Some userChar) targetChar)
        else
          (set_buffedThisCombat ({[targetActorId]} ∪ buffedThisCombat c) c,
           ChronoCompat.tryUseTool (Some userChar)
             (AgentConfig.toolBuff (cfg c)) 1)
    | _, _, _ => (c, [])
    end.

(** The test that opens [actHealer]: combat is on and its start frame is not
    the one this healer has recorded. *)
Definition newCombatWindow (c : t) : bool :=
  Blackboard.combatActive bb
  && negb (combatStartFrameSeen c =? Blackboard.combatStartFrame bb).

Definition initCombatWindow (c : t) : t :=
  if newCombatWindow c
  then set_healerScript ∅ buildHealerBuffQueue (Blackboard.combatStartFrame bb) c
  else c.

(** [lowest && lowestHpPct <= threshold], with the ally to heal. *)
Definition healDue (lowest : option (Z * Q)) (threshold : Z) : option Z :=
  match lowest with
  | Some (id, pct) =>
      if Qle_bool pct (inject_Z threshold) then Some id else None
  | None => None
  end.

(** The buff branch is taken for the first queued id without a mark, unless
    that id is falsy. *)
Definition nextBuff (c : t) : option Z :=
  if Blackboard.combatActive bb
     && (Blackboard.frame bb - Blackboard.combatStartFrame bb
           <=? Config.healerBuffWindowFrames CFG)
  then
    match List.find (fun id => negb (bool_decide (id ∈ buffedThisCombat c)))
                    (buffQueue c) with
    | Some next => if next =? 0 then None else Some next
    | None => None
    end
  else None.

(** The tail of [actHealer]: defend against a close enemy, else reposition. *)
Definition defendOrReposition (userChar : Character) : Action := fun c =>
  match List.find
          (fun e => ChronoCompat.distTiles (Some userChar) (enemyChar e) <=? 2)
          (Blackboard.enemies bb) with
  | Some closeEnemy =>
      (set_state ACT c,
       if 0 <? AgentConfig.toolDefend (cfg c)
       then ChronoCompat.tryUseTool (Some userChar)
              (AgentConfig.toolDefend (cfg c)) 0
       else if 0 <? AgentConfig.toolAttack (cfg c)
       then ChronoCompat.tryUseTool (Some userChar)
              (AgentConfig.toolAttack (cfg c)) 0
       else ChronoCompat.moveAway (Some userChar) (enemyChar closeEnemy))
  | None =>
      (set_state ACQUIRE c,
       if 3 <? ChronoCompat.distTiles (Some userChar) (gamePlayer w)
       then ChronoCompat.moveToward (Some userChar) (gamePlayer w)
       else [])
  end.

Definition actHealer : Action := fun c =>
  match actor c, char c with
  | Some _, Some userChar =>
      let c1 := initCombatWindow c in
      let lowest := lowestHpAlly in
      match healDue lowest (Config.healerCriticalThreshold CFG) with
      | Some id => (doHealerHeal id >> modify (set_state ACT)) c1
      | None =>
          match healDue lowest (Config.healerHealThreshold CFG) with
          | Some id => (doHealerHeal id >> modify (set_state ACT)) c1
          | None =>
              match nextBuff c1 with
              | Some next => (doHealerBuff next >> modify (set_state ACT)) c1
              | None => defendOrReposition userChar c1
              end
          end
      end
  | _, _ => (set_state FOLLOW c, [])
  end.

Definition thinkAct : Action := fun c =>
  let role := role c in
  if String.eqb role Roles.HEALER then actHealer c
  else if String.eqb role Roles.RANGED then actRanged c
  else if String.eqb role Roles.TANK then actTank c
  else actMelee c.

(** *** The per-frame update *)

(** The part of [update] that runs once the countdown has elapsed. The
    [default] branch of the switch is unreachable: [_state] only ever holds
    one of the five names. *)
Definition think (ch : Character) : Action := fun c =>
  let c1 := set_thinkCd (Config.thinkInterval CFG) c in
  let c2 :=
    if AgentConfig.leash (cfg c1)
         <? ChronoCompat.distTiles (Some ch) (gamePlayer w)
    then set_target None (set_state RECOVER c1)
    else c1 in
  let c3 :=
    if negb (Blackboard.combatActive bb)
    then set_healerScript ∅ [] 0 c2
    else c2 in
  match state c3 with
  | FOLLOW => thinkFollow c3
  | ACQUIRE => thinkAcquire c3
  | ACT => thinkAct c3
  | RECOVER => thinkRecover c3
  | HOLD => thinkHold c3
  end.

Definition update : Action := fun c =>
  if negb (Config.enabled CFG) || negb (AgentConfig.enabled (cfg c))
  then (c, [])
  else
    match char c, actor c with
    | Some ch, Some _ =>
        if 0 <? thinkCd c then (set_thinkCd (thinkCd c - 1) c, [])
        else think ch c
    | _, _ => (c, [])
    end.

End WithWorld.

End Controller.

(** ** Manager *)

Module Manager.

Record t := mk {
  bb : Blackboard.t;
  controllers : gmap Z Controller.t;
}.

Definition new : t := mk Blackboard.new ∅.

Section WithWorld.
Variable CFG : Config.t.
Variable w : World.

(** The first loop of [sync], over the party ids. *)
Fixpoint syncLoop (ids : list Z) (cs : gmap Z Controller.t)
    : gmap Z Controller.t :=
  match ids with
  | [] => cs
  | actorId :: ids' =>
      if actorId =? leaderId w then syncLoop ids' cs
      else
        match gameActors w !! actorId with
        | None => syncLoop ids' cs
        | Some actor =>
            let cfg := aiConfig actor in
            if negb (AgentConfig.enabled cfg)
            then syncLoop ids' (delete actorId cs)
            else
              match cs !! actorId with
              | None =>
                  syncLoop ids'
                    (<[actorId :=
                         Controller.new CFG actorId cfg (mathRandom w actorId)]>
                       cs)
              | Some c =>
                  syncLoop ids' (<[actorId := Controller.set_cfg cfg c]> cs)
              end
        end
  end.

(** The second loop of [sync]: drop the controllers of actors that left. *)
Definition dropAbsent (ids : list Z) (cs : gmap Z Controller.t)
    : gmap Z Controller.t :=
  filter (fun kv => kv.1 ∈ ids) cs.

Definition sync (m : t) : t :=
  if negb (Config.enabled CFG) then m
  else
    let ids := partyActorIds w in
    mk (bb m) (dropAbsent ids (syncLoop ids (controllers m))).

(** [update]: blackboard first, then the roster, then every controller.
    The loop walks the Map in insertion order and every adapter call of a
    controller changes the host before the next controller runs: [seen k] is
    the host as the controller of actor [k] finds it when its turn comes.
    The blackboard and the roster are read before any controller runs, from
    the host as the frame began. The intents are kept per controller. *)
Definition updateAgainst (seen : Z -> World) (m : t)
    : t * gmap Z (list Intent) :=
  if negb (Config.enabled CFG) then (m, ∅)
  else
    let bb' := Blackboard.update CFG w (bb m) in
    let m1 := sync (mk bb' (controllers m)) in
    let results :=
      map_imap (fun k c => Some (Controller.update CFG (seen k) bb' c))
        (controllers m1) in
    (mk bb' (fst <$> results), snd <$> results).

(** [update] in a frame in which no controller's calls change what a later
    controller reads (in particular, a frame in which none of them issues an
    intent): every controller finds the host as the frame began. *)
Definition update (m : t) : t * gmap Z (list Intent) :=
  updateAgainst (fun _ => w) m.

(** [Game_Map.prototype.setup]: fresh blackboard, no controllers, one sync. *)
Definition onMapSetup : t := sync new.

End WithWorld.

End Manager.

(** ** Vocabulary of the properties *)

Section Vocabulary.
Import Controller.
Variable CFG : Config.t.
Variable w : World.

(** Distance from a character to the enemy behind a reference. *)
Definition distTo (ch : option Character) (e : Z) : Z :=
  ChronoCompat.distTiles ch (Some (eventObj w e)).

(** [e] is the first entry of [pool] at the least distance from [ch]. *)
Definition firstNearest (ch : option Character) (pool : list Z) (e : Z) : Prop :=
  exists i : nat,
    pool !! i = Some e
    /\ (forall (j : nat) e', pool !! j = Some e' -> distTo ch e <= distTo ch e')
    /\ (forall (j : nat) e', (j < i)%nat -> pool !! j = Some e' ->
          distTo ch e < distTo ch e').

(** The pool a RANGED agent chooses from: the RANGED-tagged enemies when
    there is one, all enemies otherwise. *)
Definition rangedPool (enemies : list Z) : list Z :=
  let ranged :=
    List.filter (fun e => isEnemyRANGED (roaEnemyType (eventObj w e))) enemies in
  match ranged with
  | [] => enemies
  | _ :: _ => ranged
  end.

(** What the loop of [nearestInPool] knows after the entries [seen]. *)
Definition nearestInv (ch : option Character) (seen : list Z)
    (best : option Z) (bestD : Z) : Prop :=
  match best with
  | None => bestD = 9999 /\ forall e, e ∈ seen -> 9999 <= distTo ch e
  | Some b => bestD = distTo ch b /\ bestD < 9999 /\ firstNearest ch seen b
  end.

(** What [nearestInPool] returns: the first nearest entry when it is closer
    than the sentinel, nothing when no entry is. *)
Definition nearestPost (ch : option Character) (pool : list Z)
    (res : option Z) : Prop :=
  match res with
  | None => forall e, e ∈ pool -> 9999 <= distTo ch e
  | Some b => distTo ch b < 9999 /\ firstNearest ch pool b
  end.

(** The role a configured role string resolves to: the upper-cased string
    (MELEE when it is empty) if that is one of the four roles, MELEE
    otherwise. *)
Definition resolvedRole (role : string) : string :=
  let r := roleKey role in
  if Roles.known r then r else Roles.MELEE.

(** The role of party member [id] resolves to one of [roles]. *)
Definition hasRole (roles : list string) (id : Z) : bool :=
  match gameActors w !! id with
  | Some a =>
      existsb (String.eqb (resolvedRole (AgentConfig.role (aiConfig a)))) roles
  | None => false
  end.

(** Party members whose role resolves to one of [roles], in roster order. *)
Definition idsWithRole (roles : list string) : list Z :=
  List.filter (hasRole roles) (partyActorIds w).

(** The queue in the words of the specification, for the healer [self]:
    leader, melee and tank ids, ranged ids, other healer ids, the leader
    removed from the later groups. *)
Definition specBuffQueue (self : Z) : list Z :=
  [leaderId w]
  ++ List.filter (notLeader w) (idsWithRole [Roles.MELEE; Roles.TANK])
  ++ List.filter (notLeader w) (idsWithRole [Roles.RANGED])
  ++ List.filter (notLeader w)
       (List.filter (fun id => negb (id =? self)) (idsWithRole [Roles.HEALER])).

(** The same queue with every healer in the last group, the acting one
    included. *)
Definition allHealersBuffQueue : list Z :=
  [leaderId w]
  ++ List.filter (notLeader w) (idsWithRole [Roles.MELEE; Roles.TANK])
  ++ List.filter (notLeader w) (idsWithRole [Roles.RANGED])
  ++ List.filter (notLeader w) (idsWithRole [Roles.HEALER]).

(** The three tests of the grouping loop, on the raw role key. *)
Definition inHealerGroup (id : Z) : bool :=
  match gameActors w !! id with
  | Some a => String.eqb (roleKey (AgentConfig.role (aiConfig a))) Roles.HEALER
  | None => false
  end.

Definition inMeleeGroup (id : Z) : bool :=
  match gameActors w !! id with
  | Some a =>
      let r := roleKey (AgentConfig.role (aiConfig a)) in
      negb (String.eqb r Roles.HEALER)
      && (String.eqb r Roles.TANK || String.eqb r Roles.MELEE)
  | None => false
  end.

Definition inRangedGroup (id : Z) : bool :=
  match gameActors w !! id with
  | Some a =>
      let r := roleKey (AgentConfig.role (aiConfig a)) in
      negb (String.eqb r Roles.HEALER)
      && negb (String.eqb r Roles.TANK || String.eqb r Roles.MELEE)
  | None => false
  end.

(** Every party member carries one of the four role names. *)
Definition rolesKnown : Prop :=
  forallb
    (fun id =>
       match gameActors w !! id with
       | Some a => Roles.known (roleKey (AgentConfig.role (aiConfig a)))
       | None => true
       end)
    (partyActorIds w) = true.

(** HP percentage of a party member that exists and is alive. *)
Definition livingPct (id : Z) : option Q :=
  match gameActors w !! id with
  | Some a => if isDead a then None else Some (hpPct a)
  | None => None
  end.

(** [id] is the first entry of [ids] that is alive with the least HP
    percentage, [pct]. *)
Definition firstLowest (ids : list Z) (id : Z) (pct : Q) : Prop :=
  exists i : nat,
    ids !! i = Some id
    /\ livingPct id = Some pct
    /\ (forall (j : nat) id' p', ids !! j = Some id' -> livingPct id' = Some p' ->
          (pct <= p')%Q)
    /\ (forall (j : nat) id' p', (j < i)%nat -> ids !! j = Some id' ->
          livingPct id' = Some p' -> (pct < p')%Q).

(** What [lowestHpAlly] returns over [ids]. *)
Definition lowestPost (ids : list Z) (best : option (Z * Q)) : Prop :=
  match best with
  | None => forall id, id ∈ ids -> livingPct id = None
  | Some (b, p) => firstLowest ids b p
  end.

(** The controller is switched on and both of its handles resolve. *)
Definition runs (c : t) : Prop :=
  Config.enabled CFG = true /\ AgentConfig.enabled (cfg c) = true
  /\ is_Some (char w c) /\ is_Some (actor w c).

(** The countdown is within the closed range from 0 to the think interval. *)
Definition cdInRange (c : t) : Prop :=
  0 <= thinkCd c <= Config.thinkInterval CFG.

(** Number of movement intents and of ability intents in a list. *)
Definition movementCount (out : list Intent) : nat :=
  length (List.filter isMovement out).

Definition abilityCount (out : list Intent) : nat :=
  length (List.filter isAbility out).

(** One movement at most, one tool at most, then ACQUIRE; or nothing at all
    and FOLLOW. *)
Definition plainAct (res : t * list Intent) : Prop :=
  (abilityCount res.2 <= 1)%nat /\ (movementCount res.2 <= 1)%nat
  /\ (state res.1 = ACQUIRE \/ state res.1 = FOLLOW /\ res.2 = []).

End Vocabulary.

(** The enemy a role behaviour acts on: the target the controller holds,
    or the one it picks for [role] when it holds none. *)
Definition actsOn (w : World) (bb : Blackboard.t) (c : Controller.t)
    (role : string) (t : Z) : Prop :=
  Controller.target c = Some t
  \/ Controller.target c = None /\ Controller.pickTarget w bb c role = Some t.

(** A RANGED agent kites: its character [ch] resolves and the enemy [t] it
    acts on is tagged MELEE and stands within its keep-away distance. *)
Definition kites (w : World) (bb : Blackboard.t) (c : Controller.t)
    (ch : Character) (t : Z) : Prop :=
  Controller.role c = Roles.RANGED
  /\ Controller.char w c = Some ch
  /\ actsOn w bb c Roles.RANGED t
  /\ roaEnemyType (eventObj w t) = Some EnemyMELEE
  /\ ChronoCompat.distTiles (Some ch) (Some (eventObj w t))
     <= AgentConfig.keepDistance (Controller.cfg c).

(** The enemy list a blackboard update works on: rescanned from the host on
    the frame on which the scan countdown has run out, the cached references
    on every other frame. *)
Definition cachedEnemies (w : World) (bb : Blackboard.t) : list Z :=
  if Blackboard.enemyScanCd bb <=? 0 then enemyCharacters w
  else Blackboard.enemies bb.

(** Some enemy of that list stands within the global aggro radius of the
    leader. *)
Definition enemyNear (CFG : Config.t) (w : World) (bb : Blackboard.t) : Prop :=
  exists e, e ∈ cachedEnemies w bb
    /\ ChronoCompat.distTiles (gamePlayer w) (Some (eventObj w e))
       <= Config.defaultAggro CFG.

(** An enemy is near on every one of the frames [ws] that follow [bb]. *)
Fixpoint nearThroughout (CFG : Config.t) (ws : list World) (bb : Blackboard.t)
    : Prop :=
  match ws with
  | [] => True
  | w :: ws' =>
      enemyNear CFG w bb /\ nearThroughout CFG ws' (Blackboard.update CFG w bb)
  end.

(** ** Sample scenes *)

Definition sampleCFG : Config.t := Config.mk true 8 15 6 70 35 300.

Definition sampleConfig (role : string) : AgentConfig.t :=
  AgentConfig.mk true role "AGGRESSIVE" 6 10 4 4 5 5 9 12 13.

Definition sampleActor (role : string) (pct : Q) : Actor :=
  mkActor false pct (sampleConfig role).

Definition sampleController (id : Z) (role : string) (cd : Z)
    (st : Controller.FsmState) : Controller.t :=
  Controller.mk id (sampleConfig role) cd st None ∅ [] 0.

Definition origin : Character := mkCharacter 0 0 None.

(** A ranged agent (actor 2) at the origin and one RANGED-tagged enemy ten
    thousand tiles away. *)
Definition farScene : World :=
  mkWorld (Some origin) [1; 2]
    {[ 1 := sampleActor "MELEE" 100; 2 := sampleActor "RANGED" 100 ]}
    (fun id => if id =? 2 then Some origin else None)
    [7]
    (fun _ => mkCharacter 10000 0 (Some EnemyRANGED))
    (fun a _ => a)
    (fun _ => Double.mk 0 0)
    (fun a _ => a).

Definition farBoard : Blackboard.t := Blackboard.mk 1 15 [7] false 0.

(** A melee leader (actor 1) and a healer (actor 2) standing together, one
    MELEE enemy three tiles away; combat began on frame 5. *)
Definition duoScene : World :=
  mkWorld (Some origin) [1; 2]
    {[ 1 := sampleActor "MELEE" 100; 2 := sampleActor "HEALER" 100 ]}
    (fun id => if id =? 2 then Some (mkCharacter 0 1 None) else None)
    [7]
    (fun _ => mkCharacter 3 0 (Some EnemyMELEE))
    (fun a _ => a)
    (fun _ => Double.mk 0 0)
    (fun a _ => a).

Definition duoBoard : Blackboard.t := Blackboard.mk 6 14 [7] true 5.

(** A party of four in which actor 2 carries a role name the plugin does
    not know. *)
Definition wizardScene : World :=
  mkWorld (Some origin) [1; 2; 3; 4]
    {[ 1 := sampleActor "MELEE" 100; 2 := sampleActor "WIZARD" 100;
       3 := sampleActor "MELEE" 100; 4 := sampleActor "HEALER" 100 ]}
    (fun id => if id =? 1 then None else Some (mkCharacter 0 id None))
    []
    (fun _ => origin)
    (fun a _ => a)
    (fun _ => Double.mk 0 0)
    (fun a _ => a).

(** A healer (actor 2) with a ranged ally at 30 percent and a tank at 60
    percent, all within reach of each other. *)
Definition triageScene : World :=
  mkWorld (Some origin) [1; 2; 3; 4]
    {[ 1 := sampleActor "MELEE" 100; 2 := sampleActor "HEALER" 100;
       3 := sampleActor "RANGED" 30; 4 := sampleActor "TANK" 60 ]}
    (fun id => if id =? 1 then None else Some (mkCharacter 0 id None))
    [7]
    (fun _ => mkCharacter 3 0 (Some EnemyMELEE))
    (fun a _ => a)
    (fun _ => Double.mk 0 0)
    (fun a _ => a).

(** A ranged agent (actor 2) with keep-away distance 4 and a MELEE enemy at
    manhattan distance 2. *)
Definition kiteScene : World :=
  mkWorld (Some origin) [1; 2]
    {[ 1 := sampleActor "MELEE" 100; 2 := sampleActor "RANGED" 100 ]}
    (fun id => if id =? 2 then Some origin else None)
    [7]
    (fun _ => mkCharacter 2 0 (Some EnemyMELEE))
    (fun a _ => a)
    (fun _ => Double.mk 0 0)
    (fun a _ => mkCharacter (cx a - 1) (cy a) (roaEnemyType a)).

(** The ranged agent of the kite scene, in ACT with the enemy as target. *)
Definition kitingAgent : Controller.t :=
  Controller.set_target (Some 7) (sampleController 2 "RANGED" 0 Controller.ACT).

(** A party of five under the followers binding: the leader is the player
    and the fifth member has no follower slot, so neither has a character. *)
Definition benchScene : World :=
  mkWorld (Some origin) [1; 2; 3; 4; 5]
    {[ 1 := sampleActor "MELEE" 100; 2 := sampleActor "HEALER" 100;
       3 := sampleActor "RANGED" 100; 4 := sampleActor "TANK" 100;
       5 := sampleActor "MELEE" 100 ]}
    (fun id => if (2 <=? id) && (id <=? 4) then Some (mkCharacter 0 id None)
               else None)
    []
    (fun _ => origin)
    (fun a _ => a)
    (fun _ => Double.mk 0 0)
    (fun a _ => a).

(** Actors 1 and 2 after a formation change that made actor 2 the leader,
    under a binding that resolves every party member's character. *)
Definition swapScene : World :=
  mkWorld (Some origin) [2; 1]
    {[ 1 := sampleActor "MELEE" 100; 2 := sampleActor "MELEE" 100 ]}
    (fun id => Some (mkCharacter 0 (id - 2) None))
    []
    (fun _ => origin)
    (fun a _ => a)
    (fun _ => Double.mk 0 0)
    (fun a _ => a).

(** The manager as it stood while actor 1 led: one controller, for actor 2. *)
Definition swapManager : Manager.t :=
  Manager.mk Blackboard.new
    {[ 2 := sampleController 2 "MELEE" 0 Controller.FOLLOW ]}.

(** The scenario of the specification: a leader at the origin and one MELEE
    enemy, first ten tiles away, then six (the global aggro radius). *)
Definition approachScene (enemyX : Z) : World :=
  mkWorld (Some origin) [1; 2]
    {[ 1 := sampleActor "MELEE" 100; 2 := sampleActor "HEALER" 100 ]}
    (fun id => if id =? 2 then Some origin else None)
    [7]
    (fun _ => mkCharacter enemyX 0 (Some EnemyMELEE))
    (fun a _ => a)
    (fun _ => Double.mk 0 0)
    (fun a _ => a).

(** A healer (actor 2) at the origin whose tank ally stands six tiles away,
    beyond its preferred range of four, at 30 percent. *)
Definition woundedScene : World :=
  mkWorld (Some origin) [1; 2; 3]
    {[ 1 := sampleActor "MELEE" 100; 2 := sampleActor "HEALER" 100;
       3 := sampleActor "TANK" 30 ]}
    (fun id => if id =? 2 then Some origin
               else if id =? 3 then Some (mkCharacter 6 0 None)
               else None)
    [7]
    (fun _ => mkCharacter 3 0 (Some EnemyMELEE))
    (fun a _ => a)
    (fun _ => Double.mk 0 0)
    (fun a _ => a).

(** ** Vocabulary of the further properties *)

(** The invariant of a blackboard that started as [Blackboard.new]: the
    frame counter is not negative, the recorded combat start lies between 0
    and the current frame, and it is at least 1 while combat is active. *)
Definition boardInv (bb : Blackboard.t) : Prop :=
  0 <= Blackboard.frame bb
  /\ 0 <= Blackboard.combatStartFrame bb <= Blackboard.frame bb
  /\ (Blackboard.combatActive bb = true -> 1 <= Blackboard.combatStartFrame bb).

(** The three healer fields of a controller. *)
Definition script (c : Controller.t) : gset Z * list Z * Z :=
  (Controller.buffedThisCombat c, Controller.buffQueue c,
   Controller.combatStartFrameSeen c).

(** [x] is the first entry of [queue] that carries no mark in [buffed]. *)
Definition firstUnmarked (buffed : gset Z) (queue : list Z) (x : Z) : Prop :=
  exists i : nat,
    queue !! i = Some x /\ (x ∉ buffed)
    /\ forall (j : nat) y, (j < i)%nat -> queue !! j = Some y -> y ∈ buffed.

(** The healer of the approach scene, created and never yet in combat. *)
Definition freshHealer : Controller.t :=
  Controller.mk 2
    (AgentConfig.mk true "HEALER" "AGGRESSIVE" 6 10 4 4 5 5 9 12 13)
    0 Controller.ACT None ∅ [] 0.

(** A healer (actor 2) at the origin with a tank ally six tiles away, beyond
    its preferred range of four, and a ranged ally two tiles away. *)
Definition spreadScene : World :=
  mkWorld (Some (mkCharacter 0 0 None)) [1; 2; 3; 4]
    {[ 1 := mkActor false 100
              (AgentConfig.mk false "MELEE" "AGGRESSIVE" 6 10 4 4 5 5 0 0 0);
       2 := mkActor false 100
              (AgentConfig.mk true "HEALER" "AGGRESSIVE" 6 10 4 4 5 5 9 12 13);
       3 := mkActor false 50
              (AgentConfig.mk true "TANK" "AGGRESSIVE" 6 10 4 4 5 5 0 0 0);
       4 := mkActor false 90
              (AgentConfig.mk true "RANGED" "AGGRESSIVE" 6 10 4 4 5 5 0 0 0) ]}
    (fun id => if id =? 2 then Some (mkCharacter 0 0 None)
               else if id =? 3 then Some (mkCharacter 6 0 None)
               else if id =? 4 then Some (mkCharacter 0 2 None)
               else None)
    []
    (fun _ => mkCharacter 0 0 None)
    (fun a _ => a)
    (fun _ => Double.mk 0 0)
    (fun a _ => a).

(** The leash test of [update]: the agent is farther from the player than
    its leash radius. *)
Definition leashed (w : World) (c : Controller.t) (ch : Character) : bool :=
  AgentConfig.leash (Controller.cfg c)
    <? ChronoCompat.distTiles (Some ch) (gamePlayer w).

(** The states a think may leave the controller in, by the state it found. *)
Definition nextStates (s : Controller.FsmState) : list Controller.FsmState :=
  match s with
  | Controller.FOLLOW => [Controller.FOLLOW; Controller.HOLD; Controller.ACQUIRE]
  | Controller.ACQUIRE => [Controller.ACT; Controller.HOLD; Controller.FOLLOW]
  | Controller.ACT => [Controller.ACQUIRE; Controller.FOLLOW; Controller.ACT]
  | Controller.RECOVER => [Controller.RECOVER; Controller.HOLD; Controller.FOLLOW]
  | Controller.HOLD => [Controller.HOLD; Controller.ACT]
  end.

(** One controller over successive frames, each with its world and the
    blackboard of that frame; the intents are concatenated in order. *)
Fixpoint updatesOver (CFG : Config.t) (fs : list (World * Blackboard.t))
    (c : Controller.t) : Controller.t * list Intent :=
  match fs with
  | [] => (c, [])
  | (w, bb) :: fs' =>
      let '(c1, out1) := Controller.update CFG w bb c in
      let '(c2, out2) := updatesOver CFG fs' c1 in
      (c2, out1 ++ out2)
  end.

(** A melee agent (actor 2) twelve tiles from the player, beyond its leash
    of ten; the host moves a character one tile to the left per move. *)
Definition strayScene : World :=
  mkWorld (Some (mkCharacter 0 0 None)) [1; 2]
    {[ 1 := sampleActor "MELEE" 100; 2 := sampleActor "MELEE" 100 ]}
    (fun id => if id =? 2 then Some (mkCharacter 12 0 None) else None)
    [7]
    (fun _ => mkCharacter 13 0 (Some EnemyMELEE))
    (fun a _ => mkCharacter (cx a - 1) (cy a) (roaEnemyType a))
    (fun _ => Double.mk 0 0)
    (fun a _ => a).

(** The character an intent asks the host to move or to act. *)
Definition intentBy (i : Intent) : Character :=
  match i with
  | MoveToward ch _ => ch
  | MoveAway ch _ => ch
  | MoveStraight ch _ => ch
  | UseTool ch _ _ => ch
  end.

(** A tool intent names one of the agent's four configured tools, with the
    command type the plugin passes for it. *)
Definition configuredTool (cfg : AgentConfig.t) (i : Intent) : Prop :=
  match i with
  | UseTool _ id cmd =>
      (id = AgentConfig.toolAttack cfg /\ cmd = 0 /\ 0 < id)
      \/ (id = AgentConfig.toolDefend cfg /\ cmd = 0 /\ 0 < id)
      \/ (id = AgentConfig.toolHeal cfg /\ cmd = 1 /\ 0 < id)
      \/ (id = AgentConfig.toolBuff cfg /\ cmd = 1 /\ id <> 0)
  | _ => True
  end.

Definition ownIntent (cfg : AgentConfig.t) (ch : Character) (i : Intent)
    : Prop :=
  intentBy i = ch /\ configuredTool cfg i.

Section TankVocabulary.
Variable w : World.

(** Distance from [ch] to the character of party member [id], when that
    character resolves. *)
Definition allyDist (ch : option Character) (id : Z) : option Z :=
  match characterForActorId w id with
  | Some pc => Some (ChronoCompat.distTiles ch (Some pc))
  | None => None
  end.

(** [pc] is the character of the first member of [ids] at the least
    distance from [ch] among the members whose character resolves. *)
Definition firstNearestAlly (ch : option Character) (ids : list Z)
    (pc : Character) : Prop :=
  exists (i : nat) (id : Z),
    ids !! i = Some id
    /\ characterForActorId w id = Some pc
    /\ (forall (j : nat) id' d', ids !! j = Some id' ->
          allyDist ch id' = Some d' ->
          ChronoCompat.distTiles ch (Some pc) <= d')
    /\ (forall (j : nat) id' d', (j < i)%nat -> ids !! j = Some id' ->
          allyDist ch id' = Some d' ->
          ChronoCompat.distTiles ch (Some pc) < d').

(** What the loop over the protected allies knows after the ids [seen]. *)
Definition protectedInv (ch : option Character) (seen : list Z)
    (best : option Character) (bestD : Z) : Prop :=
  match best with
  | None =>
      bestD = 9999
      /\ forall id d', id ∈ seen -> allyDist ch id = Some d' -> 9999 <= d'
  | Some pc =>
      bestD = ChronoCompat.distTiles ch (Some pc) /\ bestD < 9999
      /\ firstNearestAlly ch seen pc
  end.

(** What that loop returns over [ids]. *)
Definition protectedPost (ch : option Character) (ids : list Z)
    (res : option Character) : Prop :=
  match res with
  | None => forall id d', id ∈ ids -> allyDist ch id = Some d' -> 9999 <= d'
  | Some pc =>
      ChronoCompat.distTiles ch (Some pc) < 9999 /\ firstNearestAlly ch ids pc
  end.

(** [e] is the first entry of [enemies] within [radius] of [pc]. *)
Definition firstWithin (pc : Character) (radius : Z) (enemies : list Z)
    (e : Z) : Prop :=
  exists i : nat,
    enemies !! i = Some e
    /\ ChronoCompat.distTiles (Some pc) (Some (eventObj w e)) <= radius
    /\ forall (j : nat) e', (j < i)%nat -> enemies !! j = Some e' ->
         radius < ChronoCompat.distTiles (Some pc) (Some (eventObj w e')).

End TankVocabulary.

(** A tank (actor 3) at the origin, a healer (actor 2) eight tiles to the
    right and a ranged ally (actor 4) three tiles up; enemy 7 stands next to
    the tank, enemy 8 next to the ranged ally, enemy 9 next to the healer. *)
Definition guardScene : World :=
  mkWorld (Some (mkCharacter 0 1 None)) [1; 2; 3; 4]
    {[ 1 := sampleActor "MELEE" 100; 2 := sampleActor "HEALER" 100;
       3 := sampleActor "TANK" 100; 4 := sampleActor "RANGED" 100 ]}
    (fun id => if id =? 2 then Some (mkCharacter 8 0 None)
               else if id =? 3 then Some (mkCharacter 0 0 None)
               else if id =? 4 then Some (mkCharacter 0 3 None)
               else None)
    [7; 8; 9]
    (fun e => if e =? 7 then mkCharacter 1 0 (Some EnemyMELEE)
              else if e =? 8 then mkCharacter 0 12 (Some EnemyMELEE)
              else mkCharacter 9 0 (Some EnemyRANGED))
    (fun a _ => a)
    (fun _ => Double.mk 0 0)
    (fun a _ => a).

Definition guardBoard : Blackboard.t := Blackboard.mk 6 14 [7; 8; 9] true 5.

(** The same scene with enemy 8 four tiles above the ranged ally, inside the
    tank's protect radius of five. *)
Definition threatScene : World :=
  mkWorld (Some (mkCharacter 0 1 None)) [1; 2; 3; 4]
    {[ 1 := sampleActor "MELEE" 100; 2 := sampleActor "HEALER" 100;
       3 := sampleActor "TANK" 100; 4 := sampleActor "RANGED" 100 ]}
    (fun id => if id =? 2 then Some (mkCharacter 8 0 None)
               else if id =? 3 then Some (mkCharacter 0 0 None)
               else if id =? 4 then Some (mkCharacter 0 3 None)
               else None)
    [7; 8; 9]
    (fun e => if e =? 7 then mkCharacter (-6) 0 (Some EnemyMELEE)
              else if e =? 8 then mkCharacter 0 7 (Some EnemyMELEE)
              else mkCharacter 9 0 (Some EnemyRANGED))
    (fun a _ => a)
    (fun _ => Double.mk 0 0)
    (fun a _ => a).

(** ** Character bindings *)

(** [ChronoCompat.characterForActorId] of the plugin. In the followers mode
    the party member at roster position [idx >= 1] is bound to follower
    [idx - 1]; [members] are the actor ids of [$gameParty.members()] and
    [followers] the array behind [$gamePlayer.followers().follower(i)]. In
    any other mode nothing is bound. *)
Module FollowersBinding.

(** [members.findIndex(a => a.actorId() === actorId)] *)
Fixpoint findIndex (actorId : Z) (members : list Z) : option nat :=
  match members with
  | [] => None
  | a :: members' =>
      if a =? actorId then Some 0%nat
      else option_map S (findIndex actorId members')
  end.

Definition characterForActorId (partyBodyMode : string) (members : list Z)
    (followers : list Character) (actorId : Z) : option Character :=
  if String.eqb partyBodyMode "followers" then
    match findIndex actorId members with
    | None => None
    | Some 0%nat => None
    | Some (S i) => followers !! i
    end
  else None.

End FollowersBinding.

(** [ChronoCompat.characterForActorId] of the compatibility bridge: the first
    entry of [$gameMap.players()] whose battler carries the actor id. An
    entry is [None] when the character or its battler is missing; the
    battler's [_actorId] is [None] when it is not a number. [players] is
    [None] when the map does not offer [players()]. *)
Module PlayersBinding.

Definition matches (actorId : Z) (entry : option (Character * option Z))
    : bool :=
  match entry with
  | Some (_, Some id) => id =? actorId
  | _ => false
  end.

Fixpoint scan (actorId : Z) (players : list (option (Character * option Z)))
    : option Character :=
  match players with
  | [] => None
  | entry :: players' =>
      match entry with
      | Some (character, Some id) =>
          if id =? actorId then Some character else scan actorId players'
      | _ => scan actorId players'
      end
  end.

Definition characterForActorId
    (players : option (list (option (Character * option Z))))
    (actorId : Z) : option Character :=
  match players with
  | None => None
  | Some ps => scan actorId ps
  end.

End PlayersBinding.

Section SyncVocabulary.
Variable CFG : Config.t.
Variable w : World.

(** What a roster synchronisation does to the controller entry of party
    member [k]: the leader's and an actor-less member's entry is left alone,
    a disabled member's entry is removed, an enabled member's controller gets
    the current configuration, and is created when missing. *)
Definition syncEntry (k : Z) (o : option Controller.t) : option Controller.t :=
  if k =? leaderId w then o
  else
    match gameActors w !! k with
    | None => o
    | Some a =>
        if AgentConfig.enabled (aiConfig a) then
          Some match o with
               | Some c => Controller.set_cfg (aiConfig a) c
               | None => Controller.new CFG k (aiConfig a) (mathRandom w k)
               end
        else None
    end.

End SyncVocabulary.

(** The swap scene under the followers binding of the plugin itself. *)
Definition followScene : World :=
  mkWorld (Some origin) [2; 1]
    {[ 1 := sampleActor "MELEE" 100; 2 := sampleActor "MELEE" 100 ]}
    (FollowersBinding.characterForActorId "followers" [2; 1]
       [mkCharacter 0 1 None; mkCharacter 0 2 None; mkCharacter 0 3 None])
    []
    (fun _ => origin)
    (fun a _ => a)
    (fun _ => Double.mk 0 0)
    (fun a _ => a).

(** * Properties *)

(** ** Properties of the blackboard *)

Section BlackboardFacts.
Import Blackboard.
Variable CFG : Config.t.

Lemma update_frame w bb : frame (update CFG w bb) = frame bb + 1.
Proof. unfold update. repeat case_match; reflexivity. Qed.

Lemma update_enemies w bb :
  enemies (update CFG w bb) =
  if enemyScanCd bb <=? 0 then enemyCharacters w else enemies bb.
Proof. unfold update. repeat case_match; reflexivity. Qed.

Lemma update_combatActive w bb :
  combatActive (update CFG w bb) =
  existsb (inAggro CFG w) (enemies (update CFG w bb)).
Proof.
  rewrite update_enemies. unfold update.
  destruct (existsb _ _) eqn:Hact, (combatActive bb) eqn:Hpre; simpl; auto.
Qed.

Lemma update_combatStartFrame w bb :
  combatStartFrame (update CFG w bb) =
  if negb (combatActive bb) && combatActive (update CFG w bb)
  then frame bb + 1 else combatStartFrame bb.
Proof.
  unfold update.
  destruct (existsb _ _) eqn:Hact, (combatActive bb) eqn:Hpre; simpl; auto.
Qed.

Lemma run_keeps_start ws : forall bb,
  combatActive bb = true -> staysActive CFG ws bb ->
  combatStartFrame (run CFG ws bb) = combatStartFrame bb.
Proof.
  induction ws as [|w ws IH]; intros bb Hact Hstay; simpl in *; [reflexivity|].
  destruct Hstay as [Hnow Hrest].
  rewrite (IH _ Hnow Hrest), update_combatStartFrame, Hact. reflexivity.
Qed.

Lemma update_active_iff w bb :
  combatActive (update CFG w bb) = true <-> enemyNear CFG w bb.
Proof.
  rewrite update_combatActive, update_enemies. unfold enemyNear, cachedEnemies.
  split.
  - intros H. apply existsb_exists in H as (e & Hin & He).
    exists e. split; [by apply list_elem_of_In|].
    unfold inAggro in He. lia.
  - intros (e & Hin & He). apply existsb_exists.
    exists e. split; [by apply list_elem_of_In|].
    unfold inAggro. lia.
Qed.

Lemma nearThroughout_staysActive ws : forall bb,
  nearThroughout CFG ws bb -> staysActive CFG ws bb.
Proof.
  induction ws as [|w ws IH]; intros bb H; simpl in *; [exact I|].
  destruct H as [Hnow Hrest]. split; [by apply update_active_iff|auto].
Qed.

Lemma run_stays_active ws : forall bb,
  combatActive bb = true -> staysActive CFG ws bb ->
  combatActive (run CFG ws bb) = true.
Proof.
  induction ws as [|w ws IH]; intros bb Hact Hstay; simpl in *; [exact Hact|].
  destruct Hstay as [Hnow Hrest]. auto.
Qed.

End BlackboardFacts.

(** C1. A blackboard update advances the frame counter by one and works on
    the cached enemy list (rescanned when the scan countdown has run out).
    After it the combat flag is true exactly when some enemy of that list is
    within the global aggro radius of the leader and false exactly when none
    is; the combat start frame becomes the current frame on the false-to-true
    edge and is left alone by every other update; through all later frames on
    which an enemy stays near, combat stays active and the start frame keeps
    the value. *)
Theorem C1_combat_flag_and_start_frame (CFG : Config.t) (w : World) (bb : Blackboard.t) :
  let bb' := Blackboard.update CFG w bb in
  Blackboard.frame bb' = Blackboard.frame bb + 1
  /\ Blackboard.enemies bb' = cachedEnemies w bb
  /\ (Blackboard.combatActive bb' = true <-> enemyNear CFG w bb)
  /\ (Blackboard.combatActive bb' = false <->
      forall e, e ∈ cachedEnemies w bb ->
        Config.defaultAggro CFG
        < ChronoCompat.distTiles (gamePlayer w) (Some (eventObj w e)))
  /\ (Blackboard.combatActive bb = false -> enemyNear CFG w bb ->
      Blackboard.combatStartFrame bb' = Blackboard.frame bb + 1)
  /\ (Blackboard.combatActive bb = true \/ ~ enemyNear CFG w bb ->
      Blackboard.combatStartFrame bb' = Blackboard.combatStartFrame bb)
  /\ (forall ws, enemyNear CFG w bb -> nearThroughout CFG ws bb' ->
      Blackboard.combatActive (Blackboard.run CFG ws bb') = true
      /\ Blackboard.combatStartFrame (Blackboard.run CFG ws bb') =
         Blackboard.combatStartFrame bb').
Proof.
  intros bb'. subst bb'.
  pose proof (update_active_iff CFG w bb) as Hiff.
  split; [apply update_frame|].
  split; [apply update_enemies|].
  split; [exact Hiff|].
  split; [|split; [|split]].
  - split.
    + intros Hoff e Hin.
      destruct (Z.ltb_spec (Config.defaultAggro CFG)
        (ChronoCompat.distTiles (gamePlayer w) (Some (eventObj w e))))
        as [|Hle]; [done|].
      assert (Blackboard.combatActive (Blackboard.update CFG w bb) = true)
        as Hon; [|congruence].
      apply Hiff. exists e. split; [exact Hin|lia].
    + intros Hfar. apply not_true_is_false. intros Hon.
      apply Hiff in Hon as (e & Hin & He). apply Hfar in Hin. lia.
  - intros Hpre Hnear. apply Hiff in Hnear.
    rewrite update_combatStartFrame, Hpre, Hnear. reflexivity.
  - intros [Hpre|Hfar]; rewrite update_combatStartFrame.
    + rewrite Hpre. reflexivity.
    + destruct (Blackboard.combatActive (Blackboard.update CFG w bb)) eqn:Hon.
      * exfalso. apply Hfar, Hiff. reflexivity.
      * rewrite andb_false_r. reflexivity.
  - intros ws Hnear Hstay. apply Hiff in Hnear.
    apply nearThroughout_staysActive in Hstay.
    split; [by apply run_stays_active|by apply run_keeps_start].
Qed.

(** The scenario of the specification, frame by frame: no combat while the
    enemy is ten tiles away; on the frame it stands within the radius the flag
    turns true and the start frame is that frame; one frame later the start
    frame is unchanged. The enemy list was scanned once, on the first frame:
    the later frames read the enemy's current position through the cached
    reference. *)
Example blackboard_approach_scenario :
  let b1 := Blackboard.update sampleCFG (approachScene 10) Blackboard.new in
  let b2 := Blackboard.update sampleCFG (approachScene 6) b1 in
  let b3 := Blackboard.update sampleCFG (approachScene 6) b2 in
  b1 = Blackboard.mk 1 15 [7] false 0
  /\ b2 = Blackboard.mk 2 14 [7] true 2
  /\ b3 = Blackboard.mk 3 13 [7] true 2.
Proof. repeat split; vm_compute; reflexivity. Qed.

(** ** Properties of target selection *)

Section TargetFacts.
Import Controller.
Variable w : World.

Lemma firstNearest_snoc_keep ch seen b e :
  firstNearest w ch seen b -> distTo w ch b <= distTo w ch e ->
  firstNearest w ch (seen ++ [e]) b.
Proof.
  intros (i & Hi & Hall & Hbefore) Hle.
  exists i. split; [|split].
  - apply lookup_app_l_Some. exact Hi.
  - intros j e' Hj. apply lookup_app_Some in Hj as [Hj|[_ Hj]].
    + eauto.
    + apply list_lookup_singleton_Some in Hj as [_ <-]. exact Hle.
  - intros j e' Hlt Hj. apply lookup_app_Some in Hj as [Hj|[Hge _]].
    + eauto.
    + apply lookup_lt_Some in Hi. lia.
Qed.

Lemma firstNearest_snoc_new ch seen e :
  (forall e', e' ∈ seen -> distTo w ch e < distTo w ch e') ->
  firstNearest w ch (seen ++ [e]) e.
Proof.
  intros Hall. exists (length seen). split; [|split].
  - rewrite lookup_app_r by lia. by rewrite Nat.sub_diag.
  - intros j e' Hj. apply lookup_app_Some in Hj as [Hj|[_ Hj]].
    + apply list_elem_of_lookup_2, Hall in Hj. lia.
    + apply list_lookup_singleton_Some in Hj as [_ <-]. lia.
  - intros j e' Hlt Hj. rewrite lookup_app_l in Hj by exact Hlt.
    apply list_elem_of_lookup_2, Hall in Hj. exact Hj.
Qed.

Lemma firstNearest_least ch seen b e :
  firstNearest w ch seen b -> e ∈ seen -> distTo w ch b <= distTo w ch e.
Proof.
  intros (i & _ & Hall & _) Hin.
  apply list_elem_of_lookup in Hin as [j Hj]. eauto.
Qed.

Lemma nearestLoop_spec ch pool : forall seen best bestD,
  nearestInv w ch seen best bestD ->
  nearestPost w ch (seen ++ pool) (nearestLoop w ch pool best bestD).
Proof.
  induction pool as [|e pool IH]; intros seen best bestD Hinv; simpl.
  - rewrite app_nil_r. destruct best as [b|]; simpl in *.
    + destruct Hinv as (-> & Hb & Hfirst). by split.
    + tauto.
  - replace (seen ++ e :: pool) with ((seen ++ [e]) ++ pool)
      by (rewrite <- app_assoc; reflexivity).
    fold (distTo w ch e). unfold enemyChar.
    change (ChronoCompat.distTiles ch (Some (eventObj w e))) with (distTo w ch e).
    destruct (Z.ltb_spec (distTo w ch e) bestD) as [Hlt|Hge]; apply IH.
    + simpl. split; [reflexivity|]. destruct best as [b|]; simpl in Hinv.
      * destruct Hinv as (-> & Hb & Hfirst). split; [lia|].
        apply firstNearest_snoc_new. intros e' Hin.
        pose proof (firstNearest_least _ _ _ _ Hfirst Hin). lia.
      * destruct Hinv as (-> & Hall). split; [lia|].
        apply firstNearest_snoc_new. intros e' Hin.
        specialize (Hall _ Hin). lia.
    + destruct best as [b|]; simpl in *.
      * destruct Hinv as (-> & Hb & Hfirst). repeat split; [lia|].
        by apply firstNearest_snoc_keep.
      * destruct Hinv as (-> & Hall). split; [reflexivity|].
        intros e' Hin. apply elem_of_app in Hin as [Hin|Hin]; [eauto|].
        apply list_elem_of_singleton in Hin as ->. lia.
Qed.

Lemma nearestInPool_spec ch pool :
  nearestPost w ch pool (nearestInPool w ch pool).
Proof.
  apply (nearestLoop_spec ch pool [] None 9999).
  simpl. split; [reflexivity|]. intros e Hin. inversion Hin.
Qed.

Lemma pickTarget_ranged_pool bb c :
  pickTarget w bb c Roles.RANGED =
  match Blackboard.enemies bb with
  | [] => None
  | _ :: _ => nearestInPool w (char w c) (rangedPool w (Blackboard.enemies bb))
  end.
Proof.
  unfold pickTarget, rangedPool. destruct (Blackboard.enemies bb); [reflexivity|].
  simpl String.eqb. cbv iota. by destruct (List.filter _ _).
Qed.

End TargetFacts.

(** C2 (as amended). For a RANGED agent the selector returns none on the
    empty enemy list; otherwise it looks at the RANGED-tagged enemies when
    there is one and at all enemies when there is none, and returns the first
    entry in scan order at the least manhattan distance, provided that
    distance is below the 9999 sentinel; when every enemy of that pool is at
    distance 9999 or more it returns none. *)
Theorem C2_ranged_target_selection (w : World) (bb : Blackboard.t)
    (c : Controller.t) :
  let ch := Controller.char w c in
  let enemies := Blackboard.enemies bb in
  let pool := rangedPool w enemies in
  (enemies = [] -> Controller.pickTarget w bb c Roles.RANGED = None)
  /\ (forall e, e ∈ pool <->
        e ∈ enemies /\
        (roaEnemyType (eventObj w e) = Some EnemyRANGED \/
         forall e', e' ∈ enemies ->
           roaEnemyType (eventObj w e') <> Some EnemyRANGED))
  /\ match Controller.pickTarget w bb c Roles.RANGED with
     | Some e => distTo w ch e < 9999 /\ firstNearest w ch pool e
     | None => forall e, e ∈ pool -> 9999 <= distTo w ch e
     end.
Proof.
  intros ch enemies pool. subst ch enemies pool.
  assert (Htag : forall e,
    isEnemyRANGED (roaEnemyType (eventObj w e)) = true <->
    roaEnemyType (eventObj w e) = Some EnemyRANGED).
  { intros e. destruct (roaEnemyType (eventObj w e)) as [[]|]; simpl;
      split; congruence. }
  split; [|split].
  - intros Hnil. rewrite pickTarget_ranged_pool, Hnil. reflexivity.
  - intros e. unfold rangedPool.
    destruct (List.filter _ _) as [|r rs] eqn:Hf.
    + split.
      * intros Hin. split; [exact Hin|]. right. intros e' Hin' Hr.
        assert (In e' (List.filter
          (fun e => isEnemyRANGED (roaEnemyType (eventObj w e)))
          (Blackboard.enemies bb))) as Hbad.
        { apply filter_In. split; [by apply list_elem_of_In|by apply Htag]. }
        rewrite Hf in Hbad. destruct Hbad.
      * tauto.
    + rewrite <- Hf. rewrite list_elem_of_In, filter_In, <- list_elem_of_In, Htag.
      split; [tauto|]. intros [Hin [Hr|Hnone]]; [tauto|].
      assert (In r (List.filter
        (fun e => isEnemyRANGED (roaEnemyType (eventObj w e)))
        (Blackboard.enemies bb))) as Hr by (rewrite Hf; left; reflexivity).
      apply filter_In in Hr as [Hr1 Hr2].
      apply list_elem_of_In, Hnone in Hr1. apply Htag in Hr2. contradiction.
  - rewrite pickTarget_ranged_pool.
    destruct (Blackboard.enemies bb) as [|e0 es] eqn:Hen.
    + intros e Hin. inversion Hin.
    + apply nearestInPool_spec.
Qed.

(** C2, the claim as written, fails: with a single RANGED-tagged enemy ten
    thousand tiles from the agent the enemy list is not empty, yet the selector
    returns none. *)
Lemma C2_far_enemy_is_not_selected :
  Blackboard.enemies farBoard = [7]
  /\ distTo farScene (Controller.char farScene (sampleController 2 "RANGED" 0 Controller.ACQUIRE)) 7 = 10000
  /\ Controller.pickTarget farScene farBoard
       (sampleController 2 "RANGED" 0 Controller.ACQUIRE) Roles.RANGED = None
  /\ ~ (forall w bb c, Blackboard.enemies bb <> [] ->
          exists e, Controller.pickTarget w bb c Roles.RANGED = Some e
                    /\ firstNearest w (Controller.char w c)
                         (rangedPool w (Blackboard.enemies bb)) e).
Proof.
  assert (Hnone : Controller.pickTarget farScene farBoard
       (sampleController 2 "RANGED" 0 Controller.ACQUIRE) Roles.RANGED = None)
    by (vm_compute; reflexivity).
  split; [reflexivity|]. split; [vm_compute; reflexivity|].
  split; [exact Hnone|]. intros Hclaim.
  destruct (Hclaim farScene farBoard
    (sampleController 2 "RANGED" 0 Controller.ACQUIRE)) as (e & He & _).
  - discriminate.
  - rewrite Hnone in He. discriminate.
Qed.

(** ** Properties of the healer script *)

Lemma role_resolved c :
  Controller.role c = resolvedRole (AgentConfig.role (Controller.cfg c)).
Proof. reflexivity. Qed.

Lemma known_cases r :
  Roles.known r = true ->
  r = Roles.RANGED \/ r = Roles.MELEE \/ r = Roles.TANK \/ r = Roles.HEALER.
Proof.
  unfold Roles.known. rewrite !orb_true_iff, !String.eqb_eq. tauto.
Qed.

Lemma resolvedRole_known role : Roles.known (resolvedRole role) = true.
Proof.
  unfold resolvedRole. destruct (Roles.known (roleKey role)) eqn:H; [exact H|].
  reflexivity.
Qed.

Section QueueFacts.
Import Controller.
Variable w : World.

Lemma groupLoop_filter ids : forall melee ranged healer,
  groupLoop w ids melee ranged healer =
  (melee ++ List.filter (inMeleeGroup w) ids,
   ranged ++ List.filter (inRangedGroup w) ids,
   healer ++ List.filter (inHealerGroup w) ids).
Proof.
  induction ids as [|id ids IH]; intros melee ranged healer; simpl.
  - by rewrite !app_nil_r.
  - unfold inMeleeGroup, inRangedGroup, inHealerGroup.
    destruct (gameActors w !! id) as [a|]; [|apply IH].
    destruct (String.eqb (roleKey _) Roles.HEALER); simpl.
    + rewrite IH, <- app_assoc. reflexivity.
    + destruct (String.eqb _ Roles.TANK || String.eqb _ Roles.MELEE); simpl;
        rewrite IH, <- app_assoc; reflexivity.
Qed.

Lemma buildHealerBuffQueue_filter :
  buildHealerBuffQueue w =
  (if leaderId w =? 0 then [] else [leaderId w])
  ++ List.filter (notLeader w) (List.filter (inMeleeGroup w) (partyActorIds w))
  ++ List.filter (notLeader w) (List.filter (inRangedGroup w) (partyActorIds w))
  ++ List.filter (notLeader w) (List.filter (inHealerGroup w) (partyActorIds w)).
Proof. unfold buildHealerBuffQueue. rewrite groupLoop_filter. reflexivity. Qed.

Lemma groups_agree_when_known :
  rolesKnown w ->
  List.filter (inMeleeGroup w) (partyActorIds w) = idsWithRole w [Roles.MELEE; Roles.TANK]
  /\ List.filter (inRangedGroup w) (partyActorIds w) = idsWithRole w [Roles.RANGED]
  /\ List.filter (inHealerGroup w) (partyActorIds w) = idsWithRole w [Roles.HEALER].
Proof.
  intros Hknown. unfold rolesKnown in Hknown.
  rewrite forallb_forall in Hknown. unfold idsWithRole.
  repeat split; apply filter_ext_in; intros id Hin;
    specialize (Hknown id Hin);
    unfold inMeleeGroup, inRangedGroup, inHealerGroup, hasRole, resolvedRole;
    destruct (gameActors w !! id) as [a|] eqn:Ha; try reflexivity;
    rewrite Hknown;
    apply known_cases in Hknown as [->|[->|[->| ->]]]; reflexivity.
Qed.

(** The tank's test for a protected ally agrees with role resolution. *)
Lemma isProtected_resolved id :
  isProtected w id = hasRole w [Roles.RANGED; Roles.HEALER] id.
Proof.
  unfold isProtected, hasRole, resolvedRole.
  destruct (gameActors w !! id) as [a|]; [|reflexivity].
  cbv zeta. set (r := roleKey (AgentConfig.role (aiConfig a))).
  simpl existsb. rewrite orb_false_r.
  destruct (String.eqb_spec r Roles.RANGED) as [->|Hr]; [reflexivity|].
  destruct (String.eqb_spec r Roles.HEALER) as [->|Hh]; [reflexivity|].
  destruct (Roles.known r) eqn:Hk.
  - apply String.eqb_neq in Hr, Hh. by rewrite Hr, Hh.
  - reflexivity.
Qed.

End QueueFacts.

Section HealerFacts.
Import Controller.
Variable CFG : Config.t.
Variable w : World.
Variable bb : Blackboard.t.

Lemma doHealerHeal_controller tid c : (doHealerHeal w tid c).1 = c.
Proof. unfold doHealerHeal. repeat case_match; reflexivity. Qed.

(** A heal issues nothing, one move toward the ally, or the heal tool. *)
Lemma doHealerHeal_intents tid c :
  (doHealerHeal w tid c).2 = []
  \/ (exists uc tc, (doHealerHeal w tid c).2 = [MoveToward uc tc])
  \/ (exists uc, (doHealerHeal w tid c).2 =
        [UseTool uc (AgentConfig.toolHeal (cfg c)) 1]).
Proof.
  unfold doHealerHeal, ChronoCompat.moveToward, ChronoCompat.tryUseTool.
  repeat case_match; simpl; eauto.
Qed.

Lemma doHealerBuff_frame tid c :
  let c' := (doHealerBuff w tid c).1 in
  buffQueue c' = buffQueue c
  /\ combatStartFrameSeen c' = combatStartFrameSeen c
  /\ thinkCd c' = thinkCd c
  /\ state c' = state c
  /\ (buffedThisCombat c' = buffedThisCombat c
      \/ buffedThisCombat c' = {[tid]} ∪ buffedThisCombat c).
Proof.
  unfold doHealerBuff. repeat case_match; simpl; auto 6.
Qed.

Lemma doHealerBuff_intents tid c :
  (doHealerBuff w tid c).2 = []
  \/ (exists uc tc, (doHealerBuff w tid c).2 = [MoveToward uc tc])
  \/ (exists uc, (doHealerBuff w tid c).2 =
        [UseTool uc (AgentConfig.toolBuff (cfg c)) 1]).
Proof.
  unfold doHealerBuff, ChronoCompat.moveToward, ChronoCompat.tryUseTool.
  repeat case_match; simpl; eauto.
Qed.

Lemma defendOrReposition_frame uc c :
  let c' := (defendOrReposition w bb uc c).1 in
  buffQueue c' = buffQueue c
  /\ combatStartFrameSeen c' = combatStartFrameSeen c
  /\ thinkCd c' = thinkCd c
  /\ buffedThisCombat c' = buffedThisCombat c.
Proof. unfold defendOrReposition. repeat case_match; simpl; auto. Qed.

Lemma defendOrReposition_intents uc c :
  (defendOrReposition w bb uc c).2 = []
  \/ exists i, (defendOrReposition w bb uc c).2 = [i].
Proof.
  unfold defendOrReposition, ChronoCompat.moveToward, ChronoCompat.moveAway,
    ChronoCompat.tryUseTool, enemyChar.
  repeat case_match; simpl; eauto.
Qed.

Lemma andThen_setState (a : Action) st c :
  (a >> modify (set_state st)) c = (set_state st (a c).1, (a c).2).
Proof.
  unfold andThen, modify. destruct (a c) as [c1 out]. simpl.
  by rewrite app_nil_r.
Qed.

Lemma initCombatWindow_cases c :
  (newCombatWindow bb c = true
   /\ initCombatWindow w bb c =
      set_healerScript ∅ (buildHealerBuffQueue w)
        (Blackboard.combatStartFrame bb) c
   /\ combatStartFrameSeen c <> Blackboard.combatStartFrame bb)
  \/ (newCombatWindow bb c = false /\ initCombatWindow w bb c = c).
Proof.
  unfold initCombatWindow. destruct (newCombatWindow bb c) eqn:Hnew; [left|by right].
  repeat split. unfold newCombatWindow in Hnew.
  apply andb_true_iff in Hnew as [_ Hne]. apply negb_true_iff in Hne. lia.
Qed.

Lemma nextBuff_in_queue c x : nextBuff CFG bb c = Some x -> x ∈ buffQueue c.
Proof.
  unfold nextBuff. destruct (_ && _); [|discriminate].
  destruct (List.find _ _) as [n|] eqn:Hfind; [|discriminate].
  destruct (n =? 0); [discriminate|]. intros [= <-].
  apply find_some in Hfind as [Hin _]. by apply list_elem_of_In.
Qed.

(** What one healer act does to the three script fields, relative to the
    controller [c1] left by the combat-window test. *)
Lemma actHealer_script c ua uc :
  actor w c = Some ua -> char w c = Some uc ->
  let c1 := initCombatWindow w bb c in
  let c' := (actHealer CFG w bb c).1 in
  buffQueue c' = buffQueue c1
  /\ combatStartFrameSeen c' = combatStartFrameSeen c1
  /\ thinkCd c' = thinkCd c1
  /\ (buffedThisCombat c' = buffedThisCombat c1
      \/ exists x, x ∈ buffQueue c1
           /\ buffedThisCombat c' = {[x]} ∪ buffedThisCombat c1).
Proof.
  intros Ha Hc. unfold actHealer. rewrite Ha, Hc. cbv zeta.
  destruct (healDue _ (Config.healerCriticalThreshold CFG)) as [id|].
  { rewrite andThen_setState, doHealerHeal_controller. simpl. auto. }
  destruct (healDue _ (Config.healerHealThreshold CFG)) as [id|].
  { rewrite andThen_setState, doHealerHeal_controller. simpl. auto. }
  destruct (nextBuff CFG bb _) as [next|] eqn:Hnext.
  - rewrite andThen_setState. simpl.
    destruct (doHealerBuff_frame next (initCombatWindow w bb c))
      as (Hq & Hs & Hcd & _ & Hb).
    repeat split; try assumption.
    destruct Hb as [Hb|Hb]; [by left|right].
    exists next. split; [by eapply nextBuff_in_queue|exact Hb].
  - destruct (defendOrReposition_frame uc (initCombatWindow w bb c))
      as (Hq & Hs & Hcd & Hb).
    auto.
Qed.

Lemma actHealer_unresolved c :
  actor w c = None \/ char w c = None ->
  actHealer CFG w bb c = (set_state FOLLOW c, []).
Proof.
  intros [H|H]; unfold actHealer; rewrite H; [reflexivity|].
  by destruct (actor w c).
Qed.

End HealerFacts.

(** C3. The source announces the last group of the queue as the other
    healers, as the claim does. In a party of a melee leader and one healer
    there is no other healer, so that queue is the leader alone; the queue
    the healer builds, and holds after its first act of the combat, also
    contains the healer itself. *)
Theorem C3_queue_holds_acting_healer :
  specBuffQueue duoScene 2 = [1]
  /\ Controller.buildHealerBuffQueue duoScene = [1; 2]
  /\ Controller.buffQueue
       (Controller.actHealer sampleCFG duoScene duoBoard
          (sampleController 2 "HEALER" 0 Controller.ACT)).1 = [1; 2]
  /\ Controller.buildHealerBuffQueue duoScene <> specBuffQueue duoScene 2.
Proof.
  split; [vm_compute; reflexivity|]. split; [vm_compute; reflexivity|].
  split; [vm_compute; reflexivity|]. vm_compute. discriminate.
Qed.

(** C8. An unknown role name resolves to MELEE in the controller's own role
    lookup, which drives state dispatch and target selection, and the tank's
    protected-ally test treats it like MELEE; the healer's queue does not: in
    a party MELEE (leader), WIZARD, MELEE, HEALER the actor with the unknown
    role is queued after both melee actors, in the ranged group. *)
Theorem C8_unknown_role_joins_ranged_group :
  Controller.role (sampleController 2 "WIZARD" 0 Controller.FOLLOW) = Roles.MELEE
  /\ resolvedRole "WIZARD" = Roles.MELEE
  /\ Controller.isProtected wizardScene 2 = false
  /\ Controller.groupLoop wizardScene (partyActorIds wizardScene) [] [] []
     = ([1; 3], [2], [4])
  /\ Controller.buildHealerBuffQueue wizardScene = [1; 3; 2; 4]
  /\ allHealersBuffQueue wizardScene = [1; 2; 3; 4].
Proof. repeat split; vm_compute; reflexivity. Qed.

(** ** Healer triage *)

Section TriageFacts.
Import Controller.
Variable CFG : Config.t.
Variable w : World.
Variable bb : Blackboard.t.

Lemma Qltb_lt a b : Qltb a b = true <-> (a < b)%Q.
Proof.
  unfold Qltb. rewrite negb_true_iff. split.
  - intros H. apply Qnot_le_lt. intros Hle.
    apply Qle_bool_iff in Hle. congruence.
  - intros H. apply not_true_is_false. intros Hle.
    apply Qle_bool_iff in Hle. by apply Qlt_not_le in H.
Qed.

Lemma Qltb_ge a b : Qltb a b = false -> (b <= a)%Q.
Proof.
  unfold Qltb. rewrite negb_false_iff. apply Qle_bool_iff.
Qed.

Lemma firstLowest_snoc_skip ids b p id :
  firstLowest w ids b p -> livingPct w id = None -> firstLowest w (ids ++ [id]) b p.
Proof.
  intros (i & Hi & Hp & Hall & Hbefore) Hnone.
  exists i. split; [by apply lookup_app_l_Some|]. split; [exact Hp|]. split.
  - intros j id' p' Hj Hl. apply lookup_app_Some in Hj as [Hj|[_ Hj]]; [eauto|].
    apply list_lookup_singleton_Some in Hj as [_ <-]. congruence.
  - intros j id' p' Hlt Hj Hl.
    apply lookup_app_Some in Hj as [Hj|[Hge _]]; [eauto|].
    apply lookup_lt_Some in Hi. lia.
Qed.

Lemma firstLowest_snoc_keep ids b p id pct :
  firstLowest w ids b p -> livingPct w id = Some pct -> (p <= pct)%Q ->
  firstLowest w (ids ++ [id]) b p.
Proof.
  intros (i & Hi & Hp & Hall & Hbefore) Hsome Hle.
  exists i. split; [by apply lookup_app_l_Some|]. split; [exact Hp|]. split.
  - intros j id' p' Hj Hl. apply lookup_app_Some in Hj as [Hj|[_ Hj]]; [eauto|].
    apply list_lookup_singleton_Some in Hj as [_ <-]. congruence.
  - intros j id' p' Hlt Hj Hl.
    apply lookup_app_Some in Hj as [Hj|[Hge _]]; [eauto|].
    apply lookup_lt_Some in Hi. lia.
Qed.

Lemma firstLowest_snoc_new ids id pct :
  livingPct w id = Some pct ->
  (forall id' p', id' ∈ ids -> livingPct w id' = Some p' -> (pct < p')%Q) ->
  firstLowest w (ids ++ [id]) id pct.
Proof.
  intros Hsome Hall. exists (length ids).
  split; [rewrite lookup_app_r by lia; by rewrite Nat.sub_diag|].
  split; [exact Hsome|]. split.
  - intros j id' p' Hj Hl. apply lookup_app_Some in Hj as [Hj|[_ Hj]].
    + apply Qlt_le_weak. eapply Hall; [|exact Hl].
      by eapply list_elem_of_lookup_2.
    + apply list_lookup_singleton_Some in Hj as [_ <-].
      rewrite Hsome in Hl. injection Hl as <-. apply Qle_refl.
  - intros j id' p' Hlt Hj Hl. rewrite lookup_app_l in Hj by exact Hlt.
    eapply Hall; [|exact Hl]. by eapply list_elem_of_lookup_2.
Qed.

Lemma lowestLoop_spec ids : forall seen best,
  lowestPost w seen best -> lowestPost w (seen ++ ids) (lowestLoop w ids best).
Proof.
  induction ids as [|id ids IH]; intros seen best Hinv; simpl.
  - by rewrite app_nil_r.
  - replace (seen ++ id :: ids) with ((seen ++ [id]) ++ ids)
      by (rewrite <- app_assoc; reflexivity).
    assert (Hskip : livingPct w id = None ->
                    lowestPost w (seen ++ [id]) best).
    { intros Hnone. destruct best as [[b p]|]; simpl in *.
      - by apply firstLowest_snoc_skip.
      - intros id' Hin. apply elem_of_app in Hin as [Hin|Hin]; [eauto|].
        by apply list_elem_of_singleton in Hin as ->. }
    destruct (gameActors w !! id) as [a|] eqn:Ha.
    2:{ apply IH, Hskip. unfold livingPct. by rewrite Ha. }
    destruct (isDead a) eqn:Hdead.
    { apply IH, Hskip. unfold livingPct. by rewrite Ha, Hdead. }
    assert (Hliving : livingPct w id = Some (hpPct a)).
    { unfold livingPct. by rewrite Ha, Hdead. }
    destruct best as [[b p]|]; simpl in Hinv.
    + destruct (Qltb (hpPct a) p) eqn:Hlt; apply IH; simpl.
      * apply Qltb_lt in Hlt. apply firstLowest_snoc_new; [exact Hliving|].
        intros id' p' Hin Hl. destruct Hinv as (i & _ & _ & Hall & _).
        apply list_elem_of_lookup in Hin as [j Hj].
        eapply Qlt_le_trans; [exact Hlt|]. eapply Hall; eauto.
      * apply Qltb_ge in Hlt. by eapply firstLowest_snoc_keep.
    + apply IH. simpl. apply firstLowest_snoc_new; [exact Hliving|].
      intros id' p' Hin Hl. rewrite (Hinv _ Hin) in Hl. discriminate.
Qed.

Lemma lowestHpAlly_spec : lowestPost w (partyActorIds w) (lowestHpAlly w).
Proof.
  apply (lowestLoop_spec (partyActorIds w) [] None).
  intros id Hin. inversion Hin.
Qed.

End TriageFacts.

Lemma initCombatWindow_identity w bb c :
  Controller.actorId (Controller.initCombatWindow w bb c) = Controller.actorId c
  /\ Controller.cfg (Controller.initCombatWindow w bb c) = Controller.cfg c
  /\ Controller.thinkCd (Controller.initCombatWindow w bb c) = Controller.thinkCd c
  /\ Controller.state (Controller.initCombatWindow w bb c) = Controller.state c.
Proof.
  unfold Controller.initCombatWindow.
  destruct (Controller.newCombatWindow bb c); auto.
Qed.

(** With both of the healer's handles and the target actor resolved and a
    heal tool configured, the heal routine triggers the tool unless the
    target's character is resolved and beyond the preferred range, in which
    case it only moves toward it. *)
Lemma doHealerHeal_with_tool w tid c uc ua ta :
  Controller.char w c = Some uc -> Controller.actor w c = Some ua ->
  gameActors w !! tid = Some ta ->
  0 < AgentConfig.toolHeal (Controller.cfg c) ->
  (Controller.doHealerHeal w tid c).2 =
  match characterForActorId w tid with
  | Some tc =>
      if AgentConfig.preferredRange (Controller.cfg c)
           <? ChronoCompat.distTiles (Some uc) (Some tc)
      then [MoveToward uc tc]
      else [UseTool uc (AgentConfig.toolHeal (Controller.cfg c)) 1]
  | None => [UseTool uc (AgentConfig.toolHeal (Controller.cfg c)) 1]
  end.
Proof.
  intros Hc Ha Ht Htool. unfold Controller.doHealerHeal.
  rewrite Hc, Ha, Ht.
  destruct (Z.eqb_spec (AgentConfig.toolHeal (Controller.cfg c)) 0); [lia|].
  destruct (Z.ltb_spec 0 (AgentConfig.toolHeal (Controller.cfg c))); [|lia].
  simpl andb. cbv iota zeta. unfold ChronoCompat.tryUseTool.
  destruct (Z.eqb_spec (AgentConfig.toolHeal (Controller.cfg c)) 0); [lia|].
  destruct (characterForActorId w tid) as [tc|]; simpl.
  - destruct (_ <? _); reflexivity.
  - reflexivity.
Qed.

(** C4 (as amended). When the healer's handles resolve and the living ally
    with the lowest HP percentage (first in roster order among equals) is at
    or below the critical threshold, the act is the heal routine for that
    ally and nothing else. The controller stays in ACT and no ally is newly
    marked as buffed; the only intent is none, one move toward the ally, or
    the heal tool. With a heal tool configured the tool is triggered when the
    ally's character is within the preferred range or is not resolved, and
    the healer only moves toward the ally when it is farther. *)
Theorem C4_critical_heal_preempts_buff (CFG : Config.t) (w : World)
    (bb : Blackboard.t) (c : Controller.t) (ua : Actor) (uc : Character)
    (id : Z) (pct : Q)
    (Hactor : Controller.actor w c = Some ua)
    (Hchar : Controller.char w c = Some uc)
    (Hlowest : Controller.lowestHpAlly w = Some (id, pct))
    (Hcritical : (pct <= inject_Z (Config.healerCriticalThreshold CFG))%Q) :
  let res := Controller.actHealer CFG w bb c in
  let range := AgentConfig.preferredRange (Controller.cfg c) in
  let heal := AgentConfig.toolHeal (Controller.cfg c) in
  firstLowest w (partyActorIds w) id pct
  /\ Controller.state res.1 = Controller.ACT
  /\ (forall x, x ∈ Controller.buffedThisCombat res.1 ->
                x ∈ Controller.buffedThisCombat c)
  /\ (res.2 = []
      \/ (exists tc, characterForActorId w id = Some tc
                     /\ res.2 = [MoveToward uc tc])
      \/ res.2 = [UseTool uc heal 1])
  /\ (0 < heal ->
      characterForActorId w id = None
      \/ (exists tc, characterForActorId w id = Some tc
             /\ ChronoCompat.distTiles (Some uc) (Some tc) <= range) ->
      res.2 = [UseTool uc heal 1])
  /\ (0 < heal -> forall tc,
      characterForActorId w id = Some tc ->
      range < ChronoCompat.distTiles (Some uc) (Some tc) ->
      res.2 = [MoveToward uc tc]).
Proof.
  intros res range heal.
  set (c1 := Controller.initCombatWindow w bb c).
  assert (Hspec := lowestHpAlly_spec w). rewrite Hlowest in Hspec.
  split; [exact Hspec|].
  assert (Hres : res = (Controller.set_state Controller.ACT c1,
                        (Controller.doHealerHeal w id c1).2)).
  { subst res. unfold Controller.actHealer. rewrite Hactor, Hchar, Hlowest.
    cbv zeta. unfold Controller.healDue at 1.
    apply Qle_bool_iff in Hcritical. rewrite Hcritical.
    rewrite andThen_setState, doHealerHeal_controller. reflexivity. }
  destruct (initCombatWindow_identity w bb c) as (Hid & Hcfg & _).
  fold c1 in Hid, Hcfg.
  assert (Hchar1 : Controller.char w c1 = Some uc)
    by (unfold Controller.char in *; by rewrite Hid).
  assert (Hactor1 : Controller.actor w c1 = Some ua)
    by (unfold Controller.actor in *; by rewrite Hid).
  destruct Hspec as (i & _ & Hliving & _).
  unfold livingPct in Hliving.
  destruct (gameActors w !! id) as [ta|] eqn:Hta; [|discriminate].
  rewrite Hres. simpl fst. simpl snd.
  split; [reflexivity|]. split; [|split; [|split]].
  - intros x. simpl. unfold c1, Controller.initCombatWindow.
    destruct (Controller.newCombatWindow bb c); simpl; [|done].
    intros Hx. by apply not_elem_of_empty in Hx.
  - unfold Controller.doHealerHeal. rewrite Hchar1, Hactor1, Hta, Hcfg.
    unfold ChronoCompat.moveToward, ChronoCompat.tryUseTool.
    repeat case_match; simpl; eauto.
  - intros Htool Hnear.
    rewrite (doHealerHeal_with_tool w id c1 uc ua ta Hchar1 Hactor1 Hta)
      by (rewrite Hcfg; exact Htool).
    rewrite Hcfg. destruct Hnear as [->|(tc & -> & Hd)]; [reflexivity|].
    fold range. destruct (Z.ltb_spec range
      (ChronoCompat.distTiles (Some uc) (Some tc))); [lia|reflexivity].
  - intros Htool tc Htc Hfar.
    rewrite (doHealerHeal_with_tool w id c1 uc ua ta Hchar1 Hactor1 Hta)
      by (rewrite Hcfg; exact Htool).
    rewrite Hcfg, Htc. fold range. destruct (Z.ltb_spec range
      (ChronoCompat.distTiles (Some uc) (Some tc))); [reflexivity|lia].
Qed.

(** In the triage scene the rebuilt queue still has an unbuffed ally and the
    buff window is open, yet the act is the heal of the ally at 30 percent. *)
Lemma C4_critical_heal_witness :
  Controller.nextBuff sampleCFG duoBoard
    (Controller.initCombatWindow triageScene duoBoard
       (sampleController 2 "HEALER" 0 Controller.ACT)) = Some 1
  /\ (Controller.actHealer sampleCFG triageScene duoBoard
        (sampleController 2 "HEALER" 0 Controller.ACT)).2
     = [UseTool (mkCharacter 0 2 None) 12 1].
Proof.
  split; [vm_compute; reflexivity|].
  refine (proj1 (proj2 (proj2 (proj2 (proj2
    (C4_critical_heal_preempts_buff sampleCFG triageScene
       duoBoard (sampleController 2 "HEALER" 0 Controller.ACT)
       (sampleActor "HEALER" 100) (mkCharacter 0 2 None) 3 30 _ _ _ _)))))
    _ _).
  - vm_compute. reflexivity.
  - vm_compute. reflexivity.
  - vm_compute. reflexivity.
  - vm_compute. discriminate.
  - reflexivity.
  - right. exists (mkCharacter 0 3 None). split; [reflexivity|].
    vm_compute. discriminate.
Defined.

(** C4, the claim as written, fails: the tank is at 30 percent, below the
    critical threshold of 35, but six tiles from the healer, whose preferred
    range is four; in that think the healer only moves toward the tank and
    uses no tool, so the tank is not healed. *)
Lemma C4_far_ally_is_not_healed :
  Controller.lowestHpAlly woundedScene = Some (3, 30%Q)
  /\ (30 <= inject_Z (Config.healerCriticalThreshold sampleCFG))%Q
  /\ (Controller.actHealer sampleCFG woundedScene duoBoard
        (sampleController 2 "HEALER" 0 Controller.ACT)).2
     = [MoveToward origin (mkCharacter 6 0 None)]
  /\ abilityCount
       (Controller.actHealer sampleCFG woundedScene duoBoard
          (sampleController 2 "HEALER" 0 Controller.ACT)).2 = 0%nat.
Proof.
  split; [vm_compute; reflexivity|]. split; [vm_compute; discriminate|].
  split; vm_compute; reflexivity.
Qed.



(** ** Properties of the controller update *)

Section UpdateFacts.
Import Controller.
Variable CFG : Config.t.
Variable w : World.
Variable bb : Blackboard.t.

Lemma thinkFollow_thinkCd c : thinkCd (thinkFollow w bb c).1 = thinkCd c.
Proof. unfold thinkFollow. repeat case_match; reflexivity. Qed.

Lemma thinkHold_thinkCd c : thinkCd (thinkHold w bb c).1 = thinkCd c.
Proof. unfold thinkHold. repeat case_match; reflexivity. Qed.

Lemma thinkRecover_thinkCd c : thinkCd (thinkRecover w c).1 = thinkCd c.
Proof. unfold thinkRecover. repeat case_match; reflexivity. Qed.

Lemma thinkAcquire_thinkCd c : thinkCd (thinkAcquire w bb c).1 = thinkCd c.
Proof. unfold thinkAcquire. repeat case_match; reflexivity. Qed.

Lemma actRanged_thinkCd c : thinkCd (actRanged w bb c).1 = thinkCd c.
Proof. unfold actRanged. repeat case_match; reflexivity. Qed.

Lemma actMelee_thinkCd c : thinkCd (actMelee w bb c).1 = thinkCd c.
Proof. unfold actMelee. repeat case_match; reflexivity. Qed.

Lemma actTank_thinkCd c : thinkCd (actTank w bb c).1 = thinkCd c.
Proof. unfold actTank. cbv zeta. repeat case_match; reflexivity. Qed.

Lemma actHealer_thinkCd c : thinkCd (actHealer CFG w bb c).1 = thinkCd c.
Proof.
  destruct (actor w c) as [ua|] eqn:Ha;
    [|rewrite actHealer_unresolved by auto; reflexivity].
  destruct (char w c) as [uc|] eqn:Hc;
    [|rewrite actHealer_unresolved by auto; reflexivity].
  destruct (actHealer_script CFG w bb c ua uc Ha Hc) as (_ & _ & Hcd & _).
  rewrite Hcd. apply initCombatWindow_identity.
Qed.

Lemma thinkAct_thinkCd c : thinkCd (thinkAct CFG w bb c).1 = thinkCd c.
Proof.
  unfold thinkAct. cbv zeta.
  repeat case_match;
    auto using actHealer_thinkCd, actRanged_thinkCd, actTank_thinkCd,
      actMelee_thinkCd.
Qed.

(** A think leaves the countdown at the configured interval. *)
Lemma think_thinkCd ch c :
  thinkCd (think CFG w bb ch c).1 = Config.thinkInterval CFG.
Proof.
  unfold think. cbv zeta.
  set (c3 := if negb (Blackboard.combatActive bb) then _ else _).
  assert (Hc3 : thinkCd c3 = Config.thinkInterval CFG).
  { subst c3. repeat case_match; reflexivity. }
  destruct (state c3);
    rewrite ?thinkFollow_thinkCd, ?thinkAcquire_thinkCd, ?thinkAct_thinkCd,
      ?thinkRecover_thinkCd, ?thinkHold_thinkCd; exact Hc3.
Qed.

(** A healer in ACT that is within its leash runs the healer script on every
    think, after the countdown reset and the out-of-combat script reset. *)
Lemma think_healer_in_act ch c :
  state c = ACT -> role c = Roles.HEALER ->
  (AgentConfig.leash (cfg c)
     <? ChronoCompat.distTiles (Some ch) (gamePlayer w)) = false ->
  think CFG w bb ch c =
  actHealer CFG w bb
    (if negb (Blackboard.combatActive bb)
     then set_healerScript ∅ [] 0 (set_thinkCd (Config.thinkInterval CFG) c)
     else set_thinkCd (Config.thinkInterval CFG) c).
Proof.
  intros Hstate Hrole Hleash. unfold think. cbv zeta.
  change (cfg (set_thinkCd (Config.thinkInterval CFG) c)) with (cfg c).
  rewrite Hleash.
  destruct (negb (Blackboard.combatActive bb)); simpl state; rewrite Hstate;
    unfold thinkAct; cbv zeta;
    [change (role (set_healerScript ∅ [] 0
               (set_thinkCd (Config.thinkInterval CFG) c))) with (role c)
    |change (role (set_thinkCd (Config.thinkInterval CFG) c)) with (role c)];
    rewrite Hrole; reflexivity.
Qed.

Lemma update_idle c : ~ runs CFG w c -> update CFG w bb c = (c, []).
Proof.
  intros Hno. unfold update.
  destruct (Config.enabled CFG) eqn:Hon; [|reflexivity].
  destruct (AgentConfig.enabled (cfg c)) eqn:Hai; [|reflexivity]. simpl.
  destruct (char w c) as [ch|] eqn:Hc; [|reflexivity].
  destruct (actor w c) as [ac|] eqn:Ha; [|reflexivity].
  exfalso. apply Hno. unfold runs. rewrite Hc, Ha. eauto.
Qed.

Lemma update_runs c ch :
  runs CFG w c -> char w c = Some ch ->
  update CFG w bb c =
  if 0 <? thinkCd c then (set_thinkCd (thinkCd c - 1) c, [])
  else think CFG w bb ch c.
Proof.
  intros (Hon & Hai & _ & [ac Ha]) Hc. unfold update.
  rewrite Hon, Hai, Hc, Ha. reflexivity.
Qed.

Lemma update_thinkCd_range c :
  0 <= Config.thinkInterval CFG ->
  0 <= thinkCd c <= Config.thinkInterval CFG ->
  0 <= thinkCd (update CFG w bb c).1 <= Config.thinkInterval CFG.
Proof.
  intros Hn Hcd. unfold update. repeat case_match; simpl; try lia.
  rewrite think_thinkCd. lia.
Qed.

End UpdateFacts.

(** ** The jitter of the constructor *)

(** The rounded product of a draw below 1 and an integer of at least 1 stays
    below that integer, and so does its floor: rounding to nearest never
    reaches the integer, because the draw is at least one part in [2 ^ 53]
    short of 1, which is more than half a unit in the last place of the
    product. *)
Lemma mulInt_floor_range (x : Double.t) (n : Z) :
  Double.inUnitInterval x = true -> 1 <= n ->
  0 <= Double.floor (Double.mulInt x n) < n.
Proof.
  unfold Double.inUnitInterval. destruct x as [m e]. simpl.
  intros H Hn.
  apply andb_true_iff in H as [H Hunit].
  apply andb_true_iff in H as [H _].
  apply andb_true_iff in H as [Hm0 Hm53].
  apply Z.leb_le in Hm0. apply Z.ltb_lt in Hm53.
  assert (Hcases : m = 0 \/ (e < 0 /\ m < 2 ^ (- e))).
  { apply orb_true_iff in Hunit as [Hz|Hneg].
    - left. by apply Z.eqb_eq.
    - right. apply andb_true_iff in Hneg as [H1 H2].
      split; [by apply Z.ltb_lt|by apply Z.ltb_lt]. }
  clear Hunit. unfold Double.mulInt, Double.floor. simpl.
  destruct Hcases as [->|[He Hm]].
  { rewrite Z.mul_0_l. simpl.
    destruct (0 <=? e); simpl; rewrite ?Z.mul_0_l, ?Zdiv_0_l; lia. }
  set (d := - e) in *.
  assert (Hd : 0 < d) by lia.
  assert (HD : 0 < 2 ^ d) by (apply Z.pow_pos_nonneg; lia).
  destruct (Z.ltb_spec (m * n) (2 ^ 53)) as [Hsmall|Hbig]; simpl.
  - destruct (Z.leb_spec 0 e); [lia|]. fold d. split.
    + apply Z.div_pos; nia.
    + apply Z.div_lt_upper_bound; [lia|nia].
  - set (P := m * n) in *.
    assert (HP : 0 < P) by lia.
    destruct (Z.log2_spec P HP) as [Hlo _].
    assert (Hlog : 53 <= Z.log2 P) by (apply Z.log2_le_pow2; lia).
    set (k := Z.log2 P - 52) in *.
    assert (Hk : 1 <= k) by lia.
    assert (HK : 0 < 2 ^ (k - 1)) by (apply Z.pow_pos_nonneg; lia).
    assert (HK2 : 2 ^ k = 2 * 2 ^ (k - 1)).
    { replace k with (1 + (k - 1)) at 1 by lia.
      rewrite Z.pow_add_r by lia. reflexivity. }
    assert (Hlo' : 2 ^ 53 * 2 ^ (k - 1) <= P).
    { replace (Z.log2 P) with (53 + (k - 1)) in Hlo by lia.
      rewrite Z.pow_add_r in Hlo by lia. exact Hlo. }
    pose proof (Z.div_mod P (2 ^ k) ltac:(lia)) as Hdiv.
    pose proof (Z.mod_pos_bound P (2 ^ k) ltac:(lia)) as Hrem.
    set (q := P / 2 ^ k) in *. set (r := P mod 2 ^ k) in *.
    assert (Hq : 0 <= q) by (apply Z.div_pos; lia).
    set (q' := if (2 ^ (k - 1) <? r) || ((r =? 2 ^ (k - 1)) && Z.odd q)
               then q + 1 else q).
    assert (Hq' : 0 <= q' /\ q' * 2 ^ k < n * 2 ^ d).
    { subst q'.
      destruct ((2 ^ (k - 1) <? r) || ((r =? 2 ^ (k - 1)) && Z.odd q))
        eqn:Hup.
      - assert (Hhalf : 2 ^ (k - 1) <= r).
        { apply orb_true_iff in Hup as [Hup|Hup].
          - apply Z.ltb_lt in Hup. lia.
          - apply andb_true_iff in Hup as [Hup _]. apply Z.eqb_eq in Hup. lia. }
        assert (Hn' : 2 ^ (k - 1) < n).
        { destruct (Z.lt_ge_cases (2 ^ (k - 1)) n) as [|Hle]; [done|].
          exfalso. assert (P <= m * 2 ^ (k - 1)) by (subst P; nia). nia. }
        split; [lia|]. subst P. nia.
      - split; [exact Hq|]. subst P. nia. }
    destruct Hq' as [Hq0 Hlt]. fold q'.
    destruct (Z.leb_spec 0 (e + k)) as [Hpos|Hneg].
    + assert (Hsplit : 2 ^ k = 2 ^ (e + k) * 2 ^ d).
      { rewrite <- Z.pow_add_r by lia. f_equal. lia. }
      assert (0 < 2 ^ (e + k)) by (apply Z.pow_pos_nonneg; lia).
      rewrite Hsplit in Hlt. split; nia.
    + assert (Hsplit : 2 ^ d = 2 ^ (- (e + k)) * 2 ^ k).
      { rewrite <- Z.pow_add_r by lia. f_equal. lia. }
      assert (0 < 2 ^ (- (e + k))) by (apply Z.pow_pos_nonneg; lia).
      assert (0 < 2 ^ k) by lia.
      rewrite Hsplit in Hlt. split.
      * apply Z.div_pos; lia.
      * apply Z.div_lt_upper_bound; [lia|nia].
Qed.

(** The countdown drawn by the constructor. *)
Lemma new_thinkCd_range CFG id cfg (rnd : Double.t) :
  1 <= Config.thinkInterval CFG -> Double.inUnitInterval rnd = true ->
  0 <= Controller.thinkCd (Controller.new CFG id cfg rnd)
    < Config.thinkInterval CFG.
Proof. intros Hn Hrnd. by apply mulInt_floor_range. Qed.

(** The double nearest to 0.7 and a think interval of 10: the product rounds
    to 7, so the countdown starts at 7, where the exact product, a little
    below 7, would give 6. *)
Example jitter_is_the_floor_of_the_rounded_product :
  Double.inUnitInterval (Double.mk 6305039478318694 (-53)) = true
  /\ Double.floor (Double.mulInt (Double.mk 6305039478318694 (-53)) 10) = 7
  /\ Qfloor (Double.toQ (Double.mk 6305039478318694 (-53)) * 10)%Q = 6.
Proof. repeat split; vm_compute; reflexivity. Qed.

(** ** Properties of the manager *)

Section ManagerFacts.
Variable CFG : Config.t.
Variable w : World.

Lemma syncLoop_Forall (P : Controller.t -> Prop) ids :
  (forall id cfg, P (Controller.new CFG id cfg (mathRandom w id))) ->
  (forall cfg c, P c -> P (Controller.set_cfg cfg c)) ->
  forall cs : gmap Z Controller.t,
    map_Forall (fun _ => P) cs ->
    map_Forall (fun _ => P) (Manager.syncLoop CFG w ids cs).
Proof.
  intros Hnew Hcfg.
  induction ids as [|actorId ids IH]; intros cs Hall; simpl; [exact Hall|].
  destruct (actorId =? leaderId w); [by apply IH|].
  destruct (gameActors w !! actorId) as [a|]; [|by apply IH].
  destruct (AgentConfig.enabled (aiConfig a)); simpl.
  - destruct (cs !! actorId) as [c|] eqn:Hc; apply IH.
    + apply map_Forall_insert_2; [|exact Hall]. apply Hcfg. by eapply Hall.
    + apply map_Forall_insert_2; [apply Hnew|exact Hall].
  - apply IH. by apply map_Forall_delete.
Qed.

Lemma dropAbsent_lookup ids (cs : gmap Z Controller.t) k c :
  Manager.dropAbsent ids cs !! k = Some c <-> cs !! k = Some c /\ k ∈ ids.
Proof. unfold Manager.dropAbsent. apply map_lookup_filter_Some. Qed.

(** A controller that appears during the first loop of [sync] belongs to a
    party member other than the leader whose configuration enables the AI. *)
Lemma syncLoop_new_key ids : forall (cs : gmap Z Controller.t) k c',
  Manager.syncLoop CFG w ids cs !! k = Some c' -> cs !! k = None ->
  k <> leaderId w /\ k ∈ ids
  /\ exists a, gameActors w !! k = Some a
               /\ AgentConfig.enabled (aiConfig a) = true.
Proof.
  induction ids as [|actorId ids IH]; intros cs k c' Hpost Hpre; simpl in Hpost.
  { congruence. }
  assert (Hrec : forall cs' : gmap Z Controller.t,
            Manager.syncLoop CFG w ids cs' !! k = Some c' -> cs' !! k = None ->
            k <> leaderId w /\ k ∈ actorId :: ids
            /\ exists a, gameActors w !! k = Some a
                         /\ AgentConfig.enabled (aiConfig a) = true).
  { intros cs' H1 H2. destruct (IH cs' k c' H1 H2) as (? & ? & ?).
    repeat split; [done|by apply list_elem_of_further|done]. }
  destruct (Z.eqb_spec actorId (leaderId w)) as [Hl|Hl]; [by eapply Hrec|].
  destruct (gameActors w !! actorId) as [a|] eqn:Ha; [|by eapply Hrec].
  destruct (AgentConfig.enabled (aiConfig a)) eqn:Hen; simpl in Hpost.
  - destruct (decide (k = actorId)) as [->|Hk].
    + split; [exact Hl|]. split; [apply list_elem_of_here|]. eauto.
    + destruct (cs !! actorId); (eapply Hrec; [exact Hpost|]);
        by rewrite lookup_insert_ne.
  - eapply Hrec; [exact Hpost|]. apply lookup_delete_None. by right.
Qed.

Lemma sync_new_key (m : Manager.t) k c' :
  Manager.controllers (Manager.sync CFG w m) !! k = Some c' ->
  Manager.controllers m !! k = None ->
  k <> leaderId w /\ k ∈ partyActorIds w
  /\ exists a, gameActors w !! k = Some a
               /\ AgentConfig.enabled (aiConfig a) = true.
Proof.
  unfold Manager.sync. destruct (Config.enabled CFG); simpl; [|congruence].
  intros Hpost Hpre. apply dropAbsent_lookup in Hpost as [Hpost _].
  by eapply syncLoop_new_key.
Qed.

Lemma sync_leader_absent (m : Manager.t) :
  Manager.controllers m !! leaderId w = None ->
  Manager.controllers (Manager.sync CFG w m) !! leaderId w = None.
Proof.
  intros Hpre.
  destruct (Manager.controllers (Manager.sync CFG w m) !! leaderId w)
    as [c'|] eqn:Hpost; [|reflexivity].
  by destruct (sync_new_key m _ _ Hpost Hpre) as [Hne _].
Qed.

Lemma updateAgainst_controllers_lookup seen (m : Manager.t) k :
  Config.enabled CFG = true ->
  Manager.controllers (Manager.updateAgainst CFG w seen m).1 !! k =
  (fun c =>
     (Controller.update CFG (seen k) (Blackboard.update CFG w (Manager.bb m))
        c).1)
    <$> Manager.controllers
          (Manager.sync CFG w
             (Manager.mk (Blackboard.update CFG w (Manager.bb m))
                (Manager.controllers m))) !! k.
Proof.
  intros Hon. unfold Manager.updateAgainst. rewrite Hon. simpl.
  rewrite lookup_fmap, map_lookup_imap. by destruct (_ !! k).
Qed.

Lemma update_controllers_lookup (m : Manager.t) k :
  Config.enabled CFG = true ->
  Manager.controllers (Manager.update CFG w m).1 !! k =
  (fun c => (Controller.update CFG w (Blackboard.update CFG w (Manager.bb m)) c).1)
    <$> Manager.controllers
          (Manager.sync CFG w
             (Manager.mk (Blackboard.update CFG w (Manager.bb m))
                (Manager.controllers m))) !! k.
Proof. apply updateAgainst_controllers_lookup. Qed.

Lemma sync_Forall (P : Controller.t -> Prop) (m : Manager.t) :
  (forall id cfg, P (Controller.new CFG id cfg (mathRandom w id))) ->
  (forall cfg c, P c -> P (Controller.set_cfg cfg c)) ->
  map_Forall (fun _ => P) (Manager.controllers m) ->
  map_Forall (fun _ => P) (Manager.controllers (Manager.sync CFG w m)).
Proof.
  intros Hnew Hcfg Hall. unfold Manager.sync.
  destruct (Config.enabled CFG); simpl; [|exact Hall].
  intros k c Hk. apply dropAbsent_lookup in Hk as [Hk _].
  by eapply (syncLoop_Forall P).
Qed.

End ManagerFacts.

(** C5 (as amended). With an integer think interval of at least one (that a
    double holds exactly) and random draws that are doubles in [0, 1), the
    countdown is created within [0, thinkInterval): it is the floor of the
    product of the draw and the interval as the host rounds it. Every
    controller update, whatever the host shows, keeps it within the closed
    range [0, thinkInterval], and so does every manager update; on the frame
    on which the decision logic runs it is left at thinkInterval itself. *)
Theorem C5_think_countdown_range (CFG : Config.t) (w : World)
    (Hinterval : 1 <= Config.thinkInterval CFG < 2 ^ 53)
    (Hrandom : forall id, Double.inUnitInterval (mathRandom w id) = true) :
  (forall id cfg,
     0 <= Controller.thinkCd (Controller.new CFG id cfg (mathRandom w id))
       < Config.thinkInterval CFG)
  /\ (forall w' bb c, cdInRange CFG c ->
        cdInRange CFG (Controller.update CFG w' bb c).1)
  /\ (forall w' bb c ch, runs CFG w' c -> Controller.char w' c = Some ch ->
        Controller.thinkCd c <= 0 ->
        Controller.thinkCd (Controller.update CFG w' bb c).1
        = Config.thinkInterval CFG)
  /\ (forall (seen : Z -> World) (m : Manager.t),
        map_Forall (fun _ => cdInRange CFG) (Manager.controllers m) ->
        map_Forall (fun _ => cdInRange CFG)
          (Manager.controllers (Manager.updateAgainst CFG w seen m).1)).
Proof.
  assert (Hnew : forall id cfg,
     0 <= Controller.thinkCd (Controller.new CFG id cfg (mathRandom w id))
       < Config.thinkInterval CFG).
  { intros id cfg. apply new_thinkCd_range; [lia|apply Hrandom]. }
  assert (Hupd : forall w' bb c, cdInRange CFG c ->
        cdInRange CFG (Controller.update CFG w' bb c).1).
  { intros w' bb c Hc. apply update_thinkCd_range; [lia|exact Hc]. }
  split; [exact Hnew|]. split; [exact Hupd|]. split.
  - intros w' bb c ch Hruns Hch Hcd.
    rewrite (update_runs CFG w' bb c ch Hruns Hch).
    destruct (Z.ltb_spec 0 (Controller.thinkCd c)); [lia|].
    apply think_thinkCd.
  - intros seen m Hall.
    destruct (Config.enabled CFG) eqn:Hon; cycle 1.
    { unfold Manager.updateAgainst. rewrite Hon. exact Hall. }
    intros k c Hk. rewrite updateAgainst_controllers_lookup in Hk by exact Hon.
    destruct (Manager.controllers _ !! k) as [c0|] eqn:Hc0; [|discriminate].
    simpl in Hk. injection Hk as <-. apply Hupd.
    revert k c0 Hc0. apply (sync_Forall CFG w (cdInRange CFG)); [| |exact Hall].
    + intros id cfg. specialize (Hnew id cfg). unfold cdInRange. lia.
    + intros cfg c Hc. exact Hc.
Qed.

Lemma C5_think_countdown_witness :
  0 <= Controller.thinkCd
         (Controller.new sampleCFG 2 (sampleConfig "HEALER")
            (mathRandom duoScene 2))
    < Config.thinkInterval sampleCFG.
Proof.
  refine (proj1 (C5_think_countdown_range sampleCFG duoScene _ _) 2
            (sampleConfig "HEALER")).
  - vm_compute. split; [discriminate|reflexivity].
  - intros id. reflexivity.
Defined.

(** C5, the claim as written, fails: a healer whose countdown has reached
    zero thinks, and the update leaves the countdown at thinkInterval, which
    is outside the half-open interval. *)
Lemma C5_countdown_reaches_interval :
  Config.thinkInterval sampleCFG = 8
  /\ Controller.thinkCd
       (Controller.update sampleCFG duoScene duoBoard
          (sampleController 2 "HEALER" 0 Controller.ACT)).1 = 8
  /\ ~ (0 <= Controller.thinkCd
              (Controller.update sampleCFG duoScene duoBoard
                 (sampleController 2 "HEALER" 0 Controller.ACT)).1
          < Config.thinkInterval sampleCFG).
Proof.
  assert (H : Controller.thinkCd
       (Controller.update sampleCFG duoScene duoBoard
          (sampleController 2 "HEALER" 0 Controller.ACT)).1 = 8)
    by (vm_compute; reflexivity).
  split; [reflexivity|]. split; [exact H|]. rewrite H. simpl. lia.
Qed.

(** C6 (as amended). While the plugin and the agent are enabled and the
    agent's character and actor resolve, an update with a positive countdown
    only decrements it, whatever the state: state, target and script are
    untouched and no intent is issued. With the countdown at zero the update
    is the decision logic and leaves the countdown at the think interval.
    When the controller is disabled or a handle does not resolve, the update
    changes nothing, the countdown included. *)
Theorem C6_countdown_gates_thinking (CFG : Config.t) (w : World)
    (bb : Blackboard.t) (c : Controller.t) :
  (runs CFG w c -> 0 < Controller.thinkCd c ->
     Controller.update CFG w bb c
     = (Controller.set_thinkCd (Controller.thinkCd c - 1) c, []))
  /\ (forall ch, runs CFG w c -> Controller.char w c = Some ch ->
        Controller.thinkCd c <= 0 ->
        Controller.update CFG w bb c = Controller.think CFG w bb ch c
        /\ Controller.thinkCd (Controller.update CFG w bb c).1
           = Config.thinkInterval CFG)
  /\ (~ runs CFG w c -> Controller.update CFG w bb c = (c, [])).
Proof.
  split; [|split].
  - intros Hruns Hcd. destruct Hruns as (H1 & H2 & [ch Hch] & H4).
    rewrite (update_runs CFG w bb c ch); [|by repeat split; eauto|exact Hch].
    destruct (Z.ltb_spec 0 (Controller.thinkCd c)); [reflexivity|lia].
  - intros ch Hruns Hch Hcd. rewrite (update_runs CFG w bb c ch Hruns Hch).
    destruct (Z.ltb_spec 0 (Controller.thinkCd c)); [lia|].
    split; [reflexivity|apply think_thinkCd].
  - apply update_idle.
Qed.

(** C6, the claim as written, fails: the fifth party member is AI-enabled
    and in the roster but has no map character, and an update leaves its
    countdown at 3 instead of decrementing it. *)
Lemma C6_unresolved_agent_keeps_countdown :
  AgentConfig.enabled (Controller.cfg (sampleController 5 "MELEE" 3 Controller.FOLLOW)) = true
  /\ Controller.char benchScene (sampleController 5 "MELEE" 3 Controller.FOLLOW) = None
  /\ Controller.update sampleCFG benchScene Blackboard.new
       (sampleController 5 "MELEE" 3 Controller.FOLLOW)
     = (sampleController 5 "MELEE" 3 Controller.FOLLOW, [])
  /\ Controller.thinkCd
       (Controller.update sampleCFG benchScene Blackboard.new
          (sampleController 5 "MELEE" 3 Controller.FOLLOW)).1 <> 3 - 1.
Proof.
  split; [reflexivity|]. split; [reflexivity|].
  split; [vm_compute; reflexivity|]. vm_compute. discriminate.
Qed.

(** A roster synchronisation creates controllers only for party members
    other than the leader whose configuration enables the AI; if no
    controller exists for the current leader before a synchronisation or a
    manager update, none exists after it, and none exists after a map
    setup. *)
Theorem sync_creates_only_for_enabled_followers (CFG : Config.t) (w : World)
    (m : Manager.t) :
  (forall k c',
     Manager.controllers (Manager.sync CFG w m) !! k = Some c' ->
     Manager.controllers m !! k = None ->
     k <> leaderId w /\ k ∈ partyActorIds w
     /\ exists a, gameActors w !! k = Some a
                  /\ AgentConfig.enabled (aiConfig a) = true)
  /\ (Manager.controllers m !! leaderId w = None ->
      Manager.controllers (Manager.sync CFG w m) !! leaderId w = None)
  /\ (Manager.controllers m !! leaderId w = None ->
      Manager.controllers (Manager.update CFG w m).1 !! leaderId w = None)
  /\ Manager.controllers (Manager.onMapSetup CFG w) !! leaderId w = None.
Proof.
  split; [apply sync_new_key|]. split; [apply sync_leader_absent|]. split.
  - intros Hpre. destruct (Config.enabled CFG) eqn:Hon.
    + rewrite update_controllers_lookup by exact Hon.
      rewrite (sync_leader_absent CFG w
                 (Manager.mk (Blackboard.update CFG w (Manager.bb m))
                    (Manager.controllers m)) Hpre).
      reflexivity.
    + unfold Manager.update, Manager.updateAgainst. rewrite Hon. exact Hpre.
  - apply sync_leader_absent. apply lookup_empty.
Qed.

(** C9. The leader is meant never to have a controller, but the one made for
    actor 2 while actor 1 led survives the synchronisation that follows a
    formation change making actor 2 the leader: the loop skips the leader's
    id without deleting, and the removal loop only drops actors that left the
    party. The next manager update runs that controller's decision logic for
    the leader (its countdown goes from 0 to the think interval). *)
Theorem C9_stale_controller_for_new_leader :
  leaderId swapScene = 2
  /\ is_Some (Manager.controllers (Manager.sync sampleCFG swapScene swapManager)
                !! leaderId swapScene)
  /\ Controller.thinkCd <$>
       Manager.controllers (Manager.update sampleCFG swapScene swapManager).1
         !! leaderId swapScene = Some 8.
Proof.
  split; [reflexivity|]. split.
  - exists (sampleController 2 "MELEE" 0 Controller.FOLLOW).
    vm_compute. reflexivity.
  - vm_compute. reflexivity.
Qed.

(** In the frame after the formation change neither controller issues an
    intent, so each of them finds the host as the frame began. *)
Example swap_frame_issues_nothing :
  (Manager.update sampleCFG swapScene swapManager).2 = {[ 1 := []; 2 := [] ]}.
Proof. vm_compute. reflexivity. Qed.

(** ** Intents issued by the role behaviours *)

Section ActFacts.
Import Controller.
Variable CFG : Config.t.
Variable w : World.
Variable bb : Blackboard.t.

Lemma actMelee_plain c : plainAct (actMelee w bb c).
Proof.
  unfold plainAct, actMelee, fireAttack, ChronoCompat.moveToward,
    ChronoCompat.tryUseTool, enemyChar, abilityCount, movementCount.
  cbv zeta. repeat case_match; simpl; auto with lia.
Qed.

Lemma actTank_plain c : plainAct (actTank w bb c).
Proof.
  unfold plainAct, actTank, fireAttack, ChronoCompat.moveToward,
    ChronoCompat.tryUseTool, enemyChar, abilityCount, movementCount.
  cbv zeta.
  destruct (match match nearestProtectedLoop w _ _ _ _ with
                  | Some _ => _ | None => _ end with
            | Some e => Some e | None => _ end) as [t|]; [|simpl; auto with lia].
  repeat case_match; simpl; auto with lia.
Qed.

Lemma targetOr_actsOn c role t :
  targetOr w bb c role = Some t <-> actsOn w bb c role t.
Proof.
  unfold targetOr, actsOn. destruct (target c) as [t0|]; split.
  - intros [= <-]. by left.
  - intros [H|[H _]]; [exact H|discriminate].
  - intros H. by right.
  - intros [H|[_ H]]; [discriminate|exact H].
Qed.

Lemma actRanged_shape c :
  let res := actRanged w bb c in
  (abilityCount res.2 <= 1)%nat /\ (movementCount res.2 <= 2)%nat
  /\ (movementCount res.2 = 2%nat ->
      exists ch t,
        char w c = Some ch /\ targetOr w bb c Roles.RANGED = Some t
        /\ roaEnemyType (eventObj w t) = Some EnemyMELEE
        /\ ChronoCompat.distTiles (Some ch) (Some (eventObj w t))
           <= AgentConfig.keepDistance (cfg c))
  /\ (forall ch t,
        char w c = Some ch -> targetOr w bb c Roles.RANGED = Some t ->
        roaEnemyType (eventObj w t) = Some EnemyMELEE ->
        ChronoCompat.distTiles (Some ch) (Some (eventObj w t))
          <= AgentConfig.keepDistance (cfg c) ->
        exists d, List.filter isMovement res.2
                  = [MoveAway ch (eventObj w t); MoveStraight ch d])
  /\ (state res.1 = ACQUIRE \/ state res.1 = FOLLOW /\ res.2 = []).
Proof.
  cbv zeta. unfold actRanged.
  destruct (targetOr w bb c Roles.RANGED) as [t|];
    [|simpl; repeat split; auto with lia; discriminate].
  cbv zeta. unfold enemyChar, afterMoveAway.
  assert (Hfire : forall o, fireAttack c o = []
                            \/ exists u id, fireAttack c o = [UseTool u id 0]).
  { intros o. unfold fireAttack, ChronoCompat.tryUseTool.
    repeat case_match; eauto. }
  destruct (char w c) as [ch|].
  2:{ unfold ChronoCompat.moveAway, ChronoCompat.sidestep,
        ChronoCompat.moveToward, abilityCount, movementCount.
      destruct (Hfire None) as [->|(u & id & ->)];
        repeat case_match; simpl; repeat split; auto with lia;
        discriminate. }
  destruct (isEnemyMELEE (roaEnemyType (eventObj w t))
            && (ChronoCompat.distTiles (Some ch) (Some (eventObj w t))
                  <=? AgentConfig.keepDistance (cfg c))) eqn:Hk.
  - apply andb_true_iff in Hk as [Hm Hd]. apply Z.leb_le in Hd.
    assert (Hty : roaEnemyType (eventObj w t) = Some EnemyMELEE).
    { destruct (roaEnemyType (eventObj w t)) as [[]|]; try discriminate.
      reflexivity. }
    unfold ChronoCompat.moveAway, ChronoCompat.sidestep, abilityCount,
      movementCount.
    destruct (Hfire (Some ch)) as [->|(u & id & ->)];
      repeat case_match; simpl; repeat split; auto with lia;
      try (intros _; exists ch, t; by repeat split);
      try (intros ch' t' [= <-] [= <-] _ _; eauto).
  - assert (Hno : forall ch' t', Some ch = Some ch' -> Some t = Some t' ->
        roaEnemyType (eventObj w t') = Some EnemyMELEE ->
        ChronoCompat.distTiles (Some ch') (Some (eventObj w t'))
          <= AgentConfig.keepDistance (cfg c) -> False).
    { intros ch' t' [= <-] [= <-] Hty Hd. rewrite Hty in Hk.
      simpl isEnemyMELEE in Hk. rewrite andb_true_l in Hk.
      apply Z.leb_gt in Hk. lia. }
    unfold ChronoCompat.moveToward, abilityCount, movementCount.
    destruct (Hfire (Some ch)) as [->|(u & id & ->)];
      repeat case_match; simpl; repeat split; auto with lia;
      try discriminate;
      try (intros ch' t' H1 H2 H3 H4; exfalso; by eapply Hno).
Qed.

Lemma actHealer_shape c :
  let res := actHealer CFG w bb c in
  (abilityCount res.2 <= 1)%nat /\ (movementCount res.2 <= 1)%nat
  /\ (length res.2 <= 1)%nat
  /\ (state res.1 = ACQUIRE \/ state res.1 = FOLLOW /\ res.2 = []
      \/ state res.1 = ACT).
Proof.
  cbv zeta. unfold actHealer, abilityCount, movementCount.
  destruct (actor w c) as [ua|]; [|simpl; auto 10 with lia].
  destruct (char w c) as [uc|]; [|simpl; auto 10 with lia].
  cbv zeta.
  destruct (healDue _ (Config.healerCriticalThreshold CFG)) as [id|].
  { rewrite andThen_setState. simpl.
    destruct (doHealerHeal_intents w id (initCombatWindow w bb c))
      as [->|[(?&?&->)|(?&->)]]; simpl; auto 10 with lia. }
  destruct (healDue _ (Config.healerHealThreshold CFG)) as [id|].
  { rewrite andThen_setState. simpl.
    destruct (doHealerHeal_intents w id (initCombatWindow w bb c))
      as [->|[(?&?&->)|(?&->)]]; simpl; auto 10 with lia. }
  destruct (nextBuff CFG bb _) as [next|].
  { rewrite andThen_setState. simpl.
    destruct (doHealerBuff_intents w next (initCombatWindow w bb c))
      as [->|[(?&?&->)|(?&->)]]; simpl; auto 10 with lia. }
  unfold defendOrReposition, ChronoCompat.moveToward, ChronoCompat.moveAway,
    ChronoCompat.tryUseTool, enemyChar.
  repeat case_match; simpl; auto 10 with lia.
Qed.

End ActFacts.

(** C7 (as amended). A think in the ACT state issues at most one ability
    intent and at most two movement intents. It issues two exactly when a
    RANGED agent kites, that is, its character resolves and the enemy it acts
    on is tagged MELEE and stands within its keep-away distance; the two are
    then a move-away from that enemy followed by a sidestep. In every other
    case it issues at most one. Afterwards the controller is in ACQUIRE, or
    in FOLLOW having issued nothing (no target or no handle), or, for a
    HEALER only, still in ACT. *)
Theorem C7_act_intents_and_next_state (CFG : Config.t) (w : World)
    (bb : Blackboard.t) (c : Controller.t) :
  let res := Controller.thinkAct CFG w bb c in
  (abilityCount res.2 <= 1)%nat
  /\ (movementCount res.2 <= 2)%nat
  /\ (movementCount res.2 = 2%nat <-> exists ch t, kites w bb c ch t)
  /\ (forall ch t, kites w bb c ch t ->
      exists d, List.filter isMovement res.2
                = [MoveAway ch (eventObj w t); MoveStraight ch d])
  /\ ((~ exists ch t, kites w bb c ch t) -> (movementCount res.2 <= 1)%nat)
  /\ (Controller.state res.1 = Controller.ACQUIRE
      \/ Controller.state res.1 = Controller.FOLLOW /\ res.2 = []
      \/ Controller.role c = Roles.HEALER
         /\ Controller.state res.1 = Controller.ACT).
Proof.
  cbv zeta.
  assert (Hother : forall res : Controller.t * list Intent,
    Controller.role c <> Roles.RANGED ->
    (abilityCount res.2 <= 1)%nat -> (movementCount res.2 <= 1)%nat ->
    (Controller.state res.1 = Controller.ACQUIRE
      \/ Controller.state res.1 = Controller.FOLLOW /\ res.2 = []
      \/ Controller.role c = Roles.HEALER
         /\ Controller.state res.1 = Controller.ACT) ->
    (abilityCount res.2 <= 1)%nat
    /\ (movementCount res.2 <= 2)%nat
    /\ (movementCount res.2 = 2%nat <-> exists ch t, kites w bb c ch t)
    /\ (forall ch t, kites w bb c ch t ->
        exists d, List.filter isMovement res.2
                  = [MoveAway ch (eventObj w t); MoveStraight ch d])
    /\ ((~ exists ch t, kites w bb c ch t) -> (movementCount res.2 <= 1)%nat)
    /\ (Controller.state res.1 = Controller.ACQUIRE
        \/ Controller.state res.1 = Controller.FOLLOW /\ res.2 = []
        \/ Controller.role c = Roles.HEALER
           /\ Controller.state res.1 = Controller.ACT)).
  { intros res Hr Ha Hm Hs.
    split; [exact Ha|]. split; [lia|]. split; [|split; [|split]].
    - split; [lia|]. intros (ch & t & Hrole & _). contradiction.
    - intros ch t (Hrole & _). contradiction.
    - intros _. exact Hm.
    - exact Hs. }
  unfold Controller.thinkAct. cbv zeta.
  destruct (String.eqb_spec (Controller.role c) Roles.HEALER) as [Hh|Hh].
  { destruct (actHealer_shape CFG w bb c) as (Ha & Hm & _ & Hs).
    apply Hother; [rewrite Hh; discriminate|exact Ha|exact Hm|].
    destruct Hs as [?|[?|?]]; auto. }
  destruct (String.eqb_spec (Controller.role c) Roles.RANGED) as [Hr|Hr].
  { destruct (actRanged_shape w bb c) as (Ha & Hm & Htwo & Hkite & Hs).
    assert (Hiff : movementCount (Controller.actRanged w bb c).2 = 2%nat
                   <-> exists ch t, kites w bb c ch t).
    { split.
      - intros H. destruct (Htwo H) as (ch & t & Hc & Ht & Hty & Hd).
        exists ch, t. unfold kites. rewrite <- (targetOr_actsOn w bb). auto.
      - intros (ch & t & _ & Hc & Ht & Hty & Hd).
        apply (targetOr_actsOn w bb) in Ht.
        destruct (Hkite ch t Hc Ht Hty Hd) as [d Hf].
        unfold movementCount. rewrite Hf. reflexivity. }
    split; [exact Ha|]. split; [exact Hm|]. split; [exact Hiff|].
    split; [|split].
    - intros ch t (_ & Hc & Ht & Hty & Hd). apply (targetOr_actsOn w bb) in Ht.
      by apply Hkite.
    - intros Hno.
      destruct (Nat.eq_dec (movementCount (Controller.actRanged w bb c).2) 2%nat)
        as [H2|H2]; [|lia].
      exfalso. apply Hno, Hiff, H2.
    - destruct Hs as [?|?]; auto. }
  destruct (String.eqb (Controller.role c) Roles.TANK).
  - destruct (actTank_plain w bb c) as (Ha & Hm & Hs).
    apply Hother; [exact Hr|exact Ha|exact Hm|]. destruct Hs as [?|?]; auto.
  - destruct (actMelee_plain w bb c) as (Ha & Hm & Hs).
    apply Hother; [exact Hr|exact Ha|exact Hm|]. destruct Hs as [?|?]; auto.
Qed.

(** C7, the claim as written, fails: a RANGED agent whose MELEE target is at
    distance 2, inside its keep-away distance of 4, issues two movement
    intents in one think, a move-away and a sidestep, besides the attack. *)
Lemma C7_ranged_kiting_moves_twice :
  (Controller.thinkAct sampleCFG kiteScene duoBoard kitingAgent).2
  = [MoveAway origin (mkCharacter 2 0 (Some EnemyMELEE));
     MoveStraight origin 8;
     UseTool origin 5 0]
  /\ movementCount
       (Controller.thinkAct sampleCFG kiteScene duoBoard kitingAgent).2 = 2%nat
  /\ ~ (movementCount
          (Controller.thinkAct sampleCFG kiteScene duoBoard kitingAgent).2
        <= 1)%nat.
Proof.
  split; [vm_compute; reflexivity|]. split; [vm_compute; reflexivity|].
  vm_compute. lia.
Qed.

(** * Further properties *)

(** ** Distances *)

(** X1. On resolved characters [distTiles] is a metric on tiles: never
    negative, symmetric, zero exactly on the same tile, and it satisfies the
    triangle inequality; with either character missing it is the sentinel
    9999. *)
Theorem distTiles_is_a_metric (a b c : Character) :
  0 <= ChronoCompat.distTiles (Some a) (Some b)
  /\ ChronoCompat.distTiles (Some a) (Some b)
     = ChronoCompat.distTiles (Some b) (Some a)
  /\ (ChronoCompat.distTiles (Some a) (Some b) = 0
      <-> cx a = cx b /\ cy a = cy b)
  /\ ChronoCompat.distTiles (Some a) (Some c)
     <= ChronoCompat.distTiles (Some a) (Some b)
        + ChronoCompat.distTiles (Some b) (Some c)
  /\ (forall x, ChronoCompat.distTiles None x = 9999)
  /\ (forall x, ChronoCompat.distTiles x None = 9999).
Proof.
  unfold ChronoCompat.distTiles.
  repeat split; try lia; intros x; by destruct x.
Qed.

(** ** The enemy scan and the frame counters *)

Section ScanFacts.
Import Blackboard.
Variable CFG : Config.t.

Lemma update_enemyScanCd w bb :
  enemyScanCd (update CFG w bb) =
  if enemyScanCd bb <=? 0 then Config.enemyScanInterval CFG
  else enemyScanCd bb - 1.
Proof. unfold update. repeat case_match; reflexivity. Qed.

(** While the countdown lasts the cached list is not touched. *)
Lemma run_keeps_enemies ws : forall bb,
  Z.of_nat (length ws) <= enemyScanCd bb ->
  enemies (run CFG ws bb) = enemies bb
  /\ enemyScanCd (run CFG ws bb) = enemyScanCd bb - Z.of_nat (length ws).
Proof.
  induction ws as [|w ws IH]; intros bb Hlen; simpl run.
  - simpl. split; [reflexivity|lia].
  - simpl length in Hlen.
    destruct (IH (update CFG w bb)) as [He Hc].
    { rewrite update_enemyScanCd.
      destruct (Z.leb_spec (enemyScanCd bb) 0); lia. }
    rewrite He, Hc, update_enemies, update_enemyScanCd.
    destruct (Z.leb_spec (enemyScanCd bb) 0); [lia|].
    split; [reflexivity|]. simpl length. lia.
Qed.

Lemma update_boardInv w bb : boardInv bb -> boardInv (update CFG w bb).
Proof.
  unfold boardInv. intros (Hf & Hs & Ha).
  rewrite update_frame, update_combatStartFrame.
  destruct (combatActive bb) eqn:Hpre,
    (combatActive (update CFG w bb)) eqn:Hpost; simpl;
    repeat split; try lia; intros; try discriminate; auto; lia.
Qed.

Lemma run_boardInv ws : forall bb, boardInv bb -> boardInv (run CFG ws bb).
Proof.
  induction ws as [|w ws IH]; intros bb Hinv; simpl; [exact Hinv|].
  by apply IH, update_boardInv.
Qed.

Lemma new_boardInv : boardInv new.
Proof. unfold boardInv. simpl. repeat split; try lia; try discriminate. Qed.

Lemma run_frame ws : forall bb,
  frame (run CFG ws bb) = frame bb + Z.of_nat (length ws).
Proof.
  induction ws as [|w ws IH]; intros bb; simpl run; simpl length; [lia|].
  rewrite IH, update_frame. lia.
Qed.

End ScanFacts.

(** X2. The enemy list is rescanned when the scan countdown has run out and
    then kept, whatever the host would report, for the next
    [enemyScanInterval] frames; the frame after those rescans. *)
Theorem enemy_scan_schedule (CFG : Config.t) (w : World) (bb : Blackboard.t) :
  (Blackboard.enemyScanCd bb <= 0 ->
     Blackboard.enemies (Blackboard.update CFG w bb) = enemyCharacters w
     /\ Blackboard.enemyScanCd (Blackboard.update CFG w bb)
        = Config.enemyScanInterval CFG)
  /\ (0 < Blackboard.enemyScanCd bb ->
     Blackboard.enemies (Blackboard.update CFG w bb) = Blackboard.enemies bb)
  /\ (forall ws,
     Blackboard.enemyScanCd bb <= 0 ->
     Z.of_nat (length ws) <= Config.enemyScanInterval CFG ->
     Blackboard.enemies (Blackboard.run CFG ws (Blackboard.update CFG w bb))
     = enemyCharacters w)
  /\ (forall ws w',
     Blackboard.enemyScanCd bb <= 0 ->
     Z.of_nat (length ws) = Config.enemyScanInterval CFG ->
     Blackboard.enemies
       (Blackboard.update CFG w'
          (Blackboard.run CFG ws (Blackboard.update CFG w bb)))
     = enemyCharacters w').
Proof.
  assert (Hscan : Blackboard.enemyScanCd bb <= 0 ->
     Blackboard.enemies (Blackboard.update CFG w bb) = enemyCharacters w
     /\ Blackboard.enemyScanCd (Blackboard.update CFG w bb)
        = Config.enemyScanInterval CFG).
  { intros Hcd. rewrite update_enemies, update_enemyScanCd.
    destruct (Z.leb_spec (Blackboard.enemyScanCd bb) 0); [done|lia]. }
  split; [exact Hscan|]. split; [|split].
  - intros Hcd. rewrite update_enemies.
    destruct (Z.leb_spec (Blackboard.enemyScanCd bb) 0); [lia|done].
  - intros ws Hcd Hlen. destruct (Hscan Hcd) as [He Hc].
    destruct (run_keeps_enemies CFG ws (Blackboard.update CFG w bb)) as [Hk _];
      [lia|]. by rewrite Hk.
  - intros ws w' Hcd Hlen. destruct (Hscan Hcd) as [He Hc].
    destruct (run_keeps_enemies CFG ws (Blackboard.update CFG w bb)) as [_ Hk];
      [lia|].
    rewrite update_enemies, Hk.
    destruct (Z.leb_spec (Blackboard.enemyScanCd (Blackboard.update CFG w bb)
                          - Z.of_nat (length ws)) 0); [done|lia].
Qed.

(** X3. After any number of frames from a new blackboard the frame counter
    equals the number of frames, the recorded combat start lies between 0 and
    the current frame, and while combat is active it is at least 1. *)
Theorem blackboard_counters (CFG : Config.t) (ws : list World) :
  let bb := Blackboard.run CFG ws Blackboard.new in
  Blackboard.frame bb = Z.of_nat (length ws)
  /\ 0 <= Blackboard.combatStartFrame bb <= Blackboard.frame bb
  /\ (Blackboard.combatActive bb = true -> 1 <= Blackboard.combatStartFrame bb).
Proof.
  cbv zeta. split; [by rewrite run_frame|].
  destruct (run_boardInv CFG ws Blackboard.new new_boardInv) as (_ & Hs & Ha).
  by split.
Qed.

(** ** The healer script over time *)

Section ScriptFacts.
Import Controller.
Variable CFG : Config.t.
Variable w : World.
Variable bb : Blackboard.t.

Lemma find_first {A} (f : A -> bool) (l : list A) x :
  List.find f l = Some x ->
  exists i : nat, l !! i = Some x /\ f x = true
    /\ forall (j : nat) y, (j < i)%nat -> l !! j = Some y -> f y = false.
Proof.
  induction l as [|a l IH]; simpl; [discriminate|].
  destruct (f a) eqn:Hfa.
  - intros [= <-]. exists 0%nat. repeat split; [exact Hfa|]. intros j y Hj. lia.
  - intros Hfind. destruct (IH Hfind) as (i & Hi & Hfx & Hbefore).
    exists (S i). repeat split; [exact Hi|exact Hfx|].
    intros [|j] y Hj Hy; simpl in Hy; [by injection Hy as <-|].
    apply (Hbefore j); [lia|exact Hy].
Qed.

Lemma find_of_first {A} (f : A -> bool) (l : list A) (i : nat) x :
  l !! i = Some x -> f x = true ->
  (forall (j : nat) y, (j < i)%nat -> l !! j = Some y -> f y = false) ->
  List.find f l = Some x.
Proof.
  revert i. induction l as [|a l IH]; intros i Hi Hfx Hbefore; [discriminate|].
  destruct i as [|i]; simpl in *.
  - injection Hi as ->. by rewrite Hfx.
  - rewrite (Hbefore 0%nat a) by (lia || reflexivity).
    apply (IH i Hi Hfx). intros j y Hj Hy. apply (Hbefore (S j)); [lia|exact Hy].
Qed.

Lemma find_none_all {A} (f : A -> bool) (l : list A) :
  (forall y, In y l -> f y = false) -> List.find f l = None.
Proof.
  induction l as [|a l IH]; intros Hall; simpl; [reflexivity|].
  rewrite (Hall a) by (left; reflexivity). apply IH. intros y Hy.
  apply Hall. by right.
Qed.

Lemma thinkFollow_script c : script (thinkFollow w bb c).1 = script c.
Proof. unfold thinkFollow. repeat case_match; reflexivity. Qed.

Lemma thinkHold_script c : script (thinkHold w bb c).1 = script c.
Proof. unfold thinkHold. repeat case_match; reflexivity. Qed.

Lemma thinkRecover_script c : script (thinkRecover w c).1 = script c.
Proof. unfold thinkRecover. repeat case_match; reflexivity. Qed.

Lemma thinkAcquire_script c : script (thinkAcquire w bb c).1 = script c.
Proof. unfold thinkAcquire. repeat case_match; reflexivity. Qed.

Lemma actRanged_script c : script (actRanged w bb c).1 = script c.
Proof. unfold actRanged. repeat case_match; reflexivity. Qed.

Lemma actMelee_script c : script (actMelee w bb c).1 = script c.
Proof. unfold actMelee. repeat case_match; reflexivity. Qed.

Lemma actTank_script c : script (actTank w bb c).1 = script c.
Proof. unfold actTank. cbv zeta. repeat case_match; reflexivity. Qed.

Lemma nextBuff_needs_combat c :
  Blackboard.combatActive bb = false -> nextBuff CFG bb c = None.
Proof. intros H. unfold nextBuff. by rewrite H. Qed.

Lemma newCombatWindow_needs_combat c :
  Blackboard.combatActive bb = false -> newCombatWindow bb c = false.
Proof. intros H. unfold newCombatWindow. by rewrite H. Qed.

(** Out of combat a healer act neither rebuilds nor marks. *)
Lemma actHealer_script_idle c :
  Blackboard.combatActive bb = false ->
  script (actHealer CFG w bb c).1 = script c.
Proof.
  intros Hidle. unfold actHealer.
  destruct (actor w c) as [ua|]; [|reflexivity].
  destruct (char w c) as [uc|]; [|reflexivity].
  cbv zeta. unfold initCombatWindow.
  rewrite (newCombatWindow_needs_combat c Hidle).
  rewrite (nextBuff_needs_combat c Hidle).
  destruct (healDue _ (Config.healerCriticalThreshold CFG)) as [id|].
  { by rewrite andThen_setState, doHealerHeal_controller. }
  destruct (healDue _ (Config.healerHealThreshold CFG)) as [id|].
  { by rewrite andThen_setState, doHealerHeal_controller. }
  destruct (defendOrReposition_frame w bb uc c) as (Hq & Hs & _ & Hb).
  unfold script. by rewrite Hq, Hs, Hb.
Qed.

Lemma thinkAct_script_idle c :
  Blackboard.combatActive bb = false ->
  script (thinkAct CFG w bb c).1 = script c.
Proof.
  intros Hidle. unfold thinkAct. cbv zeta.
  repeat case_match;
    auto using actHealer_script_idle, actRanged_script, actTank_script,
      actMelee_script.
Qed.

End ScriptFacts.

(** X4. On a blackboard that started new and now reports combat, a healer
    whose recorded start frame is still 0 (just created, or reset while out
    of combat) rebuilds its queue on its first act: the recorded frame can
    never equal the start frame of a combat, which is at least 1. *)
Theorem first_act_in_combat_rebuilds (CFG : Config.t) (ws : list World)
    (w : World) (c : Controller.t) (ua : Actor) (uc : Character)
    (Hcombat : Blackboard.combatActive (Blackboard.run CFG ws Blackboard.new)
               = true)
    (Hseen : Controller.combatStartFrameSeen c = 0)
    (Hactor : Controller.actor w c = Some ua)
    (Hchar : Controller.char w c = Some uc) :
  let bb := Blackboard.run CFG ws Blackboard.new in
  let c' := (Controller.actHealer CFG w bb c).1 in
  Controller.buffQueue c' = Controller.buildHealerBuffQueue w
  /\ Controller.combatStartFrameSeen c' = Blackboard.combatStartFrame bb
  /\ 1 <= Controller.combatStartFrameSeen c'.
Proof.
  cbv zeta. set (bb := Blackboard.run CFG ws Blackboard.new) in *.
  destruct (run_boardInv CFG ws Blackboard.new new_boardInv) as (_ & _ & Ha).
  fold bb in Ha. specialize (Ha Hcombat).
  destruct (actHealer_script CFG w bb c ua uc Hactor Hchar) as (Hq & Hs & _).
  rewrite Hq, Hs.
  assert (Hnew : Controller.newCombatWindow bb c = true).
  { unfold Controller.newCombatWindow. rewrite Hcombat, Hseen.
    destruct (Z.eqb_spec 0 (Blackboard.combatStartFrame bb)); [lia|done]. }
  unfold Controller.initCombatWindow. rewrite Hnew. simpl.
  repeat split. exact Ha.
Qed.

Lemma first_act_in_combat_witness :
  Controller.buffQueue
    (Controller.actHealer sampleCFG (approachScene 6)
       (Blackboard.run sampleCFG [approachScene 10; approachScene 6]
          Blackboard.new) freshHealer).1 = [1; 2].
Proof.
  refine (eq_trans (proj1 (first_act_in_combat_rebuilds sampleCFG
    [approachScene 10; approachScene 6] (approachScene 6) freshHealer
    (sampleActor "HEALER" 100) origin _ _ _ _)) _);
    vm_compute; reflexivity.
Defined.

(** X5. A think made while the blackboard reports no combat leaves the healer
    script empty, whatever the controller's state and role: no queue, no
    marks, recorded start frame 0. *)
Theorem idle_think_clears_script (CFG : Config.t) (w : World)
    (bb : Blackboard.t) (c : Controller.t) (ch : Character)
    (Hidle : Blackboard.combatActive bb = false)
    (Hruns : runs CFG w c) (Hchar : Controller.char w c = Some ch)
    (Hcd : Controller.thinkCd c <= 0) :
  script (Controller.update CFG w bb c).1 = (∅, [], 0).
Proof.
  rewrite (update_runs CFG w bb c ch Hruns Hchar).
  destruct (Z.ltb_spec 0 (Controller.thinkCd c)); [lia|].
  unfold Controller.think. cbv zeta. rewrite Hidle. simpl negb. cbv iota.
  set (c3 := Controller.set_healerScript ∅ [] 0 _).
  assert (Hc3 : script c3 = (∅, [], 0)) by reflexivity.
  destruct (Controller.state c3);
    rewrite ?thinkFollow_script, ?thinkAcquire_script,
      ?(thinkAct_script_idle CFG w bb c3 Hidle), ?thinkRecover_script,
      ?thinkHold_script; exact Hc3.
Qed.

Lemma idle_think_clears_script_witness :
  script (Controller.update sampleCFG duoScene Blackboard.new
            (Controller.set_healerScript {[1]} [1; 2] 5
               (sampleController 2 "HEALER" 0 Controller.ACT))).1
  = (∅, [], 0).
Proof.
  refine (idle_think_clears_script sampleCFG duoScene Blackboard.new _
            (mkCharacter 0 1 None) _ _ _ _).
  - reflexivity.
  - repeat split; eexists; vm_compute; reflexivity.
  - vm_compute. reflexivity.
  - vm_compute. discriminate.
Defined.

Lemma newCombatWindow_true bb c :
  Controller.newCombatWindow bb c = true <->
  Blackboard.combatActive bb = true
  /\ Controller.combatStartFrameSeen c <> Blackboard.combatStartFrame bb.
Proof.
  unfold Controller.newCombatWindow.
  rewrite andb_true_iff, negb_true_iff, Z.eqb_neq. reflexivity.
Qed.

(** X26. When every party member carries one of the four role names, the
    queue a healer builds is the leader followed by the melee and tank ids,
    the ranged ids and the healer ids (the acting healer included), each
    group in roster order and without the leader. A healer act rebuilds the
    queue, clearing the buffed set and recording the combat start frame,
    exactly when the healer's handles resolve, combat is active and the
    recorded start frame differs from the blackboard's; that is also exactly
    when the recorded start frame changes during the act. Without a rebuild
    the queue is kept and no mark is removed from the buffed set. *)
Theorem buff_queue_order_and_rebuild (CFG : Config.t) (w : World)
    (bb : Blackboard.t) (c : Controller.t)
    (Hleader : leaderId w <> 0) (Hroles : rolesKnown w) :
  let c' := (Controller.actHealer CFG w bb c).1 in
  let due :=
    is_Some (Controller.actor w c) /\ is_Some (Controller.char w c)
    /\ Blackboard.combatActive bb = true
    /\ Controller.combatStartFrameSeen c <> Blackboard.combatStartFrame bb in
  Controller.buildHealerBuffQueue w = allHealersBuffQueue w
  /\ (Controller.combatStartFrameSeen c' <> Controller.combatStartFrameSeen c
      <-> due)
  /\ (due ->
      Controller.buffQueue c' = allHealersBuffQueue w
      /\ Controller.combatStartFrameSeen c' = Blackboard.combatStartFrame bb
      /\ (Controller.buffedThisCombat c' = ∅
          \/ exists x, x ∈ allHealersBuffQueue w
               /\ Controller.buffedThisCombat c' = {[x]}))
  /\ (~ due ->
      Controller.buffQueue c' = Controller.buffQueue c
      /\ Controller.buffedThisCombat c ⊆ Controller.buffedThisCombat c').
Proof.
  intros c' due. subst c' due.
  assert (Hbuild : Controller.buildHealerBuffQueue w = allHealersBuffQueue w).
  { rewrite buildHealerBuffQueue_filter. unfold allHealersBuffQueue.
    destruct (groups_agree_when_known w Hroles) as (-> & -> & ->).
    destruct (Z.eqb_spec (leaderId w) 0); [contradiction|reflexivity]. }
  split; [exact Hbuild|]. rewrite <- Hbuild.
  destruct (Controller.actor w c) as [ua|] eqn:Ha; cycle 1.
  { rewrite actHealer_unresolved by auto. simpl.
    split; [split; [congruence|intros [[? [=]] _]]|].
    split; [intros [[? [=]] _]|]. intros _. split; [reflexivity|set_solver]. }
  destruct (Controller.char w c) as [uc|] eqn:Hc; cycle 1.
  { rewrite actHealer_unresolved by auto. simpl.
    split; [split; [congruence|intros (_ & [? [=]] & _)]|].
    split; [intros (_ & [? [=]] & _)|]. intros _. split; [reflexivity|set_solver]. }
  destruct (actHealer_script CFG w bb c ua uc Ha Hc) as (Hq & Hs & _ & Hb).
  rewrite Hq, Hs.
  destruct (initCombatWindow_cases w bb c)
    as [(Hnew & Hinit & Hne)|(Hnew & Hinit)]; rewrite Hinit in *.
  - apply newCombatWindow_true in Hnew as [Hon _].
    simpl in *. split; [|split].
    + split; [eauto 6|]. intros _. congruence.
    + intros _. split; [reflexivity|]. split; [reflexivity|].
      destruct Hb as [Hb|(x & Hx & Hb)]; [by left|right].
      exists x. split; [exact Hx|]. rewrite Hb. apply union_empty_r_L.
    + intros Hno. exfalso. apply Hno. eauto 6.
  - assert (Hnot : ~ (Blackboard.combatActive bb = true
                      /\ Controller.combatStartFrameSeen c
                         <> Blackboard.combatStartFrame bb)).
    { intros H. apply newCombatWindow_true in H. congruence. }
    split; [|split].
    + split; [congruence|]. intros (_ & _ & H1 & H2). exfalso. auto.
    + intros (_ & _ & H1 & H2). exfalso. auto.
    + intros _. split; [reflexivity|].
      destruct Hb as [->|(x & _ & ->)]; set_solver.
Qed.

Lemma buff_queue_order_and_rebuild_witness :
  leaderId duoScene <> 0 /\ rolesKnown duoScene
  /\ Controller.buildHealerBuffQueue duoScene = allHealersBuffQueue duoScene.
Proof.
  assert (H1 : leaderId duoScene <> 0) by (vm_compute; discriminate).
  assert (H2 : rolesKnown duoScene) by (vm_compute; reflexivity).
  split; [exact H1|]. split; [exact H2|].
  exact (proj1 (buff_queue_order_and_rebuild sampleCFG duoScene duoBoard
                  (sampleController 2 "HEALER" 0 Controller.ACT) H1 H2)).
Defined.

Lemma nextBuff_of_first CFG bb c x :
  Blackboard.combatActive bb = true ->
  Blackboard.frame bb - Blackboard.combatStartFrame bb
    <= Config.healerBuffWindowFrames CFG ->
  x <> 0 ->
  firstUnmarked (Controller.buffedThisCombat c) (Controller.buffQueue c) x ->
  Controller.nextBuff CFG bb c = Some x.
Proof.
  intros Hon Hwin Hx (i & Hi & Hfree & Hbefore). unfold Controller.nextBuff.
  rewrite Hon, (proj2 (Z.leb_le _ _) Hwin). simpl.
  rewrite (find_of_first _ _ i x Hi).
  - destruct (Z.eqb_spec x 0); [contradiction|reflexivity].
  - by apply negb_true_iff, bool_decide_eq_false.
  - intros j y Hj Hy. apply negb_false_iff, bool_decide_eq_true. eauto.
Qed.

Lemma nextBuff_none CFG bb c :
  Blackboard.combatActive bb = false
  \/ Config.healerBuffWindowFrames CFG
       < Blackboard.frame bb - Blackboard.combatStartFrame bb
  \/ (forall y, y ∈ Controller.buffQueue c ->
                y ∈ Controller.buffedThisCombat c) ->
  Controller.nextBuff CFG bb c = None.
Proof.
  unfold Controller.nextBuff. intros [->|[Hlate|Hall]]; [reflexivity| |].
  - rewrite (proj2 (Z.leb_gt _ _) Hlate). by rewrite andb_false_r.
  - destruct (_ && _); [|reflexivity].
    rewrite find_none_all; [reflexivity|].
    intros y Hy. apply negb_false_iff, bool_decide_eq_true, Hall.
    by apply list_elem_of_In.
Qed.

(** X6. The next ally to buff is chosen exactly inside the buff window of an
    active combat, and it is the first queue entry without a mark, provided
    that entry is not the id 0: a marked ally is never chosen again, and
    nothing is chosen out of combat, after the window, when every queued ally
    is marked, or when the first unmarked entry is 0. *)
Theorem next_buff_is_first_unmarked (CFG : Config.t) (bb : Blackboard.t)
    (c : Controller.t) :
  (forall x, Controller.nextBuff CFG bb c = Some x <->
     Blackboard.combatActive bb = true
     /\ Blackboard.frame bb - Blackboard.combatStartFrame bb
        <= Config.healerBuffWindowFrames CFG
     /\ x <> 0
     /\ firstUnmarked (Controller.buffedThisCombat c) (Controller.buffQueue c) x)
  /\ (Blackboard.combatActive bb = false ->
      Controller.nextBuff CFG bb c = None)
  /\ (Config.healerBuffWindowFrames CFG
        < Blackboard.frame bb - Blackboard.combatStartFrame bb ->
      Controller.nextBuff CFG bb c = None)
  /\ ((forall y, y ∈ Controller.buffQueue c ->
                 y ∈ Controller.buffedThisCombat c) ->
      Controller.nextBuff CFG bb c = None)
  /\ (firstUnmarked (Controller.buffedThisCombat c) (Controller.buffQueue c) 0
      -> Controller.nextBuff CFG bb c = None).
Proof.
  assert (Hfind : forall x,
    firstUnmarked (Controller.buffedThisCombat c) (Controller.buffQueue c) x ->
    List.find (fun id => negb (bool_decide (id ∈ Controller.buffedThisCombat c)))
      (Controller.buffQueue c) = Some x).
  { intros x (i & Hi & Hx & Hbefore). apply (find_of_first _ _ i x Hi).
    - by apply negb_true_iff, bool_decide_eq_false.
    - intros j y Hj Hy. apply negb_false_iff, bool_decide_eq_true. eauto. }
  unfold Controller.nextBuff. split; [|split; [|split; [|split]]].
  - intros x. split.
    + destruct (Blackboard.combatActive bb); [|discriminate].
      destruct (Z.leb_spec
                  (Blackboard.frame bb - Blackboard.combatStartFrame bb)
                  (Config.healerBuffWindowFrames CFG)); [|discriminate].
      simpl. destruct (List.find _ _) as [n|] eqn:Hf; [|discriminate].
      destruct (Z.eqb_spec n 0); [discriminate|]. intros [= <-].
      apply find_first in Hf as (i & Hi & Hfx & Hbefore).
      repeat split; try done. exists i. split; [exact Hi|]. split.
      * apply negb_true_iff, bool_decide_eq_false in Hfx. exact Hfx.
      * intros j y Hj Hy. specialize (Hbefore j y Hj Hy).
        apply negb_false_iff, bool_decide_eq_true in Hbefore. exact Hbefore.
    + intros (Hon & Hwin & Hx & Hfirst). rewrite Hon.
      rewrite (proj2 (Z.leb_le _ _) Hwin). simpl. rewrite (Hfind x Hfirst).
      destruct (Z.eqb_spec x 0); [contradiction|reflexivity].
  - intros ->. reflexivity.
  - intros Hlate. destruct (Blackboard.combatActive bb); [|reflexivity].
    destruct (Z.leb_spec (Blackboard.frame bb - Blackboard.combatStartFrame bb)
                (Config.healerBuffWindowFrames CFG)); [lia|reflexivity].
  - intros Hall. destruct (_ && _); [|reflexivity].
    rewrite find_none_all; [reflexivity|].
    intros y Hy. apply negb_false_iff, bool_decide_eq_true, Hall.
    by apply list_elem_of_In.
  - intros Hzero. destruct (_ && _); [|reflexivity].
    rewrite (Hfind 0 Hzero). reflexivity.
Qed.

(** ** Heal and buff execution *)

(** X7. With the target's character resolved, the heal and the buff routine
    are gated by the preferred range: farther than that they only move toward
    the ally and leave the controller as it was (no tool, no mark); within it
    they trigger the tool at once, and after the buff the ally is in the
    buffed set, which is the old set with the ally added, the rest of the
    controller being unchanged. Without a heal or attack tool the heal
    routine does nothing, and without a buff tool the buff routine does
    nothing. *)
Theorem support_range_gate (w : World) (c : Controller.t)
    (ua ta : Actor) (uc tc : Character) (tid : Z)
    (Hactor : Controller.actor w c = Some ua)
    (Hchar : Controller.char w c = Some uc)
    (Htarget : gameActors w !! tid = Some ta)
    (Htchar : characterForActorId w tid = Some tc) :
  let d := ChronoCompat.distTiles (Some uc) (Some tc) in
  let range := AgentConfig.preferredRange (Controller.cfg c) in
  let heal := AgentConfig.toolHeal (Controller.cfg c) in
  let attack := AgentConfig.toolAttack (Controller.cfg c) in
  let buff := AgentConfig.toolBuff (Controller.cfg c) in
  (range < d -> heal <> 0 \/ attack <> 0 ->
     Controller.doHealerHeal w tid c = (c, [MoveToward uc tc]))
  /\ (range < d -> buff <> 0 ->
     Controller.doHealerBuff w tid c = (c, [MoveToward uc tc]))
  /\ (d <= range -> 0 < heal ->
     Controller.doHealerHeal w tid c = (c, [UseTool uc heal 1]))
  /\ (d <= range -> heal <= 0 -> Controller.doHealerHeal w tid c = (c, []))
  /\ (d <= range -> buff <> 0 ->
     (Controller.doHealerBuff w tid c).2 = [UseTool uc buff 1]
     /\ tid ∈ Controller.buffedThisCombat (Controller.doHealerBuff w tid c).1
     /\ (Controller.doHealerBuff w tid c).1
        = Controller.mk (Controller.actorId c) (Controller.cfg c)
            (Controller.thinkCd c) (Controller.state c) (Controller.target c)
            ({[tid]} ∪ Controller.buffedThisCombat c)
            (Controller.buffQueue c) (Controller.combatStartFrameSeen c))
  /\ (heal = 0 -> attack = 0 -> Controller.doHealerHeal w tid c = (c, []))
  /\ (buff = 0 -> Controller.doHealerBuff w tid c = (c, [])).
Proof.
  cbv zeta. unfold Controller.doHealerHeal, Controller.doHealerBuff.
  rewrite Hactor, Hchar, Htarget, Htchar.
  assert (Hsome : bool_decide (is_Some (Some tc)) = true)
    by (apply bool_decide_eq_true; eauto).
  rewrite Hsome. simpl andb. unfold ChronoCompat.tryUseTool.
  assert (Hin : tid ∈ ({[tid]} ∪ Controller.buffedThisCombat c : gset Z))
    by (apply elem_of_union_l, elem_of_singleton; reflexivity).
  repeat split; intros; unfold ChronoCompat.distTiles in *;
    repeat match goal with
    | |- context [Z.eqb ?a ?b] => destruct (Z.eqb_spec a b); try lia
    | |- context [Z.ltb ?a ?b] => destruct (Z.ltb_spec a b); try lia
    end; simpl; try reflexivity; try lia; try exact Hin.
Qed.

(** The healer of the spread scene moves toward the tank six tiles away,
    heals the ranged ally two tiles away, and buffs and marks that ally. *)
Lemma support_range_gate_witness :
  Controller.doHealerHeal spreadScene 3 freshHealer
  = (freshHealer, [MoveToward (mkCharacter 0 0 None) (mkCharacter 6 0 None)])
  /\ Controller.doHealerHeal spreadScene 4 freshHealer
     = (freshHealer, [UseTool (mkCharacter 0 0 None) 12 1])
  /\ (Controller.doHealerBuff spreadScene 4 freshHealer).2
     = [UseTool (mkCharacter 0 0 None) 13 1]
  /\ 4 ∈ Controller.buffedThisCombat
           (Controller.doHealerBuff spreadScene 4 freshHealer).1.
Proof.
  pose proof (support_range_gate spreadScene freshHealer
      (mkActor false 100 (Controller.cfg freshHealer))
      (mkActor false 50
         (AgentConfig.mk true "TANK" "AGGRESSIVE" 6 10 4 4 5 5 0 0 0))
      (mkCharacter 0 0 None) (mkCharacter 6 0 None) 3
      eq_refl eq_refl eq_refl eq_refl) as (Hfar & _).
  pose proof (support_range_gate spreadScene freshHealer
      (mkActor false 100 (Controller.cfg freshHealer))
      (mkActor false 90
         (AgentConfig.mk true "RANGED" "AGGRESSIVE" 6 10 4 4 5 5 0 0 0))
      (mkCharacter 0 0 None) (mkCharacter 0 2 None) 4
      eq_refl eq_refl eq_refl eq_refl) as (_ & _ & Hheal & _ & Hbuff & _).
  split; [apply Hfar; [vm_compute; reflexivity|left; discriminate]|].
  split; [apply Hheal; [vm_compute; discriminate|reflexivity]|].
  destruct Hbuff as (Hout & Hmark & _);
    [vm_compute; discriminate|discriminate|].
  split; [exact Hout|exact Hmark].
Defined.

(** ** Healer triage *)

(** X8. [lowestHpAlly] returns the first party member, in roster order, that
    exists, is alive and has the least HP percentage among the living, with
    that percentage; it returns nothing exactly when no party member is
    alive. Dead or missing members are never returned. *)
Theorem lowest_hp_ally_is_first_lowest (w : World) :
  match Controller.lowestHpAlly w with
  | Some (id, pct) => firstLowest w (partyActorIds w) id pct
  | None => forall id, id ∈ partyActorIds w -> livingPct w id = None
  end.
Proof.
  pose proof (lowestHpAlly_spec w) as H. unfold lowestPost in H.
  destruct (Controller.lowestHpAlly w) as [[id pct]|]; exact H.
Qed.

Lemma doHealerBuff_with_tool w tid c uc ua ta :
  Controller.char w c = Some uc -> Controller.actor w c = Some ua ->
  gameActors w !! tid = Some ta ->
  AgentConfig.toolBuff (Controller.cfg c) <> 0 ->
  match characterForActorId w tid with
  | Some tc =>
      ChronoCompat.distTiles (Some uc) (Some tc)
      <= AgentConfig.preferredRange (Controller.cfg c)
  | None => True
  end ->
  Controller.doHealerBuff w tid c =
  (Controller.set_buffedThisCombat
     ({[tid]} ∪ Controller.buffedThisCombat c) c,
   [UseTool uc (AgentConfig.toolBuff (Controller.cfg c)) 1]).
Proof.
  intros Hc Ha Ht Htool Hnear. unfold Controller.doHealerBuff.
  rewrite Hc, Ha, Ht. unfold ChronoCompat.tryUseTool.
  destruct (Z.eqb_spec (AgentConfig.toolBuff (Controller.cfg c)) 0);
    [contradiction|].
  destruct (characterForActorId w tid) as [tc|]; simpl; [|reflexivity].
  destruct (Z.ltb_spec (AgentConfig.preferredRange (Controller.cfg c))
              (Z.abs (cx uc - cx tc) + Z.abs (cy uc - cy tc)));
    [|reflexivity].
  unfold ChronoCompat.distTiles in Hnear. lia.
Qed.

(** X9. The healer's decision order, for a healer with a heal and a buff
    tool that has already recorded this combat's start frame. An ally is in
    reach when its character is within the preferred range or is not
    resolved. (a) When the lowest living ally is at or below the heal
    threshold (or the critical one) and in reach, the healer uses the heal
    tool and marks nobody. (b) When no living ally is that low, combat is
    active, the buff window is open and the first unmarked queue entry is an
    existing actor in reach, the healer uses the buff tool and that ally is
    marked. (c) When nobody is to be healed or buffed, nobody is marked: with
    an enemy within two tiles the healer uses its defend tool, else its
    attack tool, else moves away from the first such enemy, and stays in ACT;
    with none it moves toward the player when farther than three tiles and
    goes to ACQUIRE. *)
Theorem healer_decision_order (CFG : Config.t) (w : World) (bb : Blackboard.t)
    (c : Controller.t) (ua : Actor) (uc : Character)
    (Hactor : Controller.actor w c = Some ua)
    (Hchar : Controller.char w c = Some uc)
    (Hseen : Controller.combatStartFrameSeen c = Blackboard.combatStartFrame bb)
    (Hheal : 0 < AgentConfig.toolHeal (Controller.cfg c))
    (Hbuff : AgentConfig.toolBuff (Controller.cfg c) <> 0) :
  let res := Controller.actHealer CFG w bb c in
  let cfg := Controller.cfg c in
  let inReach (id : Z) :=
    match characterForActorId w id with
    | Some tc =>
        ChronoCompat.distTiles (Some uc) (Some tc)
        <= AgentConfig.preferredRange cfg
    | None => True
    end in
  let nobodyLow :=
    match Controller.lowestHpAlly w with
    | Some (_, pct) =>
        (inject_Z (Config.healerHealThreshold CFG) < pct)%Q
        /\ (inject_Z (Config.healerCriticalThreshold CFG) < pct)%Q
    | None => True
    end in
  let nobodyToBuff :=
    Blackboard.combatActive bb = false
    \/ Config.healerBuffWindowFrames CFG
         < Blackboard.frame bb - Blackboard.combatStartFrame bb
    \/ (forall y, y ∈ Controller.buffQueue c ->
                  y ∈ Controller.buffedThisCombat c) in
  (forall id pct, Controller.lowestHpAlly w = Some (id, pct) ->
     (pct <= inject_Z (Config.healerHealThreshold CFG))%Q
     \/ (pct <= inject_Z (Config.healerCriticalThreshold CFG))%Q ->
     inReach id ->
     res.2 = [UseTool uc (AgentConfig.toolHeal cfg) 1]
     /\ Controller.state res.1 = Controller.ACT
     /\ Controller.buffedThisCombat res.1 = Controller.buffedThisCombat c)
  /\ (forall x ta, nobodyLow ->
     Blackboard.combatActive bb = true ->
     Blackboard.frame bb - Blackboard.combatStartFrame bb
       <= Config.healerBuffWindowFrames CFG ->
     firstUnmarked (Controller.buffedThisCombat c) (Controller.buffQueue c) x ->
     x <> 0 -> gameActors w !! x = Some ta -> inReach x ->
     res.2 = [UseTool uc (AgentConfig.toolBuff cfg) 1]
     /\ Controller.state res.1 = Controller.ACT
     /\ x ∈ Controller.buffedThisCombat res.1
     /\ Controller.buffedThisCombat res.1
        = {[x]} ∪ Controller.buffedThisCombat c
     /\ Controller.buffQueue res.1 = Controller.buffQueue c)
  /\ (nobodyLow -> nobodyToBuff ->
     Controller.buffedThisCombat res.1 = Controller.buffedThisCombat c
     /\ (forall e, firstWithin w uc 2 (Blackboard.enemies bb) e ->
           Controller.state res.1 = Controller.ACT
           /\ res.2 =
              if 0 <? AgentConfig.toolDefend cfg
              then [UseTool uc (AgentConfig.toolDefend cfg) 0]
              else if 0 <? AgentConfig.toolAttack cfg
              then [UseTool uc (AgentConfig.toolAttack cfg) 0]
              else [MoveAway uc (eventObj w e)])
     /\ ((forall e, e ∈ Blackboard.enemies bb ->
            2 < ChronoCompat.distTiles (Some uc) (Some (eventObj w e))) ->
         Controller.state res.1 = Controller.ACQUIRE
         /\ res.2 =
            match gamePlayer w with
            | Some p =>
                if 3 <? ChronoCompat.distTiles (Some uc) (Some p)
                then [MoveToward uc p] else []
            | None => []
            end)).
Proof.
  cbv zeta.
  assert (Hle : forall p t, (p <= inject_Z t)%Q -> Qle_bool p (inject_Z t) = true)
    by (intros; by apply Qle_bool_iff).
  assert (Hgt : forall p t, (inject_Z t < p)%Q -> Qle_bool p (inject_Z t) = false).
  { intros p t Hlt. apply not_true_is_false. intros Hb.
    apply Qle_bool_iff in Hb. by apply Qlt_not_le in Hlt. }
  assert (Hinit : Controller.initCombatWindow w bb c = c).
  { unfold Controller.initCombatWindow, Controller.newCombatWindow.
    rewrite Hseen, Z.eqb_refl. by rewrite andb_false_r. }
  assert (Hnone : match Controller.lowestHpAlly w with
                  | Some (_, pct) =>
                      (inject_Z (Config.healerHealThreshold CFG) < pct)%Q
                      /\ (inject_Z (Config.healerCriticalThreshold CFG) < pct)%Q
                  | None => True
                  end ->
    Controller.healDue (Controller.lowestHpAlly w)
      (Config.healerCriticalThreshold CFG) = None
    /\ Controller.healDue (Controller.lowestHpAlly w)
         (Config.healerHealThreshold CFG) = None).
  { unfold Controller.healDue.
    destruct (Controller.lowestHpAlly w) as [[id pct]|]; [|done].
    intros [H1 H2]. by rewrite (Hgt _ _ H1), (Hgt _ _ H2). }
  unfold Controller.actHealer. rewrite Hactor, Hchar. cbv zeta. rewrite Hinit.
  split; [|split].
  - intros id pct Hlow Hdue Hreach.
    assert (Hspec := lowestHpAlly_spec w). rewrite Hlow in Hspec.
    destruct Hspec as (i & _ & Hliving & _). unfold livingPct in Hliving.
    destruct (gameActors w !! id) as [ta|] eqn:Hta; [|discriminate].
    assert (Hout : (Controller.doHealerHeal w id c).2
                   = [UseTool uc (AgentConfig.toolHeal (Controller.cfg c)) 1]).
    { rewrite (doHealerHeal_with_tool w id c uc ua ta Hchar Hactor Hta Hheal).
      destruct (characterForActorId w id) as [tc|]; [|reflexivity].
      destruct (Z.ltb_spec (AgentConfig.preferredRange (Controller.cfg c))
                  (ChronoCompat.distTiles (Some uc) (Some tc)));
        [lia|reflexivity]. }
    rewrite Hlow. unfold Controller.healDue.
    destruct (Qle_bool pct (inject_Z (Config.healerCriticalThreshold CFG)))
      eqn:Hcrit.
    + rewrite andThen_setState, doHealerHeal_controller, Hout. done.
    + destruct Hdue as [Hh|Hcr]; [|apply Hle in Hcr; congruence].
      rewrite (Hle _ _ Hh).
      rewrite andThen_setState, doHealerHeal_controller, Hout. done.
  - intros x ta Hlow Hon Hwin Hfirst Hx Hta Hreach.
    destruct (Hnone Hlow) as [-> ->].
    rewrite (nextBuff_of_first CFG bb c x Hon Hwin Hx Hfirst).
    rewrite andThen_setState.
    rewrite (doHealerBuff_with_tool w x c uc ua ta Hchar Hactor Hta Hbuff Hreach).
    simpl. repeat split.
    apply elem_of_union_l, elem_of_singleton. reflexivity.
  - intros Hlow Hnobody. destruct (Hnone Hlow) as [-> ->].
    rewrite (nextBuff_none CFG bb c Hnobody).
    unfold Controller.defendOrReposition, Controller.enemyChar.
    split; [by destruct (List.find _ _)|]. split.
    + intros e (i & Hi & Hin & Hbefore).
      rewrite (find_of_first _ _ i e Hi);
        [|by apply Z.leb_le
         |intros j e' Hj He'; apply Z.leb_gt; by eapply Hbefore].
      split; [reflexivity|]. simpl snd.
      unfold ChronoCompat.tryUseTool, ChronoCompat.moveAway.
      repeat match goal with
      | |- context [Z.ltb ?a ?b] => destruct (Z.ltb_spec a b)
      | |- context [Z.eqb ?a ?b] => destruct (Z.eqb_spec a b); try lia
      end; reflexivity.
    + intros Hfar. rewrite find_none_all.
      2:{ intros e He. apply Z.leb_gt, Hfar. by apply list_elem_of_In. }
      split; [reflexivity|]. simpl snd. unfold ChronoCompat.moveToward.
      destruct (gamePlayer w) as [p|]; [reflexivity|].
      by destruct (3 <? _).
Qed.

(** The healer of the duo, combat recorded and nobody hurt, buffs the leader
    at the head of its queue, whose character is not resolved, and marks it. *)
Lemma healer_decision_order_witness :
  (Controller.actHealer sampleCFG duoScene duoBoard
     (Controller.set_healerScript ∅ [1; 2] 5
        (sampleController 2 "HEALER" 0 Controller.ACT))).2
  = [UseTool (mkCharacter 0 1 None) 13 1]
  /\ 1 ∈ Controller.buffedThisCombat
           (Controller.actHealer sampleCFG duoScene duoBoard
              (Controller.set_healerScript ∅ [1; 2] 5
                 (sampleController 2 "HEALER" 0 Controller.ACT))).1.
Proof.
  destruct (proj1 (proj2 (healer_decision_order sampleCFG duoScene duoBoard
    (Controller.set_healerScript ∅ [1; 2] 5
       (sampleController 2 "HEALER" 0 Controller.ACT))
    (sampleActor "HEALER" 100) (mkCharacter 0 1 None)
    eq_refl eq_refl eq_refl eq_refl ltac:(discriminate)))
    1 (sampleActor "MELEE" 100)) as (Hout & _ & Hmark & _).
  - vm_compute. split; reflexivity.
  - reflexivity.
  - vm_compute. discriminate.
  - exists 0%nat. split; [reflexivity|]. split; [apply not_elem_of_empty|].
    intros j y Hj. lia.
  - discriminate.
  - reflexivity.
  - exact I.
  - split; [exact Hout|exact Hmark].
Defined.

(** ** The controller's state machine *)

Ltac in_list :=
  repeat first [apply list_elem_of_here | apply list_elem_of_further].

Section FsmFacts.
Import Controller.
Variable CFG : Config.t.
Variable w : World.
Variable bb : Blackboard.t.

(** The controller a think hands to the state function: countdown reset,
    then RECOVER without target when leashed, then the script cleared when
    out of combat. *)
Lemma think_prepared ch c :
  exists c3,
    think CFG w bb ch c =
      match state c3 with
      | FOLLOW => thinkFollow w bb c3
      | ACQUIRE => thinkAcquire w bb c3
      | ACT => thinkAct CFG w bb c3
      | RECOVER => thinkRecover w c3
      | HOLD => thinkHold w bb c3
      end
    /\ actorId c3 = actorId c /\ cfg c3 = cfg c
    /\ state c3 = (if leashed w c ch then RECOVER else state c)
    /\ target c3 = (if leashed w c ch then None else target c).
Proof.
  unfold think, leashed. cbv zeta.
  change (cfg (set_thinkCd (Config.thinkInterval CFG) c)) with (cfg c).
  eexists. split; [reflexivity|].
  destruct (_ <? _), (negb (Blackboard.combatActive bb)); simpl; auto.
Qed.

Lemma thinkFollow_intents c :
  abilityCount (thinkFollow w bb c).2 = 0%nat
  /\ (movementCount (thinkFollow w bb c).2 <= 1)%nat
  /\ state (thinkFollow w bb c).1 ∈ [state c; HOLD; ACQUIRE].
Proof.
  unfold thinkFollow, ChronoCompat.moveToward, abilityCount, movementCount.
  repeat case_match; simpl; repeat split; try lia; try reflexivity; in_list.
Qed.

Lemma thinkHold_intents c :
  (thinkHold w bb c).2 = []
  /\ state (thinkHold w bb c).1 ∈ [state c; ACT].
Proof.
  unfold thinkHold. repeat case_match; simpl; split; try reflexivity; in_list.
Qed.

Lemma thinkAcquire_intents c :
  (thinkAcquire w bb c).2 = []
  /\ state (thinkAcquire w bb c).1 ∈ [ACT; HOLD; FOLLOW].
Proof.
  unfold thinkAcquire.
  repeat case_match; simpl; split; try reflexivity; in_list.
Qed.

Lemma thinkRecover_intents c :
  (thinkRecover w c).2 = ChronoCompat.moveToward (char w c) (gamePlayer w)
  /\ abilityCount (thinkRecover w c).2 = 0%nat
  /\ (movementCount (thinkRecover w c).2 <= 1)%nat
  /\ state (thinkRecover w c).1 ∈ [state c; HOLD; FOLLOW].
Proof.
  unfold thinkRecover, ChronoCompat.moveToward, abilityCount, movementCount.
  repeat case_match; simpl; repeat split; try lia; try reflexivity; in_list.
Qed.

Lemma thinkAct_intents c :
  (abilityCount (thinkAct CFG w bb c).2 <= 1)%nat
  /\ (movementCount (thinkAct CFG w bb c).2 <= 2)%nat
  /\ state (thinkAct CFG w bb c).1 ∈ [ACQUIRE; FOLLOW; ACT]
  /\ (state (thinkAct CFG w bb c).1 = ACT -> role c = Roles.HEALER).
Proof.
  unfold thinkAct. cbv zeta.
  destruct (String.eqb_spec (role c) Roles.HEALER) as [Hh|Hh].
  { destruct (actHealer_shape CFG w bb c) as (Ha & Hm & _ & Hs).
    repeat split; [exact Ha|lia| |done].
    destruct Hs as [->|[[-> _]| ->]]; in_list. }
  assert (Hplain : forall res, plainAct res ->
    (abilityCount res.2 <= 1)%nat /\ (movementCount res.2 <= 2)%nat
    /\ state res.1 ∈ [ACQUIRE; FOLLOW; ACT]
    /\ (state res.1 = ACT -> role c = Roles.HEALER)).
  { intros res (Ha & Hm & Hs). repeat split; [exact Ha|lia| |].
    - destruct Hs as [->|[-> _]]; in_list.
    - intros Hact. destruct Hs as [Hs|[Hs _]]; congruence. }
  destruct (String.eqb (role c) Roles.RANGED).
  { destruct (actRanged_shape w bb c) as (Ha & Hm & _ & _ & Hs).
    repeat split; [exact Ha|exact Hm| |].
    - destruct Hs as [->|[-> _]]; in_list.
    - intros Hact. destruct Hs as [Hs|[Hs _]]; congruence. }
  destruct (String.eqb (role c) Roles.TANK); apply Hplain.
  - apply actTank_plain.
  - apply actMelee_plain.
Qed.

Lemma runs_set_thinkCd v c : runs CFG w c -> runs CFG w (set_thinkCd v c).
Proof. intros H. exact H. Qed.

End FsmFacts.

(** X10. A think of an agent that is farther from the player than its leash
    radius pre-empts whatever state it was in: the target is dropped, the
    only intent is the move toward the player, and the controller ends in
    RECOVER, or, when that move brings it within three tiles, in HOLD for the
    HOLD stance and FOLLOW otherwise. *)
Theorem leash_preempts_every_state (CFG : Config.t) (w : World)
    (bb : Blackboard.t) (c : Controller.t) (ch : Character)
    (Hruns : runs CFG w c) (Hchar : Controller.char w c = Some ch)
    (Hcd : Controller.thinkCd c <= 0)
    (Hleash : AgentConfig.leash (Controller.cfg c)
              < ChronoCompat.distTiles (Some ch) (gamePlayer w)) :
  let res := Controller.update CFG w bb c in
  let moved :=
    match gamePlayer w with
    | Some p => moveTowardCharacter w ch p
    | None => ch
    end in
  res.2 = ChronoCompat.moveToward (Some ch) (gamePlayer w)
  /\ Controller.target res.1 = None
  /\ Controller.state res.1 =
     if ChronoCompat.distTiles (Some moved) (gamePlayer w) <=? 3
     then (if Controller.stanceIsHold c then Controller.HOLD
           else Controller.FOLLOW)
     else Controller.RECOVER.
Proof.
  cbv zeta. rewrite (update_runs CFG w bb c ch Hruns Hchar).
  destruct (Z.ltb_spec 0 (Controller.thinkCd c)); [lia|].
  destruct (think_prepared CFG w bb ch c) as (c3 & -> & Hid & Hcfg & Hst & Htg).
  assert (Hl : leashed w c ch = true) by (apply Z.ltb_lt; exact Hleash).
  rewrite Hl in Hst, Htg. rewrite Hst.
  assert (Hch3 : Controller.char w c3 = Some ch).
  { unfold Controller.char in *. by rewrite Hid. }
  unfold Controller.thinkRecover, Controller.stanceIsHold.
  rewrite Hch3, Hcfg.
  destruct (gamePlayer w) as [p|]; simpl;
    repeat case_match; simpl; rewrite ?Htg; repeat split; done.
Qed.

Lemma leash_preempts_witness :
  (Controller.update sampleCFG strayScene duoBoard
     (Controller.set_target (Some 7)
        (sampleController 2 "MELEE" 0 Controller.ACT))).2
  = [MoveToward (mkCharacter 12 0 None) (mkCharacter 0 0 None)].
Proof.
  refine (proj1 (leash_preempts_every_state sampleCFG strayScene duoBoard
    (Controller.set_target (Some 7)
       (sampleController 2 "MELEE" 0 Controller.ACT))
    (mkCharacter 12 0 None) _ _ _ _)).
  - repeat split; eexists; vm_compute; reflexivity.
  - vm_compute. reflexivity.
  - vm_compute. discriminate.
  - vm_compute. reflexivity.
Defined.

(** X11. Whatever its state, one controller update issues at most one
    ability intent and at most two movement intents. Outside the ACT state
    it issues no ability intent and at most one movement, and a think in
    ACQUIRE or HOLD within the leash issues nothing at all. *)
Theorem update_intents_by_state (CFG : Config.t) (w : World)
    (bb : Blackboard.t) (c : Controller.t) :
  let out := (Controller.update CFG w bb c).2 in
  (abilityCount out <= 1)%nat
  /\ (movementCount out <= 2)%nat
  /\ (Controller.state c <> Controller.ACT ->
      abilityCount out = 0%nat /\ (movementCount out <= 1)%nat)
  /\ (forall ch, Controller.char w c = Some ch -> leashed w c ch = false ->
      Controller.state c = Controller.ACQUIRE
      \/ Controller.state c = Controller.HOLD ->
      out = []).
Proof.
  cbv zeta.
  assert (Hidle : forall o : list Intent, o = [] ->
    (abilityCount o <= 1)%nat /\ (movementCount o <= 2)%nat
    /\ (Controller.state c <> Controller.ACT ->
        abilityCount o = 0%nat /\ (movementCount o <= 1)%nat)
    /\ (forall ch, Controller.char w c = Some ch -> leashed w c ch = false ->
        Controller.state c = Controller.ACQUIRE
        \/ Controller.state c = Controller.HOLD -> o = [])).
  { intros o ->. unfold abilityCount, movementCount. simpl.
    repeat split; auto with lia. }
  unfold Controller.update.
  destruct (negb _ || negb _); [by apply Hidle|].
  destruct (Controller.char w c) as [ch|] eqn:Hch; [|by apply Hidle].
  destruct (Controller.actor w c) as [ac|]; [|by apply Hidle].
  destruct (0 <? Controller.thinkCd c); [by apply Hidle|].
  destruct (think_prepared CFG w bb ch c) as (c3 & -> & Hid & Hcfg & Hst & Htg).
  destruct (leashed w c ch) eqn:Hl.
  - rewrite Hst.
    destruct (thinkRecover_intents w c3) as (_ & Ha & Hm & _).
    repeat split; try lia. intros ch' [= <-] Hno. congruence.
  - rewrite Hst. destruct (Controller.state c) eqn:Hs.
    + destruct (thinkFollow_intents w bb c3) as (Ha & Hm & _).
      repeat split; try lia. intros ch' _ _ [?|?]; discriminate.
    + destruct (thinkAcquire_intents w bb c3) as (-> & _). by apply Hidle.
    + destruct (thinkAct_intents CFG w bb c3) as (Ha & Hm & _).
      repeat split; try lia; try done. intros ch' _ _ [?|?]; discriminate.
    + destruct (thinkRecover_intents w c3) as (_ & Ha & Hm & _).
      repeat split; try lia. intros ch' _ _ [?|?]; discriminate.
    + destruct (thinkHold_intents w bb c3) as (-> & _). by apply Hidle.
Qed.

(** X12. The transitions of a think. Within the leash the controller moves
    from FOLLOW to FOLLOW, HOLD or ACQUIRE; from ACQUIRE to ACT, HOLD or
    FOLLOW; from ACT to ACQUIRE or FOLLOW, or stays in ACT, which only a
    HEALER does; from RECOVER to RECOVER, HOLD or FOLLOW; from HOLD to HOLD
    or ACT. Beyond the leash it ends in RECOVER, HOLD or FOLLOW. *)
Theorem think_transitions (CFG : Config.t) (w : World) (bb : Blackboard.t)
    (c : Controller.t) (ch : Character) :
  let c' := (Controller.think CFG w bb ch c).1 in
  (leashed w c ch = false -> Controller.state c' ∈ nextStates (Controller.state c))
  /\ (leashed w c ch = false -> Controller.state c = Controller.ACT ->
      Controller.state c' = Controller.ACT ->
      Controller.role c = Roles.HEALER)
  /\ (leashed w c ch = true ->
      Controller.state c' ∈ [Controller.RECOVER; Controller.HOLD; Controller.FOLLOW]).
Proof.
  cbv zeta.
  destruct (think_prepared CFG w bb ch c) as (c3 & -> & Hid & Hcfg & Hst & _).
  assert (Hrole : Controller.role c3 = Controller.role c).
  { unfold Controller.role. by rewrite Hcfg. }
  split; [|split].
  - intros Hl. rewrite Hl in Hst. rewrite Hst.
    destruct (Controller.state c) eqn:Hs; simpl nextStates.
    + destruct (thinkFollow_intents w bb c3) as (_ & _ & H).
      by rewrite Hst in H.
    + apply thinkAcquire_intents.
    + apply thinkAct_intents.
    + destruct (thinkRecover_intents w c3) as (_ & _ & _ & H).
      by rewrite Hst in H.
    + destruct (thinkHold_intents w bb c3) as (_ & H). by rewrite Hst in H.
  - intros Hl Hact. rewrite Hl in Hst. rewrite Hst, Hact, <- Hrole.
    apply thinkAct_intents.
  - intros Hl. rewrite Hl in Hst. rewrite Hst.
    destruct (thinkRecover_intents w c3) as (_ & _ & _ & Hs).
    by rewrite Hst in Hs.
Qed.

(** X13. The think period: while the controller is enabled and its handles
    resolve in every frame, a countdown of [n] makes the next [n] updates do
    nothing but count down to zero, with no intent and no change of state,
    target or script, and the update after those is the decision logic. So
    after a think, which leaves the countdown at the think interval, the
    next think comes thinkInterval + 1 frames later. *)
Theorem think_period (CFG : Config.t) (fs : list (World * Blackboard.t))
    (c : Controller.t)
    (Hruns : Forall (fun f => runs CFG f.1 c) fs)
    (Hcd : Z.of_nat (length fs) <= Controller.thinkCd c) :
  updatesOver CFG fs c
  = (Controller.set_thinkCd (Controller.thinkCd c - Z.of_nat (length fs)) c, [])
  /\ (forall w bb ch, runs CFG w c -> Controller.char w c = Some ch ->
      Z.of_nat (length fs) = Controller.thinkCd c ->
      Controller.update CFG w bb (updatesOver CFG fs c).1
      = Controller.think CFG w bb ch (Controller.set_thinkCd 0 c)).
Proof.
  assert (Hgo : forall fs c, Forall (fun f => runs CFG f.1 c) fs ->
    Z.of_nat (length fs) <= Controller.thinkCd c ->
    updatesOver CFG fs c
    = (Controller.set_thinkCd (Controller.thinkCd c - Z.of_nat (length fs)) c,
       [])).
  { clear. induction fs as [|[w bb] fs IH]; intros c Hruns Hcd.
    - simpl. destruct c. unfold Controller.set_thinkCd. simpl.
      do 2 f_equal. lia.
    - simpl length in Hcd. apply Forall_cons in Hruns as [Hr Hrs].
      simpl in Hr. destruct Hr as (H1 & H2 & [ch Hch] & H4).
      assert (Hr : runs CFG w c) by (repeat split; eauto).
      simpl updatesOver. rewrite (update_runs CFG w bb c ch Hr Hch).
      destruct (Z.ltb_spec 0 (Controller.thinkCd c)); [|lia].
      rewrite (IH (Controller.set_thinkCd (Controller.thinkCd c - 1) c));
        [|exact Hrs|simpl; lia].
      unfold Controller.set_thinkCd. simpl. do 2 f_equal. lia. }
  split; [by apply Hgo|].
  intros w bb ch Hr Hch Hlen. rewrite (Hgo fs c Hruns Hcd). simpl.
  rewrite (update_runs CFG w bb _ ch); [|exact Hr|exact Hch].
  simpl. replace (Controller.thinkCd c - Z.of_nat (length fs)) with 0 by lia.
  reflexivity.
Qed.

Lemma think_period_witness :
  updatesOver sampleCFG
    [(duoScene, duoBoard); (duoScene, duoBoard); (duoScene, duoBoard)]
    (sampleController 2 "HEALER" 8 Controller.ACT)
  = (sampleController 2 "HEALER" 5 Controller.ACT, []).
Proof.
  refine (proj1 (think_period sampleCFG
    [(duoScene, duoBoard); (duoScene, duoBoard); (duoScene, duoBoard)]
    (sampleController 2 "HEALER" 8 Controller.ACT) _ _)).
  - repeat constructor; simpl; eexists; vm_compute; reflexivity.
  - vm_compute. discriminate.
Defined.

(** ** What a controller asks of the host *)

Ltac tool_facts :=
  repeat match goal with
  | H : (_ <? _) = true |- _ => apply Z.ltb_lt in H
  | H : (_ =? _) = false |- _ => apply Z.eqb_neq in H
  end.

Ltac pick_tool :=
  first [ by left; repeat split; lia
        | by right; left; repeat split; lia
        | by right; right; left; repeat split; lia
        | by right; right; right; repeat split; lia ].

Ltac own_intents :=
  repeat case_match; simpl; tool_facts;
  repeat (apply List.Forall_cons;
          [split; [reflexivity|simpl; first [exact I|pick_tool]]|]);
  try apply List.Forall_nil.

Section OwnFacts.
Import Controller.
Variable CFG : Config.t.
Variable w : World.
Variable bb : Blackboard.t.

Lemma thinkFollow_own c ch :
  char w c = Some ch -> Forall (ownIntent (cfg c) ch) (thinkFollow w bb c).2.
Proof.
  intros Hch. unfold thinkFollow, ChronoCompat.moveToward. rewrite Hch.
  own_intents.
Qed.

Lemma thinkRecover_own c ch :
  char w c = Some ch -> Forall (ownIntent (cfg c) ch) (thinkRecover w c).2.
Proof.
  intros Hch. unfold thinkRecover, ChronoCompat.moveToward. rewrite Hch.
  own_intents.
Qed.

Lemma actMelee_own c ch :
  char w c = Some ch -> Forall (ownIntent (cfg c) ch) (actMelee w bb c).2.
Proof.
  intros Hch.
  unfold actMelee, fireAttack, ChronoCompat.moveToward,
    ChronoCompat.tryUseTool, enemyChar. rewrite Hch.
  own_intents.
Qed.

Lemma actRanged_own c ch :
  char w c = Some ch -> Forall (ownIntent (cfg c) ch) (actRanged w bb c).2.
Proof.
  intros Hch.
  unfold actRanged, fireAttack, ChronoCompat.moveToward, ChronoCompat.moveAway,
    ChronoCompat.sidestep, ChronoCompat.tryUseTool, enemyChar. rewrite Hch.
  cbv zeta. destruct (targetOr w bb c Roles.RANGED) as [t|]; [|constructor].
  own_intents.
Qed.

Lemma actTank_own c ch :
  char w c = Some ch -> Forall (ownIntent (cfg c) ch) (actTank w bb c).2.
Proof.
  intros Hch.
  unfold actTank, fireAttack, ChronoCompat.moveToward,
    ChronoCompat.tryUseTool, enemyChar. rewrite Hch. cbv zeta.
  destruct (match match nearestProtectedLoop w _ _ _ _ with
                  | Some _ => _ | None => _ end with
            | Some e => Some e | None => _ end) as [t|]; [|constructor].
  own_intents.
Qed.

Lemma doHealerHeal_own tid c ch :
  char w c = Some ch -> Forall (ownIntent (cfg c) ch) (doHealerHeal w tid c).2.
Proof.
  intros Hch.
  unfold doHealerHeal, ChronoCompat.moveToward, ChronoCompat.tryUseTool.
  rewrite Hch. own_intents.
Qed.

Lemma doHealerBuff_own tid c ch :
  char w c = Some ch -> Forall (ownIntent (cfg c) ch) (doHealerBuff w tid c).2.
Proof.
  intros Hch.
  unfold doHealerBuff, ChronoCompat.moveToward, ChronoCompat.tryUseTool.
  rewrite Hch. own_intents.
Qed.

Lemma defendOrReposition_own c ch :
  Forall (ownIntent (cfg c) ch) (defendOrReposition w bb ch c).2.
Proof.
  unfold defendOrReposition, ChronoCompat.moveToward, ChronoCompat.moveAway,
    ChronoCompat.tryUseTool, enemyChar.
  own_intents.
Qed.

Lemma actHealer_own c ch :
  char w c = Some ch -> Forall (ownIntent (cfg c) ch) (actHealer CFG w bb c).2.
Proof.
  intros Hch. unfold actHealer. rewrite Hch.
  destruct (actor w c) as [ua|]; [|constructor]. cbv zeta.
  destruct (initCombatWindow_identity w bb c) as (Hid & Hcfg & _).
  assert (Hch1 : char w (initCombatWindow w bb c) = Some ch).
  { unfold char in *. by rewrite Hid. }
  rewrite <- Hcfg.
  destruct (healDue _ (Config.healerCriticalThreshold CFG)) as [id|].
  { rewrite andThen_setState. by apply doHealerHeal_own. }
  destruct (healDue _ (Config.healerHealThreshold CFG)) as [id|].
  { rewrite andThen_setState. by apply doHealerHeal_own. }
  destruct (nextBuff CFG bb _) as [next|].
  { rewrite andThen_setState. by apply doHealerBuff_own. }
  apply defendOrReposition_own.
Qed.

Lemma thinkAct_own c ch :
  char w c = Some ch -> Forall (ownIntent (cfg c) ch) (thinkAct CFG w bb c).2.
Proof.
  intros Hch. unfold thinkAct. cbv zeta.
  repeat case_match;
    auto using actHealer_own, actRanged_own, actTank_own, actMelee_own.
Qed.

End OwnFacts.

(** X14. Every intent of a controller update has the controller's own
    character as its subject, and every tool it triggers is one of the four
    tools of its configuration with the command type of that tool: 0 for
    attack and defend, 1 for heal and buff. Attack, defend and heal tools are
    only triggered with a positive id, the buff tool with a non-zero id. *)
Theorem intents_are_the_agents_own (CFG : Config.t) (w : World)
    (bb : Blackboard.t) (c : Controller.t) (ch : Character)
    (Hchar : Controller.char w c = Some ch) :
  Forall (ownIntent (Controller.cfg c) ch) (Controller.update CFG w bb c).2.
Proof.
  unfold Controller.update. rewrite Hchar.
  destruct (negb _ || negb _); [constructor|].
  destruct (Controller.actor w c); [|constructor].
  destruct (0 <? Controller.thinkCd c); [constructor|].
  destruct (think_prepared CFG w bb ch c) as (c3 & -> & Hid & Hcfg & _).
  assert (Hch3 : Controller.char w c3 = Some ch).
  { unfold Controller.char in *. by rewrite Hid. }
  rewrite <- Hcfg. destruct (Controller.state c3).
  - by apply thinkFollow_own.
  - destruct (thinkAcquire_intents w bb c3) as [-> _]. constructor.
  - by apply thinkAct_own.
  - by apply thinkRecover_own.
  - destruct (thinkHold_intents w bb c3) as [-> _]. constructor.
Qed.

Lemma intents_are_the_agents_own_witness :
  Forall (ownIntent (Controller.cfg kitingAgent) origin)
    (Controller.update sampleCFG kiteScene duoBoard kitingAgent).2.
Proof.
  refine (intents_are_the_agents_own sampleCFG kiteScene duoBoard kitingAgent
            origin _).
  vm_compute. reflexivity.
Defined.

(** ** Target selection for the other roles *)

(** X15. For every role other than RANGED (MELEE, TANK, or any other string)
    the selector ignores the enemy tags: it returns the first enemy in scan
    order at the least manhattan distance when that distance is below the
    9999 sentinel, and nothing when the list is empty or every enemy is at
    9999 or more. *)
Theorem other_roles_pick_nearest (w : World) (bb : Blackboard.t)
    (c : Controller.t) (role : string) (Hrole : role <> Roles.RANGED) :
  match Controller.pickTarget w bb c role with
  | Some e =>
      distTo w (Controller.char w c) e < 9999
      /\ firstNearest w (Controller.char w c) (Blackboard.enemies bb) e
  | None =>
      forall e, e ∈ Blackboard.enemies bb ->
        9999 <= distTo w (Controller.char w c) e
  end.
Proof.
  unfold Controller.pickTarget.
  apply String.eqb_neq in Hrole. rewrite Hrole.
  destruct (Blackboard.enemies bb) as [|e0 es] eqn:Hen.
  - intros e Hin. inversion Hin.
  - apply (nearestInPool_spec w (Controller.char w c) (e0 :: es)).
Qed.

Lemma other_roles_pick_nearest_witness :
  match Controller.pickTarget guardScene guardBoard
          (sampleController 3 "TANK" 0 Controller.ACQUIRE) Roles.TANK with
  | Some e =>
      distTo guardScene
        (Controller.char guardScene
           (sampleController 3 "TANK" 0 Controller.ACQUIRE)) e < 9999
      /\ firstNearest guardScene
           (Controller.char guardScene
              (sampleController 3 "TANK" 0 Controller.ACQUIRE))
           (Blackboard.enemies guardBoard) e
  | None =>
      forall e, e ∈ Blackboard.enemies guardBoard ->
        9999 <= distTo guardScene
                  (Controller.char guardScene
                     (sampleController 3 "TANK" 0 Controller.ACQUIRE)) e
  end.
Proof.
  refine (other_roles_pick_nearest guardScene guardBoard
            (sampleController 3 "TANK" 0 Controller.ACQUIRE) Roles.TANK _).
  vm_compute. discriminate.
Defined.

(** ** The tank *)

Section TankFacts.
Import Controller.
Variable w : World.

Lemma firstNearestAlly_snoc_skip ch seen pc id :
  firstNearestAlly w ch seen pc -> allyDist w ch id = None ->
  firstNearestAlly w ch (seen ++ [id]) pc.
Proof.
  intros (i & k & Hi & Hk & Hall & Hbefore) Hnone.
  exists i, k. split; [by apply lookup_app_l_Some|]. split; [exact Hk|]. split.
  - intros j id' d' Hj Hd. apply lookup_app_Some in Hj as [Hj|[_ Hj]]; [eauto|].
    apply list_lookup_singleton_Some in Hj as [_ <-]. congruence.
  - intros j id' d' Hlt Hj Hd.
    apply lookup_app_Some in Hj as [Hj|[Hge _]]; [eauto|].
    apply lookup_lt_Some in Hi. lia.
Qed.

Lemma firstNearestAlly_snoc_keep ch seen pc id d :
  firstNearestAlly w ch seen pc -> allyDist w ch id = Some d ->
  ChronoCompat.distTiles ch (Some pc) <= d ->
  firstNearestAlly w ch (seen ++ [id]) pc.
Proof.
  intros (i & k & Hi & Hk & Hall & Hbefore) Hsome Hle.
  exists i, k. split; [by apply lookup_app_l_Some|]. split; [exact Hk|]. split.
  - intros j id' d' Hj Hd. apply lookup_app_Some in Hj as [Hj|[_ Hj]]; [eauto|].
    apply list_lookup_singleton_Some in Hj as [_ <-]. congruence.
  - intros j id' d' Hlt Hj Hd.
    apply lookup_app_Some in Hj as [Hj|[Hge _]]; [eauto|].
    apply lookup_lt_Some in Hi. lia.
Qed.

Lemma firstNearestAlly_snoc_new ch seen id pc :
  characterForActorId w id = Some pc ->
  (forall id' d', id' ∈ seen -> allyDist w ch id' = Some d' ->
     ChronoCompat.distTiles ch (Some pc) < d') ->
  firstNearestAlly w ch (seen ++ [id]) pc.
Proof.
  intros Hpc Hall. exists (length seen), id.
  split; [rewrite lookup_app_r by lia; by rewrite Nat.sub_diag|].
  split; [exact Hpc|]. split.
  - intros j id' d' Hj Hd. apply lookup_app_Some in Hj as [Hj|[_ Hj]].
    + apply Z.lt_le_incl. eapply Hall; [|exact Hd].
      by eapply list_elem_of_lookup_2.
    + apply list_lookup_singleton_Some in Hj as [_ <-].
      unfold allyDist in Hd. rewrite Hpc in Hd. injection Hd as <-. lia.
  - intros j id' d' Hlt Hj Hd. rewrite lookup_app_l in Hj by exact Hlt.
    eapply Hall; [|exact Hd]. by eapply list_elem_of_lookup_2.
Qed.

Lemma nearestProtectedLoop_spec ch ids : forall seen best bestD,
  protectedInv w ch seen best bestD ->
  protectedPost w ch (seen ++ ids) (nearestProtectedLoop w ch ids best bestD).
Proof.
  induction ids as [|id ids IH]; intros seen best bestD Hinv; simpl.
  - rewrite app_nil_r. destruct best as [pc|]; simpl in *.
    + destruct Hinv as (-> & Hb & Hfirst). by split.
    + tauto.
  - replace (seen ++ id :: ids) with ((seen ++ [id]) ++ ids)
      by (rewrite <- app_assoc; reflexivity).
    destruct (characterForActorId w id) as [pc|] eqn:Hpc.
    + assert (Hd : allyDist w ch id
                   = Some (ChronoCompat.distTiles ch (Some pc))).
      { unfold allyDist. by rewrite Hpc. }
      destruct (Z.ltb_spec (ChronoCompat.distTiles ch (Some pc)) bestD)
        as [Hlt|Hge]; apply IH.
      * simpl. split; [reflexivity|]. destruct best as [b|]; simpl in Hinv.
        -- destruct Hinv as (-> & Hb & (i & k & Hi & Hk & Hall & Hbefore)).
           split; [lia|]. apply firstNearestAlly_snoc_new; [exact Hpc|].
           intros id' d' Hin Hd'. apply list_elem_of_lookup in Hin as [j Hj].
           specialize (Hall j id' d' Hj Hd'). lia.
        -- destruct Hinv as (-> & Hall). split; [lia|].
           apply firstNearestAlly_snoc_new; [exact Hpc|].
           intros id' d' Hin Hd'. specialize (Hall id' d' Hin Hd'). lia.
      * destruct best as [b|]; simpl in *.
        -- destruct Hinv as (-> & Hb & Hfirst). repeat split; [lia|].
           by eapply firstNearestAlly_snoc_keep.
        -- destruct Hinv as (-> & Hall). split; [reflexivity|].
           intros id' d' Hin Hd'.
           apply elem_of_app in Hin as [Hin|Hin]; [eauto|].
           apply list_elem_of_singleton in Hin as ->.
           rewrite Hd in Hd'. injection Hd' as <-. lia.
    + assert (Hd : allyDist w ch id = None).
      { unfold allyDist. by rewrite Hpc. }
      apply IH. destruct best as [b|]; simpl in *.
      * destruct Hinv as (-> & Hb & Hfirst). repeat split; [lia|].
        by apply firstNearestAlly_snoc_skip.
      * destruct Hinv as (-> & Hall). split; [reflexivity|].
        intros id' d' Hin Hd'.
        apply elem_of_app in Hin as [Hin|Hin]; [eauto|].
        apply list_elem_of_singleton in Hin as ->. congruence.
Qed.

(** [actTank] once the protected character and the enemy list are known. *)
Lemma actTank_unfold bb c :
  actTank w bb c =
  let ch := char w c in
  let protectedChar :=
    nearestProtectedLoop w ch (List.filter (isProtected w) (partyActorIds w))
      None 9999 in
  let peel :=
    match protectedChar with
    | Some pc =>
        List.find
          (fun e => ChronoCompat.distTiles (Some pc) (Some (eventObj w e))
                      <=? AgentConfig.protectRadius (cfg c))
          (Blackboard.enemies bb)
    | None => None
    end in
  match match peel with
        | Some e => Some e
        | None => pickTarget w bb c Roles.TANK
        end with
  | None => (set_state FOLLOW c, [])
  | Some t =>
      (set_state ACQUIRE c,
       ChronoCompat.moveToward ch (Some (eventObj w t)) ++ fireAttack c ch)
  end.
Proof. reflexivity. Qed.

End TankFacts.

(** X16. The ally a tank protects is the nearest one: among the party
    members whose configured role is RANGED or HEALER and whose character
    resolves, the loop returns the character of the first one in roster order
    at the least distance from the tank, provided that distance is below the
    9999 sentinel, and nothing otherwise. Members of any other role,
    unknown role names included, are never protected. *)
Theorem tank_protects_nearest_ally (w : World) (ch : option Character) :
  let ids := List.filter (Controller.isProtected w) (partyActorIds w) in
  protectedPost w ch ids (Controller.nearestProtectedLoop w ch ids None 9999)
  /\ forall id, id ∈ ids <->
       id ∈ partyActorIds w /\ hasRole w [Roles.RANGED; Roles.HEALER] id = true.
Proof.
  cbv zeta. split.
  - apply (nearestProtectedLoop_spec w ch _ [] None 9999).
    simpl. split; [reflexivity|]. intros id d' Hin. inversion Hin.
  - intros id.
    rewrite list_elem_of_In, filter_In, <- list_elem_of_In.
    by rewrite isProtected_resolved.
Qed.

(** X17. Peel priority: when the tank's character resolves, it has a nearest
    protected ally, and some enemy is within the tank's protect radius of
    that ally, the tank moves toward the first such enemy in scan order and
    attacks, whatever its own distance to that enemy and however close other
    enemies are to the tank itself, and whatever target it held. When it has
    no protected ally, or no enemy is within the radius, it falls back to
    the nearest enemy overall, and to FOLLOW without intent when there is
    none. *)
Theorem tank_peels_before_nearest (w : World) (bb : Blackboard.t)
    (c : Controller.t) (ch : Character)
    (Hchar : Controller.char w c = Some ch) :
  let protectedChar :=
    Controller.nearestProtectedLoop w (Some ch)
      (List.filter (Controller.isProtected w) (partyActorIds w)) None 9999 in
  let radius := AgentConfig.protectRadius (Controller.cfg c) in
  let engage (t : Z) :=
    (Controller.set_state Controller.ACQUIRE c,
     MoveToward ch (eventObj w t) :: Controller.fireAttack c (Some ch)) in
  let fallback :=
    match Controller.pickTarget w bb c Roles.TANK with
    | Some t => engage t
    | None => (Controller.set_state Controller.FOLLOW c, [])
    end in
  (forall pc e, protectedChar = Some pc ->
     firstWithin w pc radius (Blackboard.enemies bb) e ->
     Controller.actTank w bb c = engage e)
  /\ (forall pc, protectedChar = Some pc ->
     (forall e, e ∈ Blackboard.enemies bb ->
        radius < ChronoCompat.distTiles (Some pc) (Some (eventObj w e))) ->
     Controller.actTank w bb c = fallback)
  /\ (protectedChar = None -> Controller.actTank w bb c = fallback).
Proof.
  cbv zeta. rewrite actTank_unfold. cbv zeta. rewrite Hchar.
  split; [|split].
  - intros pc e -> (i & Hi & Hin & Hbefore).
    rewrite (find_of_first _ _ i e Hi).
    + reflexivity.
    + by apply Z.leb_le.
    + intros j e' Hj He'. apply Z.leb_gt. by eapply Hbefore.
  - intros pc -> Hnone.
    rewrite find_none_all.
    + by destruct (Controller.pickTarget w bb c Roles.TANK).
    + intros e He. apply Z.leb_gt, Hnone. by apply list_elem_of_In.
  - intros ->. by destruct (Controller.pickTarget w bb c Roles.TANK).
Qed.

Lemma tank_peels_before_nearest_witness :
  Controller.actTank threatScene guardBoard
    (sampleController 3 "TANK" 0 Controller.ACT)
  = (Controller.set_state Controller.ACQUIRE
       (sampleController 3 "TANK" 0 Controller.ACT),
     [MoveToward (mkCharacter 0 0 None) (mkCharacter 0 7 (Some EnemyMELEE));
      UseTool (mkCharacter 0 0 None) 5 0]).
Proof.
  refine (proj1 (tank_peels_before_nearest threatScene guardBoard
    (sampleController 3 "TANK" 0 Controller.ACT) (mkCharacter 0 0 None) _)
    (mkCharacter 0 3 None) 8 _ _).
  - vm_compute. reflexivity.
  - vm_compute. reflexivity.
  - exists 1%nat. split; [reflexivity|]. split; [vm_compute; discriminate|].
    intros [|j] e' Hj He'; [|lia]. injection He' as <-. vm_compute. reflexivity.
Defined.

(** ** Roster synchronisation *)

Section SyncFacts.
Variable CFG : Config.t.
Variable w : World.

Lemma syncEntry_idempotent k o :
  syncEntry CFG w k (syncEntry CFG w k o) = syncEntry CFG w k o.
Proof.
  unfold syncEntry. destruct (k =? leaderId w); [reflexivity|].
  destruct (gameActors w !! k) as [a|]; [|reflexivity].
  destruct (AgentConfig.enabled (aiConfig a)); [|reflexivity].
  by destruct o.
Qed.

Lemma syncLoop_lookup ids : forall (cs : gmap Z Controller.t) k,
  Manager.syncLoop CFG w ids cs !! k =
  if bool_decide (k ∈ ids) then syncEntry CFG w k (cs !! k) else cs !! k.
Proof.
  induction ids as [|a ids IH]; intros cs k.
  { case_bool_decide as Hin; [inversion Hin|reflexivity]. }
  assert (Hstep : forall cs1 : gmap Z Controller.t,
    cs1 !! k = (if decide (k = a) then syncEntry CFG w k (cs !! k)
                else cs !! k) ->
    Manager.syncLoop CFG w ids cs1 !! k =
    if bool_decide (k ∈ a :: ids) then syncEntry CFG w k (cs !! k)
    else cs !! k).
  { intros cs1 Hcs1. rewrite IH, Hcs1.
    destruct (decide (k = a)) as [->|Hne].
    - rewrite (bool_decide_eq_true_2 (a ∈ a :: ids)) by apply list_elem_of_here.
      case_bool_decide; [apply syncEntry_idempotent|reflexivity].
    - case_bool_decide as Hin.
      + rewrite bool_decide_eq_true_2; [reflexivity|].
        by apply list_elem_of_further.
      + rewrite bool_decide_eq_false_2; [reflexivity|].
        intros Hin'. apply elem_of_cons in Hin' as [?|?]; contradiction. }
  simpl Manager.syncLoop.
  destruct (Z.eqb_spec a (leaderId w)) as [Hl|Hl].
  { apply Hstep. case_decide as Hk; [|reflexivity]. subst k.
    unfold syncEntry. rewrite Hl, Z.eqb_refl. reflexivity. }
  destruct (gameActors w !! a) as [act|] eqn:Ha.
  2:{ apply Hstep. case_decide as Hk; [|reflexivity]. subst k.
      unfold syncEntry. rewrite Ha.
      by destruct (a =? leaderId w). }
  assert (Hentry : forall o, syncEntry CFG w a o =
    if AgentConfig.enabled (aiConfig act)
    then Some match o with
              | Some c => Controller.set_cfg (aiConfig act) c
              | None => Controller.new CFG a (aiConfig act) (mathRandom w a)
              end
    else None).
  { intros o. unfold syncEntry. rewrite Ha.
    destruct (Z.eqb_spec a (leaderId w)); [contradiction|reflexivity]. }
  destruct (AgentConfig.enabled (aiConfig act)) eqn:Hen; simpl negb; cbv iota.
  - destruct (cs !! a) as [c|] eqn:Hc; apply Hstep;
      (case_decide as Hk;
       [subst k; rewrite lookup_insert_eq, Hentry, Hc; reflexivity
       |by rewrite lookup_insert_ne]).
  - apply Hstep. case_decide as Hk.
    + subst k. by rewrite lookup_delete_eq, Hentry.
    + by rewrite lookup_delete_ne.
Qed.

Lemma sync_lookup (m : Manager.t) k :
  Config.enabled CFG = true ->
  Manager.controllers (Manager.sync CFG w m) !! k =
  if bool_decide (k ∈ partyActorIds w)
  then syncEntry CFG w k (Manager.controllers m !! k)
  else None.
Proof.
  intros Hon. unfold Manager.sync. rewrite Hon. simpl.
  destruct (Manager.dropAbsent (partyActorIds w) _ !! k) as [c|] eqn:Hk.
  - apply dropAbsent_lookup in Hk as [Hk Hin].
    rewrite syncLoop_lookup in Hk.
    by rewrite bool_decide_eq_true_2 in * by exact Hin.
  - case_bool_decide as Hin; [|reflexivity].
    destruct (syncEntry CFG w k (Manager.controllers m !! k)) as [c|] eqn:He;
      [|reflexivity].
    assert (Manager.dropAbsent (partyActorIds w)
              (Manager.syncLoop CFG w (partyActorIds w) (Manager.controllers m))
              !! k = Some c) as Hc; [|congruence].
    apply dropAbsent_lookup. split; [|exact Hin].
    rewrite syncLoop_lookup. by rewrite bool_decide_eq_true_2 by exact Hin.
Qed.

End SyncFacts.

(** X18. A roster synchronisation acts on each key separately: with the
    plugin enabled, the entry of every actor outside the party is removed,
    and the entry of a party member is left alone for the leader and for a
    member without actor data, removed for a member whose configuration
    disables the AI, and otherwise refreshed with the current configuration
    (keeping countdown, state, target and script) or created new. With the
    plugin disabled nothing changes. *)
Theorem sync_acts_entrywise (CFG : Config.t) (w : World) (m : Manager.t) :
  (Config.enabled CFG = true ->
     Manager.bb (Manager.sync CFG w m) = Manager.bb m
     /\ forall k,
          Manager.controllers (Manager.sync CFG w m) !! k =
          if bool_decide (k ∈ partyActorIds w)
          then syncEntry CFG w k (Manager.controllers m !! k)
          else None)
  /\ (Config.enabled CFG = false -> Manager.sync CFG w m = m).
Proof.
  split.
  - intros Hon. split; [|intros k; by apply sync_lookup].
    unfold Manager.sync. by rewrite Hon.
  - intros Hoff. unfold Manager.sync. by rewrite Hoff.
Qed.

(** X19. Synchronising twice is synchronising once: a second pass over the
    same roster creates, refreshes and removes nothing. *)
Theorem sync_is_idempotent (CFG : Config.t) (w : World) (m : Manager.t) :
  Manager.sync CFG w (Manager.sync CFG w m) = Manager.sync CFG w m.
Proof.
  destruct (Config.enabled CFG) eqn:Hon.
  2:{ unfold Manager.sync. by rewrite Hon. }
  assert (Hbb : forall m', Manager.bb (Manager.sync CFG w m') = Manager.bb m').
  { intros m'. unfold Manager.sync. by rewrite Hon. }
  assert (Hcs : Manager.controllers (Manager.sync CFG w (Manager.sync CFG w m))
                = Manager.controllers (Manager.sync CFG w m)).
  { apply map_eq. intros k. rewrite !(sync_lookup CFG w _ k Hon).
    case_bool_decide; [apply syncEntry_idempotent|reflexivity]. }
  destruct (Manager.sync CFG w (Manager.sync CFG w m)) as [b1 c1] eqn:E1.
  destruct (Manager.sync CFG w m) as [b2 c2] eqn:E2.
  simpl in Hcs. subst c1. f_equal.
  pose proof (Hbb (Manager.mk b2 c2)) as H1. rewrite E1 in H1. exact H1.
Qed.

(** X20. After a synchronisation with the plugin enabled, every controller
    belongs to a party member; a party member other than the leader whose
    actor data exists has a controller exactly when its configuration enables
    the AI, and that controller carries the current configuration. A
    controller that existed before keeps its countdown, state, target and
    healer script. *)
Theorem sync_reconciles_roster (CFG : Config.t) (w : World) (m : Manager.t)
    (Hon : Config.enabled CFG = true) :
  let cs' := Manager.controllers (Manager.sync CFG w m) in
  (forall k c', cs' !! k = Some c' -> k ∈ partyActorIds w)
  /\ (forall k a, k ∈ partyActorIds w -> k <> leaderId w ->
        gameActors w !! k = Some a ->
        (is_Some (cs' !! k) <-> AgentConfig.enabled (aiConfig a) = true)
        /\ forall c', cs' !! k = Some c' -> Controller.cfg c' = aiConfig a)
  /\ (forall k c c', Manager.controllers m !! k = Some c ->
        cs' !! k = Some c' ->
        Controller.actorId c' = Controller.actorId c
        /\ Controller.thinkCd c' = Controller.thinkCd c
        /\ Controller.state c' = Controller.state c
        /\ Controller.target c' = Controller.target c
        /\ script c' = script c).
Proof.
  cbv zeta. split; [|split].
  - intros k c'. rewrite (sync_lookup CFG w m k Hon).
    case_bool_decide; [done|discriminate].
  - intros k a Hin Hl Ha. rewrite (sync_lookup CFG w m k Hon).
    rewrite bool_decide_eq_true_2 by exact Hin.
    unfold syncEntry. rewrite Ha.
    destruct (Z.eqb_spec k (leaderId w)); [contradiction|].
    destruct (AgentConfig.enabled (aiConfig a)).
    + split; [split; eauto|]. intros c' [= <-].
      by destruct (Manager.controllers m !! k).
    + split; [split; [intros [? [=]]|discriminate]|discriminate].
  - intros k c c' Hc. rewrite (sync_lookup CFG w m k Hon), Hc.
    case_bool_decide; [|discriminate]. unfold syncEntry.
    destruct (k =? leaderId w); [by intros [= <-]|].
    destruct (gameActors w !! k) as [a|]; [|by intros [= <-]].
    destruct (AgentConfig.enabled (aiConfig a)); [|discriminate].
    by intros [= <-].
Qed.

Lemma sync_reconciles_roster_witness :
  is_Some (Manager.controllers (Manager.sync sampleCFG benchScene Manager.new)
             !! 3)
  <-> AgentConfig.enabled (aiConfig (sampleActor "RANGED" 100)) = true.
Proof.
  refine (proj1 (proj1 (proj2 (sync_reconciles_roster sampleCFG benchScene
                                 Manager.new _))
                   3 (sampleActor "RANGED" 100) _ _ _)).
  - reflexivity.
  - vm_compute. by repeat constructor.
  - vm_compute. discriminate.
  - vm_compute. reflexivity.
Defined.

(** X21. A map setup starts every agent afresh: with the plugin enabled the
    manager holds a new blackboard and, for exactly the party members other
    than the leader whose actor data enables the AI, a newly constructed
    controller (FOLLOW, no target, empty healer script, and as countdown the
    floor of the rounded product of the random draw and the think interval);
    nothing of the previous map is kept. *)
Theorem map_setup_starts_fresh (CFG : Config.t) (w : World)
    (Hon : Config.enabled CFG = true) :
  Manager.bb (Manager.onMapSetup CFG w) = Blackboard.new
  /\ forall k,
       Manager.controllers (Manager.onMapSetup CFG w) !! k =
       match gameActors w !! k with
       | Some a =>
           if bool_decide (k ∈ partyActorIds w) && negb (k =? leaderId w)
              && AgentConfig.enabled (aiConfig a)
           then Some (Controller.mk k (aiConfig a)
                        (Double.floor
                           (Double.mulInt (mathRandom w k)
                              (Config.thinkInterval CFG)))
                        Controller.FOLLOW None ∅ [] 0)
           else None
       | None => None
       end.
Proof.
  unfold Manager.onMapSetup. split.
  - unfold Manager.sync. by rewrite Hon.
  - intros k. rewrite (sync_lookup CFG w Manager.new k Hon).
    simpl Manager.controllers. rewrite lookup_empty. unfold syncEntry.
    case_bool_decide; simpl.
    + destruct (k =? leaderId w); simpl; [by destruct (gameActors w !! k)|].
      destruct (gameActors w !! k) as [a|]; [|reflexivity].
      by destruct (AgentConfig.enabled (aiConfig a)).
    + by destruct (gameActors w !! k).
Qed.

(** In the bench scene the ranged member gets a new controller, and the
    leader gets none. *)
Lemma map_setup_starts_fresh_witness :
  Manager.controllers (Manager.onMapSetup sampleCFG benchScene) !! 3
  = Some (Controller.mk 3 (sampleConfig "RANGED") 0 Controller.FOLLOW None ∅ [] 0)
  /\ Manager.controllers (Manager.onMapSetup sampleCFG benchScene) !! 1 = None.
Proof.
  pose proof (proj2 (map_setup_starts_fresh sampleCFG benchScene eq_refl))
    as Hsetup.
  split; rewrite Hsetup; vm_compute; reflexivity.
Defined.

(** ** Character bindings *)

Lemma findIndex_Some actorId members : forall i,
  FollowersBinding.findIndex actorId members = Some i ->
  members !! i = Some actorId
  /\ forall (j : nat), (j < i)%nat -> members !! j <> Some actorId.
Proof.
  induction members as [|a members IH]; intros i; simpl; [discriminate|].
  destruct (Z.eqb_spec a actorId) as [->|Hne].
  - intros [= <-]. split; [reflexivity|]. intros j Hj. lia.
  - destruct (FollowersBinding.findIndex actorId members) as [n|];
      [|discriminate].
    intros [= <-]. destruct (IH n eq_refl) as [Hn Hbefore].
    split; [exact Hn|]. intros [|j] Hj; simpl; [congruence|].
    apply Hbefore. lia.
Qed.

Lemma findIndex_first actorId members : forall i,
  members !! i = Some actorId ->
  (forall (j : nat), (j < i)%nat -> members !! j <> Some actorId) ->
  FollowersBinding.findIndex actorId members = Some i.
Proof.
  induction members as [|a members IH]; intros i Hi Hbefore; [discriminate|].
  simpl. destruct i as [|i]; simpl in Hi.
  - injection Hi as ->. by rewrite Z.eqb_refl.
  - destruct (Z.eqb_spec a actorId) as [->|Hne].
    + exfalso. apply (Hbefore 0%nat); [lia|reflexivity].
    + rewrite (IH i Hi); [reflexivity|].
      intros j Hj. apply (Hbefore (S j)). lia.
Qed.

Lemma findIndex_None actorId members :
  actorId ∉ members -> FollowersBinding.findIndex actorId members = None.
Proof.
  induction members as [|a members IH]; intros Hnot; simpl; [reflexivity|].
  destruct (Z.eqb_spec a actorId) as [->|Hne].
  - exfalso. apply Hnot. apply list_elem_of_here.
  - rewrite IH; [reflexivity|]. intros Hin. apply Hnot.
    by apply list_elem_of_further.
Qed.

(** X22. The followers binding of the plugin: the party leader and every
    actor outside the party have no character; the member whose first roster
    position is [i + 1] is bound to follower [i], so a member beyond the
    follower slots has no character either; in any mode other than
    followers nobody has one. *)
Theorem followers_binding_slots (mode : string) (members : list Z)
    (followers : list Character) (actorId : Z) :
  (mode <> "followers"%string ->
     FollowersBinding.characterForActorId mode members followers actorId = None)
  /\ (actorId ∉ members ->
     FollowersBinding.characterForActorId mode members followers actorId = None)
  /\ (members !! 0%nat = Some actorId ->
     FollowersBinding.characterForActorId mode members followers actorId = None)
  /\ (forall i : nat,
     members !! S i = Some actorId ->
     (forall j : nat, (j < S i)%nat -> members !! j <> Some actorId) ->
     FollowersBinding.characterForActorId "followers" members followers actorId
     = followers !! i).
Proof.
  unfold FollowersBinding.characterForActorId.
  split; [|split; [|split]].
  - intros Hmode. apply String.eqb_neq in Hmode. by rewrite Hmode.
  - intros Hnot. rewrite (findIndex_None _ _ Hnot).
    by destruct (String.eqb mode "followers").
  - intros Hhead. rewrite (findIndex_first actorId members 0%nat Hhead);
      [|intros j Hj; lia].
    by destruct (String.eqb mode "followers").
  - intros i Hi Hbefore. simpl String.eqb. cbv iota.
    by rewrite (findIndex_first actorId members (S i) Hi Hbefore).
Qed.

(** X23. Under the followers binding a controller keyed by the leader's
    actor id, however it came to exist, never acts: every update leaves it
    unchanged, countdown included, and issues nothing. *)
Theorem leader_controller_is_inert (CFG : Config.t) (w : World)
    (bb : Blackboard.t) (c : Controller.t) (mode : string)
    (followers : list Character)
    (Hbinding : forall id,
       characterForActorId w id =
       FollowersBinding.characterForActorId mode (partyActorIds w) followers id)
    (Hleader : Controller.actorId c = leaderId w) :
  Controller.update CFG w bb c = (c, []).
Proof.
  apply update_idle. intros (_ & _ & [ch Hch] & _).
  unfold Controller.char in Hch. rewrite Hleader, Hbinding in Hch.
  unfold FollowersBinding.characterForActorId, leaderId in Hch.
  destruct (String.eqb mode "followers"); [|discriminate].
  destruct (partyActorIds w) as [|a ids]; simpl in Hch; [discriminate|].
  rewrite Z.eqb_refl in Hch. discriminate.
Qed.

Lemma leader_controller_is_inert_witness :
  Controller.update sampleCFG followScene Blackboard.new
    (sampleController 2 "MELEE" 0 Controller.FOLLOW)
  = (sampleController 2 "MELEE" 0 Controller.FOLLOW, []).
Proof.
  refine (leader_controller_is_inert sampleCFG followScene Blackboard.new
    (sampleController 2 "MELEE" 0 Controller.FOLLOW) "followers"
    [mkCharacter 0 1 None; mkCharacter 0 2 None; mkCharacter 0 3 None] _ _).
  - intros id. reflexivity.
  - reflexivity.
Defined.

(** X24. The binding of the compatibility bridge returns the character of
    the first entry of the player list whose battler carries the requested
    actor id, skipping entries without character or battler and battlers
    without actor id; it returns nothing when no entry matches or the map
    offers no player list. *)
Theorem players_binding_first_match (actorId : Z)
    (players : list (option (Character * option Z))) :
  match PlayersBinding.characterForActorId (Some players) actorId with
  | Some character =>
      exists i : nat,
        players !! i = Some (Some (character, Some actorId))
        /\ forall (j : nat) entry, (j < i)%nat -> players !! j = Some entry ->
             PlayersBinding.matches actorId entry = false
  | None =>
      forall entry, entry ∈ players ->
        PlayersBinding.matches actorId entry = false
  end
  /\ PlayersBinding.characterForActorId None actorId = None.
Proof.
  split; [|reflexivity]. simpl.
  induction players as [|entry players IH]; simpl.
  { intros entry Hin. inversion Hin. }
  assert (Hskip : PlayersBinding.matches actorId entry = false ->
    match PlayersBinding.scan actorId players with
    | Some character =>
        exists i : nat,
          (entry :: players) !! i = Some (Some (character, Some actorId))
          /\ forall (j : nat) e, (j < i)%nat -> (entry :: players) !! j = Some e ->
               PlayersBinding.matches actorId e = false
    | None =>
        forall e, e ∈ entry :: players ->
          PlayersBinding.matches actorId e = false
    end).
  { intros Hno. destruct (PlayersBinding.scan actorId players) as [ch|].
    - destruct IH as (i & Hi & Hbefore). exists (S i). split; [exact Hi|].
      intros [|j] e Hj He; simpl in He; [by injection He as <-|].
      apply (Hbefore j); [lia|exact He].
    - intros e He. apply elem_of_cons in He as [->|He]; [exact Hno|by apply IH]. }
  destruct entry as [[ch [id|]]|]; try (by apply Hskip).
  destruct (Z.eqb_spec id actorId) as [->|Hne].
  - exists 0%nat. split; [reflexivity|]. intros j e Hj. lia.
  - apply Hskip. simpl. by apply Z.eqb_neq.
Qed.

(** ** The ranged role *)

(** X25. With its character resolved and a target, a RANGED agent kites
    only MELEE-tagged targets: within the keep-away distance of such a target
    it moves away and then sidesteps, even when the target is beyond its
    preferred range. The sidestep reads the position the character has after
    the host has carried out the move away: it goes along the axis
    perpendicular to the larger offset from there (up or down when the target
    is mostly left or right, left or right otherwise), in the first of the
    two directions when the random draw is below one half. In every other
    case the agent moves toward a target beyond its preferred range and stays
    put otherwise. The attack tool follows whenever it is configured, and
    the controller goes back to ACQUIRE. *)
Theorem ranged_kiting_rules (w : World) (bb : Blackboard.t)
    (c : Controller.t) (ch : Character) (t : Z)
    (Hchar : Controller.char w c = Some ch)
    (Htarget : Controller.targetOr w bb c Roles.RANGED = Some t) :
  let tc := eventObj w t in
  let d := ChronoCompat.distTiles (Some ch) (Some tc) in
  let keep := AgentConfig.keepDistance (Controller.cfg c) in
  let range := AgentConfig.preferredRange (Controller.cfg c) in
  let tool := AgentConfig.toolAttack (Controller.cfg c) in
  let attack := if 0 <? tool then [UseTool ch tool 0] else [] in
  let moved := moveAwayFromCharacter w ch tc in
  let sideways := Z.abs (cy tc - cy moved) <? Z.abs (cx tc - cx moved) in
  let rnd := Double.toQ (mathRandom w (Controller.actorId c)) in
  let res := Controller.actRanged w bb c in
  Controller.state res.1 = Controller.ACQUIRE
  /\ (roaEnemyType tc = Some EnemyMELEE -> d <= keep ->
      exists dir,
        res.2 = MoveAway ch tc :: MoveStraight ch dir :: attack
        /\ ((rnd < 1 # 2)%Q -> dir = if sideways then 8 else 4)
        /\ ((1 # 2 <= rnd)%Q -> dir = if sideways then 2 else 6))
  /\ (roaEnemyType tc <> Some EnemyMELEE \/ keep < d -> range < d ->
      res.2 = MoveToward ch tc :: attack)
  /\ (roaEnemyType tc <> Some EnemyMELEE \/ keep < d -> d <= range ->
      res.2 = attack).
Proof.
  cbv zeta. unfold Controller.actRanged. rewrite Hchar, Htarget.
  unfold Controller.enemyChar, Controller.afterMoveAway, ChronoCompat.moveAway,
    ChronoCompat.sidestep, ChronoCompat.moveToward.
  assert (Hattack : Controller.fireAttack c (Some ch) =
            if 0 <? AgentConfig.toolAttack (Controller.cfg c)
            then [UseTool ch (AgentConfig.toolAttack (Controller.cfg c)) 0]
            else []).
  { unfold Controller.fireAttack, ChronoCompat.tryUseTool.
    destruct (Z.ltb_spec 0 (AgentConfig.toolAttack (Controller.cfg c)));
      [|reflexivity].
    destruct (Z.eqb_spec (AgentConfig.toolAttack (Controller.cfg c)) 0);
      [lia|reflexivity]. }
  rewrite Hattack.
  split; [reflexivity|]. split; [|split].
  - intros Hmelee Hd. rewrite Hmelee. simpl isEnemyMELEE.
    rewrite (proj2 (Z.leb_le _ _) Hd). simpl andb. cbv iota zeta.
    set (rnd := Double.toQ (mathRandom w (Controller.actorId c))).
    assert (Hlt : (rnd < 1 # 2)%Q -> Qle_bool (1 # 2) rnd = false).
    { intros Hlt. apply not_true_is_false. intros Hle.
      apply Qle_bool_iff in Hle. by apply Qlt_not_le in Hlt. }
    assert (Hge : (1 # 2 <= rnd)%Q -> Qle_bool (1 # 2) rnd = true)
      by apply Qle_bool_iff.
    destruct (Z.abs (cy (eventObj w t)
                     - cy (moveAwayFromCharacter w ch (eventObj w t))) <? _);
      destruct (Qle_bool (1 # 2) rnd) eqn:Hq; simpl;
      eexists; (split; [reflexivity|]);
      (split; intros H; [apply Hlt in H|apply Hge in H]; congruence).
  - intros Hnot Hfar.
    assert (Hk : isEnemyMELEE (roaEnemyType (eventObj w t))
                 && (ChronoCompat.distTiles (Some ch) (Some (eventObj w t))
                       <=? AgentConfig.keepDistance (Controller.cfg c))
                 = false).
    { destruct Hnot as [Hnot|Hkeep].
      - destruct (roaEnemyType (eventObj w t)) as [[]|]; try reflexivity.
        by contradiction Hnot.
      - rewrite (proj2 (Z.leb_gt _ _) Hkeep). apply andb_false_r. }
    rewrite Hk, (proj2 (Z.ltb_lt _ _) Hfar). reflexivity.
  - intros Hnot Hnear.
    assert (Hk : isEnemyMELEE (roaEnemyType (eventObj w t))
                 && (ChronoCompat.distTiles (Some ch) (Some (eventObj w t))
                       <=? AgentConfig.keepDistance (Controller.cfg c))
                 = false).
    { destruct Hnot as [Hnot|Hkeep].
      - destruct (roaEnemyType (eventObj w t)) as [[]|]; try reflexivity.
        by contradiction Hnot.
      - rewrite (proj2 (Z.leb_gt _ _) Hkeep). apply andb_false_r. }
    rewrite Hk, (proj2 (Z.ltb_ge _ _) Hnear). reflexivity.
Qed.

(** In the kite scene the host moves the agent one tile away from the enemy
    three tiles to its right; the sidestep goes up. *)
Lemma ranged_kiting_rules_witness :
  (Controller.actRanged kiteScene duoBoard kitingAgent).2
  = [MoveAway origin (mkCharacter 2 0 (Some EnemyMELEE));
     MoveStraight origin 8; UseTool origin 5 0].
Proof.
  destruct (proj1 (proj2 (ranged_kiting_rules kiteScene duoBoard kitingAgent
                            origin 7 eq_refl eq_refl)) eq_refl)
    as (dir & Hout & Hfirst & _).
  - vm_compute. discriminate.
  - rewrite Hout, Hfirst; [reflexivity|]. vm_compute. reflexivity.
Defined.
